(** * Verification scene of the Mi Band NFC writer

    A shallow embedding of [miband_nfc_scene_verify.c]: the sector reader
    with key fallback and bounded retry, the bulk read, the block
    comparison and the scene's event handlers.

    Conventions of the embedding.
    - C integers are [Z]; the [uint32_t] counters of the tracker wrap at
      [2^32], the [uint64_t] key masks at [2^64], [uint8_t] arguments at
      [2^8].
    - The static [verify_tracker], the application object and the queue of
      the view dispatcher form one [World], threaded through a state monad.
    - Every call that leaves the scene (radio driver, delays, GUI, scene
      manager, notifications) is appended to the [trace] of the world, in
      program order.  The radio driver is a function of the trace so far
      and of the call, so a reply may depend on everything that happened
      before.
    - [FURI_LOG_x] lines only write to the debug console and are left out.
    - The types of [miband_nfc_i.h] and of the card library that the scene
      uses (key types, error codes, poller events, custom events) are
      written with the constructors the source names. *)

From Stdlib Require Import ZArith List Bool String Lia DecimalString.
From Stdlib.Strings Require Import Byte.
From stdpp Require Import base list.
Import ListNotations.
Local Open Scope string_scope.
Local Open Scope list_scope.
Local Open Scope Z_scope.

(** ** The card image *)

Inductive MfClassicKeyType := MfClassicKeyTypeA | MfClassicKeyTypeB.

Inductive MfClassicType := MfClassicTypeMini | MfClassicType1k | MfClassicType4k.

Inductive MfClassicError :=
| MfClassicErrorNone
| MfClassicErrorNotPresent
| MfClassicErrorProtocol
| MfClassicErrorAuth
| MfClassicErrorPartialRead
| MfClassicErrorTimeout.

(** A block holds 16 bytes and a key 6. *)
Definition MfClassicBlock := list byte.
Definition MfClassicKey := list byte.

Record MfClassicData := mkMfClassicData {
  type : MfClassicType;
  key_a_mask : Z;
  key_b_mask : Z;
  block : list MfClassicBlock
}.

(** The trailer is an overlay on the last block of a sector: Key A, four
    access bytes, Key B. *)
Record MfClassicSectorTrailer := mkMfClassicSectorTrailer {
  key_a : MfClassicKey;
  access_bits : list byte;
  key_b : MfClassicKey
}.

Definition zero_block : MfClassicBlock := repeat x00 16.

Definition wrap8 (x : Z) : Z := x mod 2 ^ 8.
Definition wrap32 (x : Z) : Z := x mod 2 ^ 32.
Definition wrap64 (x : Z) : Z := x mod 2 ^ 64.

(** Modelled from the spec: the bit macros come from the firmware headers,
    which are not under src/.  Section 4.2 has the reader "mark both key
    slots (A and B) for that sector as known": [FURI_BIT_SET(x, n)] sets bit
    [n] of [x], [(x) |= (1 << (n))] at the type of [x], and [FURI_BIT(x, n)]
    reads it, [((x) >> (n)) & 1]. *)
Definition FURI_BIT (x n : Z) : bool := Z.land (Z.shiftr x n) 1 =? 1.

(** Modelled from the spec: see [FURI_BIT]; the masks are [uint64_t]. *)
Definition FURI_BIT_SET (x n : Z) : Z := wrap64 (Z.lor x (Z.shiftl 1 n)).

(** Modelled from the spec: the layout helpers of the card library are not
    under src/.  Section 3 gives the layout, 1K: 16 sectors of 4 blocks, 4K:
    sectors of 4 and of 16 blocks (the 32 small ones first); the Mini card
    has 5 sectors of 4 blocks. *)
Definition mf_classic_get_total_sectors_num (t : MfClassicType) : Z :=
  match t with
  | MfClassicTypeMini => 5
  | MfClassicType1k => 16
  | MfClassicType4k => 40
  end.

(** Modelled from the spec: the number of blocks of the layout of section 3
    (16 * 4 for 1K, 32 * 4 + 8 * 16 for 4K). *)
Definition mf_classic_get_total_block_num (t : MfClassicType) : Z :=
  match t with
  | MfClassicTypeMini => 20
  | MfClassicType1k => 64
  | MfClassicType4k => 256
  end.

(** Modelled from the spec: sectors are "a fixed group of consecutive memory
    blocks"; the first block of a sector follows the last block of the one
    before.  The library returns a [uint8_t]. *)
Definition mf_classic_get_first_block_num_of_sector (sector : Z) : Z :=
  wrap8 (if sector <? 32 then sector * 4 else 32 * 4 + (sector - 32) * 16).

(** Modelled from the spec: 4 blocks in each of the first 32 sectors, 16 in
    the others (section 3). *)
Definition mf_classic_get_blocks_num_in_sector (sector : Z) : Z :=
  if sector <? 32 then 4 else 16.

(** Modelled from the spec: "the last block of a sector" (glossary). *)
Definition mf_classic_get_sector_trailer_num_by_sector (sector : Z) : Z :=
  mf_classic_get_first_block_num_of_sector sector
  + mf_classic_get_blocks_num_in_sector sector - 1.

(** Modelled from the spec: a block is a trailer when it is the last block
    of its sector; with sectors of 4 (below block 128) or 16 blocks that is
    the block whose low two (or four) bits are all set. *)
Definition mf_classic_is_sector_trailer (block_num : Z) : bool :=
  block_num =? (if block_num <? 32 * 4 then Z.lor block_num 3 else Z.lor block_num 15).

(** Modelled from the spec: the card image "carries, per sector, a key A
    known / key B known flag"; the library keeps them as bit [sector] of
    the two masks, the bits the reader sets with [FURI_BIT_SET]. *)
Definition mf_classic_is_key_found
    (data : MfClassicData) (sector : Z) (key_type : MfClassicKeyType) : bool :=
  match key_type with
  | MfClassicKeyTypeA => FURI_BIT (key_a_mask data) sector
  | MfClassicKeyTypeB => FURI_BIT (key_b_mask data) sector
  end.

Definition get_block (data : MfClassicData) (i : Z) : MfClassicBlock :=
  default zero_block (block data !! Z.to_nat i).

Definition trailer_of_block (b : MfClassicBlock) : MfClassicSectorTrailer :=
  {| key_a := firstn 6 b;
     access_bits := firstn 4 (skipn 6 b);
     key_b := firstn 6 (skipn 10 b) |}.

(** Modelled from the spec: the trailer of a sector is its last block.  The
    library returns the address of that block inside the image; an image
    that does not reach that block has no trailer, which is the [NULL] the
    reader tests for. *)
Definition mf_classic_get_sector_trailer_by_sector
    (data : MfClassicData) (sector : Z) : option MfClassicSectorTrailer :=
  trailer_of_block <$>
    (block data !! Z.to_nat (mf_classic_get_sector_trailer_num_by_sector sector)).

Definition set_block (data : MfClassicData) (i : Z) (b : MfClassicBlock) : MfClassicData :=
  {| type := type data;
     key_a_mask := key_a_mask data;
     key_b_mask := key_b_mask data;
     block := <[Z.to_nat i := b]> (block data) |}.

Definition set_type (data : MfClassicData) (t : MfClassicType) : MfClassicData :=
  {| type := t;
     key_a_mask := key_a_mask data;
     key_b_mask := key_b_mask data;
     block := block data |}.

Definition set_key_masks (data : MfClassicData) (a b : Z) : MfClassicData :=
  {| type := type data; key_a_mask := a; key_b_mask := b; block := block data |}.

(** [memcmp(a, b, 16) != 0] *)
Fixpoint bytes_eqb (a b : list byte) : bool :=
  match a, b with
  | [], [] => true
  | x :: a', y :: b' => Byte.eqb x y && bytes_eqb a' b'
  | _, _ => false
  end.

Definition memcmp16_differs (a b : MfClassicBlock) : bool :=
  negb (bytes_eqb (firstn 16 a) (firstn 16 b)).

(** ** Scene vocabulary *)

Inductive MiBandNfcSceneVerifyState :=
| MiBandNfcSceneVerifyStateCardSearch
| MiBandNfcSceneVerifyStateReading
| MiBandNfcSceneVerifyStateComparison.

Inductive MiBandNfcCustomEvent :=
| MiBandNfcCustomEventCardDetected
| MiBandNfcCustomEventPollerDone
| MiBandNfcCustomEventPollerFailed
| MiBandNfcCustomEventVerifyExit
| MiBandNfcCustomEventVerifyViewDetails
| MiBandNfcCustomEventOther (code : Z).

Inductive SceneManagerEvent :=
| SceneManagerEventTypeCustom (event : MiBandNfcCustomEvent)
| SceneManagerEventTypeBack
| SceneManagerEventTypeTick.

Inductive MfClassicPollerEventType :=
| MfClassicPollerEventTypeRequestMode
| MfClassicPollerEventTypeRequestReadSector
| MfClassicPollerEventTypeRequestSectorTrailer
| MfClassicPollerEventTypeRequestWriteBlock
| MfClassicPollerEventTypeNextSector
| MfClassicPollerEventTypeDataUpdate
| MfClassicPollerEventTypeRequestKey
| MfClassicPollerEventTypeCardDetected
| MfClassicPollerEventTypeCardLost
| MfClassicPollerEventTypeKeyAttackRequest
| MfClassicPollerEventTypeSuccess
| MfClassicPollerEventTypeFail.

Inductive NfcCommand := NfcCommandContinue | NfcCommandStop.

Inductive DialogExResult :=
| DialogExResultLeft | DialogExResultCenter | DialogExResultRight.

Inductive Scene := MiBandNfcSceneMainMenu | MiBandNfcSceneDiffViewer.
Inductive ViewId := MiBandNfcViewIdScanner | MiBandNfcViewIdDialog.
Inductive Sequence :=
| sequence_blink_start_cyan | sequence_blink_stop | sequence_error | sequence_success.

(** ** Calls that leave the scene *)

Inductive Call :=
| CallAuth (block_num : Z) (key : MfClassicKey) (key_type : MfClassicKeyType)
| CallReadBlock (block_num : Z) (key : MfClassicKey) (key_type : MfClassicKeyType).

Record Reply := mkReply { reply_error : MfClassicError; reply_block : MfClassicBlock }.

Inductive Event :=
| EvNfc (c : Call) (e : MfClassicError)
| EvDelay (ms : Z)
| EvUi (header : string)
| EvLogger (sector : Z)
| EvNotify (s : Sequence)
| EvPopupReset
| EvPopupHeader (text : string)
| EvPopupText (text : string)
| EvPopupIcon
| EvDialogReset
| EvDialogHeader (text : string)
| EvDialogText (text : string)
| EvDialogButtons (left right : string)
| EvSwitchView (v : ViewId)
| EvPreviousScene
| EvNextScene (s : Scene)
| EvSearchAndSwitch (s : Scene)
| EvPollerMode
| EvPollerStart
| EvPollerStop
| EvPollerFree.

Definition Driver := list Event -> Call -> Reply.

Definition is_read_call (ev : Event) : bool :=
  match ev with
  | EvNfc (CallReadBlock _ _ _) _ => true
  | _ => false
  end.

Definition is_auth_call (ev : Event) : bool :=
  match ev with
  | EvNfc (CallAuth _ _ _) _ => true
  | _ => false
  end.


(** ** Application state *)

Record VerifyTracker := mkVerifyTracker {
  current_sector : Z;
  total_sectors : Z;
  sectors_read : Z;
  sectors_failed : Z;
  auth_attempts : Z;
  auth_successes : Z;
  blocks_compared : Z;
  blocks_different : Z;
  current_operation : option string;
  last_result : option string;
  error_details : option string;
  reading_complete : bool
}.

Record MiBandNfcApp := mkMiBandNfcApp {
  is_valid_nfc_data : bool;
  mf_classic_data : MfClassicData;
  target_data : MfClassicData;
  poller : bool;
  scene_state : MiBandNfcSceneVerifyState
}.

Record World := mkWorld {
  app : MiBandNfcApp;
  verify_tracker : VerifyTracker;
  custom_events : list MiBandNfcCustomEvent;
  trace : list Event
}.

(** ** A state monad over the world *)

Definition M (A : Type) : Type := World -> A * World.

Definition ret {A} (a : A) : M A := fun w => (a, w).
Definition bind {A B} (m : M A) (k : A -> M B) : M B :=
  fun w => let (a, w') := m w in k a w'.

Notation "'let*' x ':=' m 'in' k" := (bind m (fun x => k))
  (at level 10, x name, m at level 100, k at level 200).

Definition emit (e : Event) : M unit :=
  fun w => (tt, {| app := app w; verify_tracker := verify_tracker w;
                   custom_events := custom_events w; trace := trace w ++ [e] |}).

Definition modify_tracker (f : VerifyTracker -> VerifyTracker) : M unit :=
  fun w => (tt, {| app := app w; verify_tracker := f (verify_tracker w);
                   custom_events := custom_events w; trace := trace w |}).

Definition modify_app (f : MiBandNfcApp -> MiBandNfcApp) : M unit :=
  fun w => (tt, {| app := f (app w); verify_tracker := verify_tracker w;
                   custom_events := custom_events w; trace := trace w |}).

Definition get_app : M MiBandNfcApp := fun w => (app w, w).
Definition get_tracker : M VerifyTracker := fun w => (verify_tracker w, w).

Definition when (b : bool) (m : M unit) : M unit := if b then m else ret tt.

Definition furi_delay_ms (ms : Z) : M unit := emit (EvDelay ms).

(** [furi_string_set_str] and [furi_string_printf] on a tracker string; a
    string that was never allocated stays [None].  The handlers that write
    to the tracker run after [verify_tracker_init]. *)
Definition furi_string_set (s : option string) (text : string) : option string :=
  match s with
  | Some _ => Some text
  | None => None
  end.

Definition nl : string := String (Ascii.ascii_of_nat 10) "".

Definition dec (z : Z) : string := NilZero.string_of_uint (N.to_uint (Z.to_N z)).

Definition set_current_operation (text : string) : M unit :=
  modify_tracker (fun t =>
    {| current_sector := current_sector t; total_sectors := total_sectors t;
       sectors_read := sectors_read t; sectors_failed := sectors_failed t;
       auth_attempts := auth_attempts t; auth_successes := auth_successes t;
       blocks_compared := blocks_compared t; blocks_different := blocks_different t;
       current_operation := furi_string_set (current_operation t) text;
       last_result := last_result t; error_details := error_details t;
       reading_complete := reading_complete t |}).

Definition set_last_result (text : string) : M unit :=
  modify_tracker (fun t =>
    {| current_sector := current_sector t; total_sectors := total_sectors t;
       sectors_read := sectors_read t; sectors_failed := sectors_failed t;
       auth_attempts := auth_attempts t; auth_successes := auth_successes t;
       blocks_compared := blocks_compared t; blocks_different := blocks_different t;
       current_operation := current_operation t;
       last_result := furi_string_set (last_result t) text;
       error_details := error_details t;
       reading_complete := reading_complete t |}).

Definition set_error_details (text : string) : M unit :=
  modify_tracker (fun t =>
    {| current_sector := current_sector t; total_sectors := total_sectors t;
       sectors_read := sectors_read t; sectors_failed := sectors_failed t;
       auth_attempts := auth_attempts t; auth_successes := auth_successes t;
       blocks_compared := blocks_compared t; blocks_different := blocks_different t;
       current_operation := current_operation t;
       last_result := last_result t;
       error_details := furi_string_set (error_details t) text;
       reading_complete := reading_complete t |}).

(** The counters, each with the wrap of [uint32_t]. *)
Definition incr_auth_attempts : M unit :=
  modify_tracker (fun t =>
    {| current_sector := current_sector t; total_sectors := total_sectors t;
       sectors_read := sectors_read t; sectors_failed := sectors_failed t;
       auth_attempts := wrap32 (auth_attempts t + 1);
       auth_successes := auth_successes t;
       blocks_compared := blocks_compared t; blocks_different := blocks_different t;
       current_operation := current_operation t; last_result := last_result t;
       error_details := error_details t; reading_complete := reading_complete t |}).

Definition incr_auth_successes : M unit :=
  modify_tracker (fun t =>
    {| current_sector := current_sector t; total_sectors := total_sectors t;
       sectors_read := sectors_read t; sectors_failed := sectors_failed t;
       auth_attempts := auth_attempts t;
       auth_successes := wrap32 (auth_successes t + 1);
       blocks_compared := blocks_compared t; blocks_different := blocks_different t;
       current_operation := current_operation t; last_result := last_result t;
       error_details := error_details t; reading_complete := reading_complete t |}).

Definition incr_sectors_read : M unit :=
  modify_tracker (fun t =>
    {| current_sector := current_sector t; total_sectors := total_sectors t;
       sectors_read := wrap32 (sectors_read t + 1);
       sectors_failed := sectors_failed t;
       auth_attempts := auth_attempts t; auth_successes := auth_successes t;
       blocks_compared := blocks_compared t; blocks_different := blocks_different t;
       current_operation := current_operation t; last_result := last_result t;
       error_details := error_details t; reading_complete := reading_complete t |}).

Definition incr_sectors_failed : M unit :=
  modify_tracker (fun t =>
    {| current_sector := current_sector t; total_sectors := total_sectors t;
       sectors_read := sectors_read t;
       sectors_failed := wrap32 (sectors_failed t + 1);
       auth_attempts := auth_attempts t; auth_successes := auth_successes t;
       blocks_compared := blocks_compared t; blocks_different := blocks_different t;
       current_operation := current_operation t; last_result := last_result t;
       error_details := error_details t; reading_complete := reading_complete t |}).

Definition incr_blocks_compared : M unit :=
  modify_tracker (fun t =>
    {| current_sector := current_sector t; total_sectors := total_sectors t;
       sectors_read := sectors_read t; sectors_failed := sectors_failed t;
       auth_attempts := auth_attempts t; auth_successes := auth_successes t;
       blocks_compared := wrap32 (blocks_compared t + 1);
       blocks_different := blocks_different t;
       current_operation := current_operation t; last_result := last_result t;
       error_details := error_details t; reading_complete := reading_complete t |}).

Definition incr_blocks_different : M unit :=
  modify_tracker (fun t =>
    {| current_sector := current_sector t; total_sectors := total_sectors t;
       sectors_read := sectors_read t; sectors_failed := sectors_failed t;
       auth_attempts := auth_attempts t; auth_successes := auth_successes t;
       blocks_compared := blocks_compared t;
       blocks_different := wrap32 (blocks_different t + 1);
       current_operation := current_operation t; last_result := last_result t;
       error_details := error_details t; reading_complete := reading_complete t |}).

Definition set_current_sector (s : Z) : M unit :=
  modify_tracker (fun t =>
    {| current_sector := wrap32 s; total_sectors := total_sectors t;
       sectors_read := sectors_read t; sectors_failed := sectors_failed t;
       auth_attempts := auth_attempts t; auth_successes := auth_successes t;
       blocks_compared := blocks_compared t; blocks_different := blocks_different t;
       current_operation := current_operation t; last_result := last_result t;
       error_details := error_details t; reading_complete := reading_complete t |}).

Definition set_total_sectors (s : Z) : M unit :=
  modify_tracker (fun t =>
    {| current_sector := current_sector t; total_sectors := wrap32 s;
       sectors_read := sectors_read t; sectors_failed := sectors_failed t;
       auth_attempts := auth_attempts t; auth_successes := auth_successes t;
       blocks_compared := blocks_compared t; blocks_different := blocks_different t;
       current_operation := current_operation t; last_result := last_result t;
       error_details := error_details t; reading_complete := reading_complete t |}).

Definition set_reading_complete (b : bool) : M unit :=
  modify_tracker (fun t =>
    {| current_sector := current_sector t; total_sectors := total_sectors t;
       sectors_read := sectors_read t; sectors_failed := sectors_failed t;
       auth_attempts := auth_attempts t; auth_successes := auth_successes t;
       blocks_compared := blocks_compared t; blocks_different := blocks_different t;
       current_operation := current_operation t; last_result := last_result t;
       error_details := error_details t; reading_complete := b |}).

Definition set_target_data (f : MfClassicData -> MfClassicData) : M unit :=
  modify_app (fun a =>
    {| is_valid_nfc_data := is_valid_nfc_data a;
       mf_classic_data := mf_classic_data a;
       target_data := f (target_data a);
       poller := poller a;
       scene_state := scene_state a |}).

Definition set_poller (p : bool) : M unit :=
  modify_app (fun a =>
    {| is_valid_nfc_data := is_valid_nfc_data a;
       mf_classic_data := mf_classic_data a;
       target_data := target_data a;
       poller := p;
       scene_state := scene_state a |}).

Definition scene_manager_set_scene_state (s : MiBandNfcSceneVerifyState) : M unit :=
  modify_app (fun a =>
    {| is_valid_nfc_data := is_valid_nfc_data a;
       mf_classic_data := mf_classic_data a;
       target_data := target_data a;
       poller := poller a;
       scene_state := s |}).

(** [update_verify_ui] reads the tracker and draws the popup; the tracker
    is left as it is.  The trace keeps the header of each redraw. *)
Definition update_verify_ui (header : string) : M unit := emit (EvUi header).

(** ** The sector reader *)

Definition KeyCandidate : Type := MfClassicKey * MfClassicKeyType.

(** [memset(key.data, 0xFF, 6)] *)
Definition magic_key : MfClassicKey := repeat xff 6.

(** Lines 208-232 of [read_sector_with_keys]: the arrays [keys_to_try] and
    [key_types] filled up to [keys_count], as one list of pairs. *)
Definition keys_to_try
    (data : MfClassicData) (sector : Z) (sec_tr : MfClassicSectorTrailer)
    : list KeyCandidate :=
  let keys := [] in
  let keys :=
    if mf_classic_is_key_found data sector MfClassicKeyTypeA
    then keys ++ [(key_a sec_tr, MfClassicKeyTypeA)] else keys in
  let keys :=
    if mf_classic_is_key_found data sector MfClassicKeyTypeB
    then keys ++ [(key_b sec_tr, MfClassicKeyTypeB)] else keys in
  keys ++ [(magic_key, MfClassicKeyTypeA)].

Definition is_none (e : MfClassicError) : bool :=
  match e with MfClassicErrorNone => true | _ => false end.

Definition is_timeout (e : MfClassicError) : bool :=
  match e with MfClassicErrorTimeout => true | _ => false end.

Section Reader.

(** The radio driver behind [mf_classic_poller_sync_auth] and
    [mf_classic_poller_sync_read_block]. *)
Variable nfc : Driver.

Definition mf_classic_poller_sync_auth
    (block_num : Z) (key : MfClassicKey) (key_type : MfClassicKeyType)
    : M MfClassicError :=
  fun w =>
    let c := CallAuth (wrap8 block_num) key key_type in
    let e := reply_error (nfc (trace w) c) in
    (e, snd (emit (EvNfc c e) w)).

(** The block read is copied to the destination only when the call
    succeeds; here the destination is always [target_data->block[block_idx]]. *)
Definition mf_classic_poller_sync_read_block
    (block_idx : Z) (key : MfClassicKey) (key_type : MfClassicKeyType)
    : M MfClassicError :=
  fun w =>
    let c := CallReadBlock (wrap8 block_idx) key key_type in
    let r := nfc (trace w) c in
    let e := reply_error r in
    let w1 := snd (emit (EvNfc c e) w) in
    (e, if is_none e
        then snd (set_target_data (fun d => set_block d block_idx (reply_block r)) w1)
        else w1).

(** Lines 273-289: [for(retry = 0; retry < 3 && !block_read; retry++)];
    the result is [block_read]. *)
Fixpoint read_block_retry
    (fuel : nat) (retry : Z)
    (block_idx : Z) (key : MfClassicKey) (key_type : MfClassicKeyType) : M bool :=
  match fuel with
  | O => ret false
  | S fuel' =>
      if retry <? 3 then
        let* _ := when (0 <? retry) (furi_delay_ms 50) in
        let* error := mf_classic_poller_sync_read_block block_idx key key_type in
        if is_none error then ret true
        else if negb (is_timeout error) then ret false
        else read_block_retry fuel' (retry + 1) block_idx key key_type
      else ret false
  end.

Definition reauth_due (block_in_sector : Z) : bool :=
  (0 <? block_in_sector) && (block_in_sector mod 2 =? 0).

(** Lines 250-296: the loop over the blocks of the sector, from
    [block_in_sector] for [count] more blocks; the result is
    [all_blocks_read]. *)
Fixpoint read_blocks
    (count : nat) (block_in_sector : Z)
    (sector first_block : Z) (key : MfClassicKey) (key_type : MfClassicKeyType)
    : M bool :=
  match count with
  | O => ret true
  | S count' =>
      let block_idx := first_block + block_in_sector in
      let* reauth_ok :=
        if reauth_due block_in_sector then
          let* error := mf_classic_poller_sync_auth first_block key key_type in
          if negb (is_none error)
          then let* _ := emit (EvLogger sector) in ret false
          else ret true
        else ret true in
      if negb reauth_ok then ret false
      else
        let* block_read := read_block_retry 3 0 block_idx key key_type in
        if negb block_read then ret false
        else read_blocks count' (block_in_sector + 1) sector first_block key key_type
  end.

(** Lines 235-306: the loop over the candidates. *)
Fixpoint try_keys
    (keys : list KeyCandidate)
    (sector first_block blocks_in_sector : Z) : M bool :=
  match keys with
  | [] => ret false
  | (key, key_type) :: rest =>
      let* _ := incr_auth_attempts in
      let* error := mf_classic_poller_sync_auth first_block key key_type in
      if negb (is_none error)
      then try_keys rest sector first_block blocks_in_sector
      else
        let* _ := incr_auth_successes in
        let* all_blocks_read :=
          read_blocks (Z.to_nat blocks_in_sector) 0 sector first_block key key_type in
        if all_blocks_read then
          let* _ := set_target_data (fun d =>
            set_key_masks d (FURI_BIT_SET (key_a_mask d) sector)
                            (FURI_BIT_SET (key_b_mask d) sector)) in
          let* _ := furi_delay_ms 10 in
          ret true
        else try_keys rest sector first_block blocks_in_sector
  end.

Definition read_sector_with_keys (sector first_block blocks_in_sector : Z) : M bool :=
  let* a := get_app in
  match mf_classic_get_sector_trailer_by_sector (mf_classic_data a) sector with
  | None => ret false
  | Some sec_tr =>
      try_keys (keys_to_try (mf_classic_data a) sector sec_tr)
               sector (wrap8 first_block) (wrap8 blocks_in_sector)
  end.

End Reader.

(** ** The tracker's life cycle *)

Definition verify_tracker_init : M unit :=
  modify_tracker (fun t =>
    let alloc (s : option string) :=
      match current_operation t with
      | None => Some ""
      | Some _ => furi_string_set s ""
      end in
    {| current_sector := 0; total_sectors := 0;
       sectors_read := 0; sectors_failed := 0;
       auth_attempts := 0; auth_successes := 0;
       blocks_compared := 0; blocks_different := 0;
       current_operation := alloc (current_operation t);
       last_result := alloc (last_result t);
       error_details := alloc (error_details t);
       reading_complete := false |}).

Definition verify_tracker_free : M unit :=
  modify_tracker (fun t =>
    match current_operation t with
    | Some _ =>
        {| current_sector := current_sector t; total_sectors := total_sectors t;
           sectors_read := sectors_read t; sectors_failed := sectors_failed t;
           auth_attempts := auth_attempts t; auth_successes := auth_successes t;
           blocks_compared := blocks_compared t;
           blocks_different := blocks_different t;
           current_operation := None; last_result := None; error_details := None;
           reading_complete := reading_complete t |}
    | None => t
    end).

Definition view_dispatcher_send_custom_event (e : MiBandNfcCustomEvent) : M unit :=
  fun w => (tt, {| app := app w; verify_tracker := verify_tracker w;
                   custom_events := custom_events w ++ [e]; trace := trace w |}).

Definition verify_dialog_callback (result : DialogExResult) : M unit :=
  match result with
  | DialogExResultLeft => view_dispatcher_send_custom_event MiBandNfcCustomEventVerifyExit
  | DialogExResultRight =>
      view_dispatcher_send_custom_event MiBandNfcCustomEventVerifyViewDetails
  | DialogExResultCenter => ret tt
  end.

Section Scene.

Variable nfc : Driver.

(** [mf_classic_reset] belongs to the card library; the scene only calls
    it, so it is kept abstract. *)
Variable mf_classic_reset : MfClassicData -> MfClassicData.

(** Lines 335-362: the loop over the sectors; the result is
    [overall_success]. *)
Fixpoint read_sectors (count : nat) (sector : Z) (overall_success : bool) : M bool :=
  match count with
  | O => ret overall_success
  | S count' =>
      let* _ := set_current_sector sector in
      let* _ := set_current_operation ("Reading sector " ++ dec sector) in
      let* _ := update_verify_ui "Reading Mi Band" in
      let* _ := furi_delay_ms 50 in
      let first_block := mf_classic_get_first_block_num_of_sector sector in
      let blocks_in_sector := mf_classic_get_blocks_num_in_sector sector in
      let* sector_success :=
        read_sector_with_keys nfc sector first_block blocks_in_sector in
      if sector_success then
        let* _ := incr_sectors_read in
        let* _ := set_last_result ("Sector " ++ dec sector ++ " OK") in
        let* _ := update_verify_ui "Reading Mi Band" in
        let* _ := furi_delay_ms 50 in
        read_sectors count' (sector + 1) overall_success
      else
        let* _ := incr_sectors_failed in
        let* _ := set_error_details ("Sector " ++ dec sector ++ " failed") in
        read_sectors count' (sector + 1) false
  end.

Definition miband_verify_read_card : M bool :=
  let* a := get_app in
  if negb (is_valid_nfc_data a) then ret false
  else
    let* _ := set_total_sectors
                (mf_classic_get_total_sectors_num (type (mf_classic_data a))) in
    let* _ := set_current_operation "Initializing read" in
    let* _ := update_verify_ui "Reading Mi Band" in
    let* _ := set_target_data mf_classic_reset in
    let* _ := set_target_data (fun d => set_type d (type (mf_classic_data a))) in
    let* t := get_tracker in
    let* overall_success :=
      read_sectors (Z.to_nat (total_sectors t)) 0 true in
    let* _ := set_current_sector (total_sectors t) in
    let* _ := set_reading_complete true in
    let* t' := get_tracker in
    let* _ :=
      if overall_success then
        let* _ := set_current_operation "Read complete" in
        set_last_result ("All " ++ dec (sectors_read t') ++ " sectors read")
      else
        let* _ := set_current_operation "Read incomplete" in
        set_last_result (dec (sectors_failed t') ++ " sectors failed") in
    let* _ := update_verify_ui "Read Complete" in
    let* _ := furi_delay_ms 1000 in
    ret overall_success.

Definition miband_verify_reader_callback (event_type : MfClassicPollerEventType)
    : M NfcCommand :=
  match event_type with
  | MfClassicPollerEventTypeCardDetected =>
      let* _ := set_current_operation "Card detected" in
      let* _ := update_verify_ui "Card Found" in
      let* _ := view_dispatcher_send_custom_event MiBandNfcCustomEventCardDetected in
      ret NfcCommandContinue
  | MfClassicPollerEventTypeRequestMode =>
      let* _ := set_target_data mf_classic_reset in
      let* _ := emit EvPollerMode in
      ret NfcCommandContinue
  | MfClassicPollerEventTypeSuccess
  | MfClassicPollerEventTypeFail =>
      let* _ := view_dispatcher_send_custom_event MiBandNfcCustomEventPollerDone in
      ret NfcCommandStop
  | _ => ret NfcCommandContinue
  end.

Definition miband_nfc_scene_verify_on_enter : M unit :=
  let* a := get_app in
  if negb (is_valid_nfc_data a) then emit EvPreviousScene
  else
    let* _ := verify_tracker_init in
    let* _ := scene_manager_set_scene_state MiBandNfcSceneVerifyStateCardSearch in
    let* _ := emit EvPopupReset in
    let* _ := emit (EvPopupHeader "Verify Data") in
    let* _ := set_current_operation "Place Mi Band near Flipper" in
    let* _ := update_verify_ui "Verify Data" in
    let* _ := emit (EvSwitchView MiBandNfcViewIdScanner) in
    let* _ := emit (EvNotify sequence_blink_start_cyan) in
    let* _ := set_target_data mf_classic_reset in
    let* _ := set_target_data (fun d => set_type d (type (mf_classic_data a))) in
    let* _ := set_poller true in
    emit EvPollerStart.

(** [if(app->poller) { stop; free; app->poller = NULL; }], as the event
    handler and the exit handler have it. *)
Definition release_poller : M unit :=
  let* a := get_app in
  if poller a then
    let* _ := emit EvPollerStop in
    let* _ := emit EvPollerFree in
    set_poller false
  else ret tt.

(** Lines 507-536: the comparison loop; the result is
    [(data_match, different_blocks)]. *)
Fixpoint compare_blocks
    (count : nat) (i total_blocks : Z) (data_match : bool) (different_blocks : Z)
    : M (bool * Z) :=
  match count with
  | O => ret (data_match, different_blocks)
  | S count' =>
      let* _ := incr_blocks_compared in
      let* _ := when (i mod 16 =? 0)
        (let* _ := set_current_operation
                     ("Comparing block " ++ dec i ++ "/" ++ dec total_blocks) in
         update_verify_ui "Comparing Data") in
      if i =? 0 then
        compare_blocks count' (i + 1) total_blocks data_match different_blocks
      else if mf_classic_is_sector_trailer i then
        compare_blocks count' (i + 1) total_blocks data_match different_blocks
      else
        let* a := get_app in
        if memcmp16_differs (get_block (mf_classic_data a) i)
                            (get_block (target_data a) i)
        then
          let* _ := incr_blocks_different in
          compare_blocks count' (i + 1) total_blocks false (different_blocks + 1)
        else
          compare_blocks count' (i + 1) total_blocks data_match different_blocks
  end.

(** The three ways the poller-done branch ends (lines 488-494, 540-549
    and 551-570). *)
Definition show_read_failed : M unit :=
  let* _ := emit (EvNotify sequence_error) in
  let* _ := set_error_details ("Cannot read Mi Band" ++ nl ++ "Check keys or position") in
  let* _ := update_verify_ui "Read Failed" in
  let* _ := furi_delay_ms 3000 in
  emit (EvSearchAndSwitch MiBandNfcSceneMainMenu).

Definition show_success : M unit :=
  let* _ := emit (EvNotify sequence_success) in
  let* _ := emit EvPopupReset in
  let* _ := emit (EvPopupHeader "SUCCESS!") in
  let* _ := emit (EvPopupText ("All data matches!" ++ nl ++ nl ++ "Press Back")) in
  let* _ := emit EvPopupIcon in
  let* _ := emit (EvSwitchView MiBandNfcViewIdScanner) in
  let* _ := furi_delay_ms 3000 in
  emit (EvSearchAndSwitch MiBandNfcSceneMainMenu).

Definition show_differences (different_blocks : Z) : M unit :=
  let* _ := emit (EvNotify sequence_blink_stop) in
  let* _ := emit (EvNotify sequence_error) in
  let* _ := emit EvDialogReset in
  let* _ := emit (EvDialogHeader "Differences Found") in
  let* _ := emit (EvDialogText (dec different_blocks ++ " data blocks" ++ nl ++ "differ from dump")) in
  let* _ := emit (EvDialogButtons "Exit" "Details") in
  emit (EvSwitchView MiBandNfcViewIdDialog).

(** Lines 461-606.  A call that asks the scene manager for another scene
    is recorded in the trace and the handler goes on; what the scene
    manager does with the request, the exit handler of this scene
    included, is not the handler's own doing and is put together with it
    in [scene_manager_handle_event]. *)
Definition miband_nfc_scene_verify_on_event (event : SceneManagerEvent) : M bool :=
  match event with
  | SceneManagerEventTypeCustom MiBandNfcCustomEventCardDetected =>
      let* _ := scene_manager_set_scene_state MiBandNfcSceneVerifyStateReading in
      let* _ := set_current_operation "Card detected" in
      let* _ := update_verify_ui "Card Detected" in
      ret true
  | SceneManagerEventTypeCustom MiBandNfcCustomEventPollerDone =>
      let* _ := release_poller in
      let* _ := scene_manager_set_scene_state MiBandNfcSceneVerifyStateComparison in
      let* read_success := miband_verify_read_card in
      if negb read_success then
        let* _ := show_read_failed in
        ret true
      else
        let* _ := set_current_operation "Comparing data" in
        let* _ := update_verify_ui "Comparing Data" in
        let* _ := furi_delay_ms 500 in
        let* a := get_app in
        let total_blocks := mf_classic_get_total_block_num (type (mf_classic_data a)) in
        let* r := compare_blocks (Z.to_nat total_blocks) 0 total_blocks true 0 in
        let '(data_match, different_blocks) := r in
        let* _ :=
          if data_match && (different_blocks =? 0) then show_success
          else show_differences different_blocks in
        ret true
  | SceneManagerEventTypeCustom MiBandNfcCustomEventVerifyExit =>
      let* _ := emit (EvSearchAndSwitch MiBandNfcSceneMainMenu) in
      ret true
  | SceneManagerEventTypeCustom MiBandNfcCustomEventVerifyViewDetails =>
      let* _ := emit (EvNextScene MiBandNfcSceneDiffViewer) in
      ret true
  | SceneManagerEventTypeCustom MiBandNfcCustomEventPollerFailed =>
      let* _ := emit (EvNotify sequence_error) in
      let* _ := set_error_details "Card detection failed" in
      let* _ := update_verify_ui "Detection Failed" in
      let* _ := furi_delay_ms 2000 in
      let* _ := emit (EvSearchAndSwitch MiBandNfcSceneMainMenu) in
      ret true
  | SceneManagerEventTypeCustom (MiBandNfcCustomEventOther _) => ret false
  | SceneManagerEventTypeBack =>
      let* _ := emit (EvSearchAndSwitch MiBandNfcSceneMainMenu) in
      ret true
  | SceneManagerEventTypeTick => ret false
  end.

Definition miband_nfc_scene_verify_on_exit : M unit :=
  let* _ := release_poller in
  let* _ := verify_tracker_free in
  let* _ := emit (EvNotify sequence_blink_stop) in
  emit EvPopupReset.

(** The application forwards each queued custom event to the scene
    ([miband_nfc_app_custom_event_callback]); while the verify scene is
    on top that is [miband_nfc_scene_verify_on_event]. *)
Fixpoint deliver_custom_events (queue : list MiBandNfcCustomEvent) : M unit :=
  match queue with
  | [] => ret tt
  | e :: queue' =>
      let* _ := miband_nfc_scene_verify_on_event (SceneManagerEventTypeCustom e) in
      deliver_custom_events queue'
  end.

Definition take_custom_events : M (list MiBandNfcCustomEvent) :=
  fun w => (custom_events w,
            {| app := app w; verify_tracker := verify_tracker w;
               custom_events := []; trace := trace w |}).

Definition miband_nfc_app_custom_event_callback : M unit :=
  let* queue := take_custom_events in
  deliver_custom_events queue.

End Scene.

(** ** Concrete cards used by the examples *)

Definition data_block (n : Z) : MfClassicBlock :=
  repeat (Byte.x00) 15 ++ [match Byte.of_N (Z.to_N (n mod 256)) with
                           | Some b => b
                           | None => x00
                           end].

Definition dump_key_a : MfClassicKey := [xa0; xa1; xa2; xa3; xa4; xa5].
Definition dump_key_b : MfClassicKey := [xb0; xb1; xb2; xb3; xb4; xb5].

Definition dump_trailer : MfClassicBlock :=
  dump_key_a ++ [xff; x07; x80; x69] ++ dump_key_b.

(** A 1K image: data block [i] ends in byte [i], every fourth block is a
    trailer with the two dump keys. *)
Definition image_1k : list MfClassicBlock :=
  map (fun n => let i := Z.of_nat n in
                if mf_classic_is_sector_trailer i then dump_trailer else data_block i)
      (seq 0 64).

Definition blank_image : list MfClassicBlock := repeat zero_block 256.

Definition fresh_tracker : VerifyTracker :=
  {| current_sector := 0; total_sectors := 0; sectors_read := 0; sectors_failed := 0;
     auth_attempts := 0; auth_successes := 0; blocks_compared := 0;
     blocks_different := 0; current_operation := None; last_result := None;
     error_details := None; reading_complete := false |}.

Definition world_of (valid : bool) (dump target : MfClassicData) : World :=
  {| app := {| is_valid_nfc_data := valid; mf_classic_data := dump;
               target_data := target; poller := false;
               scene_state := MiBandNfcSceneVerifyStateCardSearch |};
     verify_tracker := fresh_tracker;
     custom_events := [];
     trace := [] |}.

Definition dump_1k (mask_a mask_b : Z) : MfClassicData :=
  {| type := MfClassicType1k; key_a_mask := mask_a; key_b_mask := mask_b;
     block := image_1k |}.

Definition blank_target : MfClassicData :=
  {| type := MfClassicTypeMini; key_a_mask := 0; key_b_mask := 0;
     block := blank_image |}.

(** A reset that clears the image. *)
Definition reset_to_blank (d : MfClassicData) : MfClassicData := blank_target.


(** ** Concrete cards behind the driver *)

Definition key_type_eqb (a b : MfClassicKeyType) : bool :=
  match a, b with
  | MfClassicKeyTypeA, MfClassicKeyTypeA => true
  | MfClassicKeyTypeB, MfClassicKeyTypeB => true
  | _, _ => false
  end.

(** A card that holds [image] and answers the calls [accept] admits at this
    point of the exchange; every other call fails with [refusal]. *)
Definition card
    (accept : list Event -> Call -> bool) (refusal : MfClassicError)
    (image : list MfClassicBlock) : Driver :=
  fun history c =>
    if accept history c then
      match c with
      | CallAuth _ _ _ =>
          {| reply_error := MfClassicErrorNone; reply_block := zero_block |}
      | CallReadBlock b _ _ =>
          {| reply_error := MfClassicErrorNone;
             reply_block := default zero_block (image !! Z.to_nat b) |}
      end
    else {| reply_error := refusal; reply_block := zero_block |}.

Definition call_key (c : Call) : KeyCandidate :=
  match c with
  | CallAuth _ k kt => (k, kt)
  | CallReadBlock _ k kt => (k, kt)
  end.

Definition accept_any : list Event -> Call -> bool := fun _ _ => true.
Definition accept_none : list Event -> Call -> bool := fun _ _ => false.

Definition accept_only (key : MfClassicKey) (key_type : MfClassicKeyType)
    : list Event -> Call -> bool :=
  fun _ c => bytes_eqb (fst (call_key c)) key && key_type_eqb (snd (call_key c)) key_type.

(** The dump's Key A opens the sector once: the first authentication of the
    exchange is granted, every later authentication with that key is
    refused.  Reads and the other keys are always served. *)
Definition accept_key_a_once : list Event -> Call -> bool :=
  fun history c =>
    match c with
    | CallAuth _ k _ =>
        if bytes_eqb k dump_key_a
        then (length (List.filter is_auth_call history) =? 0)%nat
        else true
    | CallReadBlock _ _ _ => true
    end.

(** ** Concrete runs *)

(** Sector 5 of the dump: Key A unknown, Key B known; the card only opens
    with the dump's Key B. *)
Definition sector5_world : World := world_of true (dump_1k 0 (2 ^ 5)) blank_target.
Definition sector5_card : Driver :=
  card (accept_only dump_key_b MfClassicKeyTypeB) MfClassicErrorAuth image_1k.

(** Sector 0 of the dump: Key A known; the card grants Key A once and the
    0xFF key always. *)
Definition sector0_world : World := world_of true (dump_1k 1 0) blank_target.
Definition sector0_card : Driver :=
  card accept_key_a_once MfClassicErrorAuth image_1k.

(** A card that holds the dump and opens with every key, and one that never
    answers. *)
Definition open_card : Driver := card accept_any MfClassicErrorAuth image_1k.
Definition silent_card : Driver := card accept_none MfClassicErrorTimeout image_1k.

Definition verify_world : World := world_of true (dump_1k 0 0) blank_target.
Definition invalid_world : World := world_of false (dump_1k 0 0) blank_target.

(** One pass through the scene: it is entered, the detection poller reports
    [poller_event], and the application delivers what the callback queued. *)
Definition run_verify
    (nfc : Driver) (reset : MfClassicData -> MfClassicData)
    (poller_event : MfClassicPollerEventType) (w : World) : World :=
  let w1 := snd (miband_nfc_scene_verify_on_enter reset w) in
  let w2 := snd (miband_verify_reader_callback reset poller_event w1) in
  snd (miband_nfc_app_custom_event_callback nfc reset w2).

(** A card that opens with every key but holds an empty image. *)
Definition stale_card : Driver := card accept_any MfClassicErrorAuth blank_image.

(** The scene after it was entered and the poller reported [poller_event]:
    the poller-done event is handled next. *)
Definition before_poller_done (poller_event : MfClassicPollerEventType) : World :=
  let w1 := snd (miband_nfc_scene_verify_on_enter reset_to_blank verify_world) in
  snd (miband_verify_reader_callback reset_to_blank poller_event w1).

Definition entered_world : World :=
  snd (miband_nfc_scene_verify_on_enter reset_to_blank verify_world).

(** Cards that grant every authentication and answer every read with a
    timeout, or with a protocol error. *)
Definition accept_auth_only : list Event -> Call -> bool :=
  fun _ c =>
    match c with
    | CallAuth _ _ _ => true
    | CallReadBlock _ _ _ => false
    end.

Definition timeout_reads_card : Driver :=
  card accept_auth_only MfClassicErrorTimeout image_1k.
Definition protocol_reads_card : Driver :=
  card accept_auth_only MfClassicErrorProtocol image_1k.

(** Sector 0 of the dump with Key A and Key B both known: the candidate
    list has its three entries. *)
Definition both_keys_world : World := world_of true (dump_1k 1 1) blank_target.

(** ** Vocabulary of the statements *)

(** [m] keeps the relation [R] between the world it starts in and the world
    it ends in. *)
Definition preserves {A} (R : World -> World -> Prop) (m : M A) : Prop :=
  forall w, R w (snd (m w)).

(** The trace only grows, and nothing of the application object but the
    target image changes. *)
Definition reader_frame (w w' : World) : Prop :=
  (exists evs, trace w' = trace w ++ evs)
  /\ is_valid_nfc_data (app w') = is_valid_nfc_data (app w)
  /\ mf_classic_data (app w') = mf_classic_data (app w)
  /\ poller (app w') = poller (app w)
  /\ scene_state (app w') = scene_state (app w)
  /\ custom_events w' = custom_events w.

Definition tracker_kept (w w' : World) : Prop :=
  verify_tracker w' = verify_tracker w.

Definition app_kept (w w' : World) : Prop :=
  app w' = app w.

Definition push_events (evs : list Event) (w : World) : World :=
  {| app := app w; verify_tracker := verify_tracker w;
     custom_events := custom_events w; trace := trace w ++ evs |}.

(** The calls one run of the retry loop may leave behind for the read [c],
    with the value of [block_read] it ends with: one attempt that did not
    time out; a timeout, the 50 ms pause and a second attempt that did not
    time out; or two timeouts, each followed by the pause, and a third
    attempt, whatever its reply. *)
Definition retry_outcome (c : Call) (evs : list Event) (block_read : bool) : Prop :=
  (exists e1, is_timeout e1 = false /\ block_read = is_none e1 /\
     evs = [EvNfc c e1])
  \/ (exists e2, is_timeout e2 = false /\ block_read = is_none e2 /\
     evs = [EvNfc c MfClassicErrorTimeout; EvDelay 50; EvNfc c e2])
  \/ (exists e3, block_read = is_none e3 /\
     evs = [EvNfc c MfClassicErrorTimeout; EvDelay 50;
            EvNfc c MfClassicErrorTimeout; EvDelay 50; EvNfc c e3]).


(** The block indices [i, i + 1, ..., i + count - 1]. *)
Fixpoint indices_from (i : Z) (count : nat) : list Z :=
  match count with
  | O => []
  | S count' => i :: indices_from (i + 1) count'
  end.

Definition block_indices (total_blocks : Z) : list Z :=
  indices_from 0 (Z.to_nat total_blocks).

(** The blocks the comparison leaves out: block 0 and the trailers. *)
Definition excluded_block (i : Z) : bool :=
  (i =? 0) || mf_classic_is_sector_trailer i.

Definition block_differs (a : MiBandNfcApp) (i : Z) : bool :=
  memcmp16_differs (get_block (mf_classic_data a) i) (get_block (target_data a) i).

Definition compared_blocks (total_blocks : Z) : list Z :=
  List.filter (fun i => negb (excluded_block i)) (block_indices total_blocks).

Definition mismatched_from (a : MiBandNfcApp) (i : Z) (count : nat) : list Z :=
  List.filter (fun i => negb (excluded_block i) && block_differs a i)
              (indices_from i count).

(** The blocks that are not left out and differ between dump and card. *)
Definition mismatched_blocks (a : MiBandNfcApp) (total_blocks : Z) : list Z :=
  mismatched_from a 0 (Z.to_nat total_blocks).

(** What the run leaves on the screen, read off the last calls of the
    trace. *)
Inductive Outcome :=
| OutcomeSuccess
| OutcomeDifferences
| OutcomeReadFailed
| OutcomeDetectionFailed.

Definition reported_outcome (tr : list Event) : option Outcome :=
  match rev tr with
  | EvSearchAndSwitch MiBandNfcSceneMainMenu :: EvDelay _
      :: EvSwitchView MiBandNfcViewIdScanner :: EvPopupIcon :: EvPopupText _
      :: EvPopupHeader _ :: EvPopupReset :: EvNotify sequence_success :: _ =>
      Some OutcomeSuccess
  | EvSwitchView MiBandNfcViewIdDialog :: EvDialogButtons _ _ :: EvDialogText _
      :: EvDialogHeader _ :: EvDialogReset :: EvNotify sequence_error :: _ =>
      Some OutcomeDifferences
  | EvSearchAndSwitch MiBandNfcSceneMainMenu :: EvDelay 3000 :: EvUi _
      :: EvNotify sequence_error :: _ =>
      Some OutcomeReadFailed
  | EvSearchAndSwitch MiBandNfcSceneMainMenu :: EvDelay 2000 :: EvUi _
      :: EvNotify sequence_error :: _ =>
      Some OutcomeDetectionFailed
  | _ => None
  end.

Definition in_uint32 (x : Z) : Prop := 0 <= x < 2 ^ 32.

(** Between [w] and [w'] the scene made the call [ev]. *)
Definition emitted (ev : Event) (w w' : World) : Prop :=
  exists pre post, trace w' = trace w ++ pre ++ ev :: post.

(** [ev] asks the card for block [b]. *)
Definition reads_block (b : Z) (ev : Event) : bool :=
  match ev with
  | EvNfc (CallReadBlock b' _ _) _ => b' =? b
  | _ => false
  end.

(** How often [evs] asks the card for block [b]. *)
Definition count_reads (b : Z) (evs : list Event) : nat :=
  length (List.filter (reads_block b) evs).

(** The calls of the block loop at block-in-sector position [q], for the
    key in use.  At a positive even position they start with one
    authentication against the first block of the sector: when it fails,
    the logger call follows and nothing else; when it succeeds, one run of
    the retry loop for block [first_block + q] follows.  At every other
    position they are that run of the retry loop and nothing else. *)
Definition position_calls
    (first_block : Z) (key : MfClassicKey) (key_type : MfClassicKeyType)
    (sector q : Z) (calls : list Event) : Prop :=
  let auth := CallAuth (wrap8 first_block) key key_type in
  let read := CallReadBlock (wrap8 (first_block + q)) key key_type in
  (0 < q /\ q mod 2 = 0
   /\ ((exists e, e <> MfClassicErrorNone /\ calls = [EvNfc auth e; EvLogger sector])
       \/ (exists body block_read,
             retry_outcome read body block_read
             /\ calls = EvNfc auth MfClassicErrorNone :: body)))
  \/ (~ (0 < q /\ q mod 2 = 0)
      /\ exists block_read, retry_outcome read calls block_read).

(** ** The progress display *)

(** Lines 115-118 of [update_verify_ui]: the percentage shown while
    [total_sectors > 0], in [uint32_t] arithmetic. *)
Definition progress_percent (t : VerifyTracker) : Z :=
  if reading_complete t then 100
  else wrap32 (current_sector t * 100) / total_sectors t.

Definition progress_cell (i progress_percent : Z) : string :=
  if i <? progress_percent / 5 then "="
  else if (i =? progress_percent / 5) && (progress_percent <? 100) then ">"
  else " ".

(** Lines 127-135: the cells of the bar, from cell [i] for [count] more
    cells; the display draws [progress_cells 20 0]. *)
Fixpoint progress_cells (count : nat) (i progress_percent : Z) : string :=
  match count with
  | O => ""
  | S count' =>
      progress_cell i progress_percent ++ progress_cells count' (i + 1) progress_percent
  end.

(** ** More vocabulary *)

Fixpoint cells (c : string) (n : nat) : string :=
  match n with
  | O => ""
  | S n' => c ++ cells c n'
  end.

(** What the scene called between [w] and [w']. *)
Definition new_events (w w' : World) : list Event :=
  skipn (length (trace w)) (trace w').

(** [d'] is [d] with, at most, blocks [lo .. hi - 1] overwritten and, when
    [marked], bit [sector] set in both key masks. *)
Definition sector_footprint
    (sector lo hi : Z) (marked : bool) (d d' : MfClassicData) : Prop :=
  type d' = type d
  /\ length (block d') = length (block d)
  /\ (forall i : nat, ~ (lo <= Z.of_nat i < hi) -> block d' !! i = block d !! i)
  /\ key_a_mask d' = (if marked then FURI_BIT_SET (key_a_mask d) sector else key_a_mask d)
  /\ key_b_mask d' = (if marked then FURI_BIT_SET (key_b_mask d) sector else key_b_mask d).

Definition strings_allocated (t : VerifyTracker) : Prop :=
  is_Some (current_operation t) /\ is_Some (last_result t) /\ is_Some (error_details t).

Definition strings_released (t : VerifyTracker) : Prop :=
  current_operation t = None /\ last_result t = None /\ error_details t = None.

Definition counters_reset (t : VerifyTracker) : Prop :=
  current_sector t = 0 /\ total_sectors t = 0 /\ sectors_read t = 0
  /\ sectors_failed t = 0 /\ auth_attempts t = 0 /\ auth_successes t = 0
  /\ blocks_compared t = 0 /\ blocks_different t = 0 /\ reading_complete t = false.

(** The fields of the tracker that only the bulk read and the comparison
    write are the same in [w] and [w']. *)
Definition run_counters_kept (w w' : World) : Prop :=
  current_sector (verify_tracker w') = current_sector (verify_tracker w)
  /\ total_sectors (verify_tracker w') = total_sectors (verify_tracker w)
  /\ sectors_read (verify_tracker w') = sectors_read (verify_tracker w)
  /\ sectors_failed (verify_tracker w') = sectors_failed (verify_tracker w)
  /\ blocks_compared (verify_tracker w') = blocks_compared (verify_tracker w)
  /\ blocks_different (verify_tracker w') = blocks_different (verify_tracker w)
  /\ reading_complete (verify_tracker w') = reading_complete (verify_tracker w).

Definition strings_stay_allocated (w w' : World) : Prop :=
  strings_allocated (verify_tracker w) -> strings_allocated (verify_tracker w').

(** The calls of a block loop that meets no error: for each position, the
    re-authentication where it is due, then one read. *)
Definition sector_calls
    (first : Z) (k : MfClassicKey) (kt : MfClassicKeyType) (p : Z) (count : nat)
    : list Event :=
  flat_map
    (fun q =>
       (if reauth_due q
        then [EvNfc (CallAuth (wrap8 first) k kt) MfClassicErrorNone] else [])
       ++ [EvNfc (CallReadBlock (wrap8 (first + q)) k kt) MfClassicErrorNone])
    (indices_from p count).

Definition event_key (ev : Event) : option KeyCandidate :=
  match ev with
  | EvNfc c _ => Some (call_key c)
  | _ => None
  end.

(** Between [w] and [w'] the scene asked for no block. *)
Definition no_read_calls (w w' : World) : Prop :=
  exists evs, trace w' = trace w ++ evs /\ List.filter is_read_call evs = [].

(** The first block of a sector, before the cut to [uint8_t]. *)
Definition sector_start (sector : Z) : Z :=
  if sector <? 32 then sector * 4 else 32 * 4 + (sector - 32) * 16.

(** Below block [hi], the target holds what the dump holds in every block
    that is neither block 0 nor a trailer. *)
Definition data_agrees (dump target : MfClassicData) (hi : Z) : Prop :=
  forall i, 0 < i < hi -> mf_classic_is_sector_trailer i = false ->
    get_block target i = get_block dump i.

(** ** What reaches the scene between its entry and its exit *)

Inductive SceneInput :=
| InputEvent (event : SceneManagerEvent)
| InputPoller (event_type : MfClassicPollerEventType)
| InputDialog (result : DialogExResult).

Section Inputs.
Variable nfc : Driver.
Variable mf_classic_reset : MfClassicData -> MfClassicData.

Definition scene_input (i : SceneInput) : M unit :=
  match i with
  | InputEvent event =>
      let* _ := miband_nfc_scene_verify_on_event nfc mf_classic_reset event in ret tt
  | InputPoller event_type =>
      let* _ := miband_verify_reader_callback mf_classic_reset event_type in ret tt
  | InputDialog result => verify_dialog_callback result
  end.

Fixpoint scene_inputs (inputs : list SceneInput) : M unit :=
  match inputs with
  | [] => ret tt
  | i :: inputs' => let* _ := scene_input i in scene_inputs inputs'
  end.
End Inputs.

(** The tracker a run starts with. *)
Definition started_tracker : VerifyTracker :=
  {| current_sector := 0; total_sectors := 0; sectors_read := 0; sectors_failed := 0;
     auth_attempts := 0; auth_successes := 0; blocks_compared := 0;
     blocks_different := 0;
     current_operation := Some "Place Mi Band near Flipper";
     last_result := Some ""; error_details := Some "";
     reading_complete := false |}.

(** The bar as it reads for a percentage [p]: one "=" per full five
    percent, at most twenty, then, below 100 percent, the head ">" and
    blanks up to twenty cells. *)
Definition bar_text (p : Z) : string :=
  cells "=" (Z.to_nat (Z.min 20 (p / 5)))
  ++ (if p <? 100 then ">" ++ cells " " (19 - Z.to_nat (p / 5)) else "").

(** A tracker in the middle of the read of a 1K card. *)
Definition midway_tracker : VerifyTracker :=
  {| current_sector := 5; total_sectors := 16; sectors_read := 5; sectors_failed := 0;
     auth_attempts := 5; auth_successes := 5; blocks_compared := 0;
     blocks_different := 0;
     current_operation := Some "Reading sector 5";
     last_result := Some "Sector 4 OK"; error_details := Some "";
     reading_complete := false |}.

(** ** Leaving the scene from the event handler *)

(** The calls by which the handler asks the scene manager for another
    scene. *)
Definition leaves_scene (ev : Event) : bool :=
  match ev with
  | EvSearchAndSwitch _ | EvNextScene _ | EvPreviousScene => true
  | _ => false
  end.

(** What the exit handler calls, with the poller [running] or not. *)
Definition exit_calls (running : bool) : list Event :=
  (if running then [EvPollerStop; EvPollerFree] else [])
  ++ [EvNotify sequence_blink_stop; EvPopupReset].

(** What the event handler itself calls on the events other than
    poller-done. *)
Definition handler_calls (event : SceneManagerEvent) : list Event :=
  match event with
  | SceneManagerEventTypeCustom MiBandNfcCustomEventCardDetected =>
      [EvUi "Card Detected"]
  | SceneManagerEventTypeCustom MiBandNfcCustomEventVerifyExit =>
      [EvSearchAndSwitch MiBandNfcSceneMainMenu]
  | SceneManagerEventTypeCustom MiBandNfcCustomEventVerifyViewDetails =>
      [EvNextScene MiBandNfcSceneDiffViewer]
  | SceneManagerEventTypeCustom MiBandNfcCustomEventPollerFailed =>
      [EvNotify sequence_error; EvUi "Detection Failed"; EvDelay 2000;
       EvSearchAndSwitch MiBandNfcSceneMainMenu]
  | SceneManagerEventTypeBack => [EvSearchAndSwitch MiBandNfcSceneMainMenu]
  | _ => []
  end.

Definition leaves_after (event : SceneManagerEvent) : bool :=
  existsb leaves_scene (handler_calls event).

Section SceneManager.
Variable nfc : Driver.
Variable mf_classic_reset : MfClassicData -> MfClassicData.

(** Modelled from the spec: the scene manager belongs to the firmware and
    is not part of this repository.  Section 3 has the session created on
    scene entry and destroyed on scene exit, and section 4.3 has every way
    out of the scene release the poller: when the handler asks for another
    scene, the scene manager runs the exit handler of this one.  Every
    branch of the handler that asks for another scene does so in its last
    call, so here the exit handler runs once the handler is through.  What
    the scene that takes over does is not part of this model. *)
Definition scene_manager_handle_event (event : SceneManagerEvent) : M bool :=
  fun w =>
    let r := miband_nfc_scene_verify_on_event nfc mf_classic_reset event w in
    if existsb leaves_scene (new_events w r.2)
    then (r.1, (miband_nfc_scene_verify_on_exit r.2).2)
    else r.

(** Modelled from the spec: the queued custom events are handed to the
    scene one by one, through the scene manager; once the scene was left,
    what is still queued is no longer its to handle. *)
Fixpoint scene_manager_deliver (queue : list MiBandNfcCustomEvent) : M unit :=
  match queue with
  | [] => ret tt
  | e :: queue' =>
      fun w =>
        let r := scene_manager_handle_event (SceneManagerEventTypeCustom e) w in
        if existsb leaves_scene (new_events w r.2) then (tt, r.2)
        else scene_manager_deliver queue' r.2
  end.

Definition scene_manager_handle_custom_events : M unit :=
  let* queue := take_custom_events in
  scene_manager_deliver queue.

End SceneManager.
(** * Properties *)

(** ** The monad *)

Lemma bind_eq {A B} (m : M A) (k : A -> M B) w :
  bind m k w = k (fst (m w)) (snd (m w)).
Proof. unfold bind. destruct (m w); reflexivity. Qed.

(** The calls made between [w] and [w'], once the trace of [w'] is known to
    extend that of [w]. *)
Lemma new_events_app w w' evs : trace w' = trace w ++ evs -> new_events w w' = evs.
Proof.
  intros H. unfold new_events. rewrite H. generalize (trace w) as l.
  induction l as [| e l IH]; [reflexivity | exact IH].
Qed.

(** ** The layout helpers agree with each other *)

(** On every block of a 4K card, the trailer test holds exactly for the last
    block of some sector. *)
Example trailer_is_last_block_of_a_sector :
  forallb (fun b =>
             Bool.eqb (mf_classic_is_sector_trailer b)
                      (existsb (fun s => b =? mf_classic_get_sector_trailer_num_by_sector s)
                               (indices_from 0 40)))
          (indices_from 0 256) = true.
Proof. vm_compute. reflexivity. Qed.

(** ** C1: the candidate list *)

Lemma keys_to_try_shape data sector sec_tr :
  keys_to_try data sector sec_tr =
    (if mf_classic_is_key_found data sector MfClassicKeyTypeA
     then [(key_a sec_tr, MfClassicKeyTypeA)] else [])
    ++ (if mf_classic_is_key_found data sector MfClassicKeyTypeB
        then [(key_b sec_tr, MfClassicKeyTypeB)] else [])
    ++ [(magic_key, MfClassicKeyTypeA)].
Proof.
  unfold keys_to_try.
  destruct (mf_classic_is_key_found data sector MfClassicKeyTypeA),
           (mf_classic_is_key_found data sector MfClassicKeyTypeB); reflexivity.
Qed.

(** C1. For every sector the candidate list is: the dump's Key A when the
    dump records it as known, then the dump's Key B when known, then the
    key of six 0xFF bytes with type A, which is always the last entry; the
    list has between one and three entries. *)
Theorem C1_keys_to_try_order data sector sec_tr :
  keys_to_try data sector sec_tr =
    (if mf_classic_is_key_found data sector MfClassicKeyTypeA
     then [(key_a sec_tr, MfClassicKeyTypeA)] else [])
    ++ (if mf_classic_is_key_found data sector MfClassicKeyTypeB
        then [(key_b sec_tr, MfClassicKeyTypeB)] else [])
    ++ [(magic_key, MfClassicKeyTypeA)]
  /\ magic_key = [xff; xff; xff; xff; xff; xff]
  /\ List.last (keys_to_try data sector sec_tr) (magic_key, MfClassicKeyTypeB)
       = (magic_key, MfClassicKeyTypeA)
  /\ (1 <= length (keys_to_try data sector sec_tr) <= 3)%nat.
Proof.
  rewrite keys_to_try_shape.
  destruct (mf_classic_is_key_found data sector MfClassicKeyTypeA),
           (mf_classic_is_key_found data sector MfClassicKeyTypeB);
    repeat split; simpl; lia.
Qed.

(** The candidates are presented to the card in the order of the list: on
    a card that refuses every authentication the reader's calls are the
    authentications of the candidates, one each, first to last. *)
Lemma try_keys_refused_in_order nfc err keys sector first n : forall w,
  err <> MfClassicErrorNone ->
  (forall history c, reply_error (nfc history c) = err) ->
  (try_keys nfc keys sector first n w).1 = false
  /\ trace (try_keys nfc keys sector first n w).2
     = trace w ++ map (fun kc => EvNfc (CallAuth (wrap8 first) kc.1 kc.2) err) keys.
Proof.
  intros w Herr Hrefuse. revert w.
  induction keys as [| [k kt] keys IH]; intros w.
  - cbn. now rewrite app_nil_r.
  - cbn [try_keys map]. rewrite !bind_eq.
    replace (mf_classic_poller_sync_auth nfc first k kt (incr_auth_attempts w).2).1
      with err by (cbn; now rewrite Hrefuse).
    destruct err; [congruence | ..]; cbn [is_none negb];
      destruct (IH (mf_classic_poller_sync_auth nfc first k kt
                      (incr_auth_attempts w).2).2) as [H1 H2];
      (split; [exact H1 |]); rewrite H2; cbn; rewrite Hrefuse, <- app_assoc;
      reflexivity.
Qed.

(** ** The frame of each routine *)

Section Preserves.
Context (R : World -> World -> Prop) {HR : PreOrder R}.

Lemma preserves_ret {A} (a : A) : preserves R (ret a).
Proof. intros w. simpl. reflexivity. Qed.

Lemma preserves_bind {A B} (m : M A) (k : A -> M B) :
  preserves R m -> (forall a, preserves R (k a)) -> preserves R (bind m k).
Proof.
  intros Hm Hk w. rewrite bind_eq.
  transitivity (snd (m w)); [apply Hm | apply Hk].
Qed.

Lemma preserves_when (b : bool) (m : M unit) :
  preserves R m -> preserves R (when b m).
Proof. intros Hm. destruct b; simpl; [exact Hm | apply preserves_ret]. Qed.
End Preserves.

#[local] Instance reader_frame_preorder : PreOrder reader_frame.
Proof.
  split.
  - intros w. unfold reader_frame. repeat split; try reflexivity.
    exists []. now rewrite app_nil_r.
  - intros w1 w2 w3 ([e1 H1] & A1 & B1 & C1 & D1 & E1) ([e2 H2] & A2 & B2 & C2 & D2 & E2).
    unfold reader_frame. repeat split; try congruence.
    exists (e1 ++ e2). rewrite H2, H1. now rewrite app_assoc.
Qed.

#[local] Instance tracker_kept_preorder : PreOrder tracker_kept.
Proof. split; unfold tracker_kept; [intros w | intros w1 w2 w3]; congruence. Qed.

#[local] Instance app_kept_preorder : PreOrder app_kept.
Proof. split; unfold app_kept; [intros w | intros w1 w2 w3]; congruence. Qed.

Create HintDb frame.

Lemma emit_reader_frame e : preserves reader_frame (emit e).
Proof. intros w. unfold reader_frame. simpl. repeat split. now exists [e]. Qed.

Lemma modify_tracker_reader_frame f : preserves reader_frame (modify_tracker f).
Proof.
  intros w. unfold reader_frame. simpl. repeat split.
  exists []. now rewrite app_nil_r.
Qed.

Lemma set_target_data_reader_frame f : preserves reader_frame (set_target_data f).
Proof.
  intros w. unfold reader_frame. simpl. repeat split.
  exists []. now rewrite app_nil_r.
Qed.

Lemma get_app_preserves R `{!PreOrder R} : preserves R get_app.
Proof. intros w. simpl. reflexivity. Qed.

Lemma get_tracker_preserves R `{!PreOrder R} : preserves R get_tracker.
Proof. intros w. simpl. reflexivity. Qed.

Lemma emit_tracker_kept e : preserves tracker_kept (emit e).
Proof. intros w. reflexivity. Qed.

Lemma modify_app_tracker_kept f : preserves tracker_kept (modify_app f).
Proof. intros w. reflexivity. Qed.

Lemma emit_app_kept e : preserves app_kept (emit e).
Proof. intros w. reflexivity. Qed.

Lemma modify_tracker_app_kept f : preserves app_kept (modify_tracker f).
Proof. intros w. reflexivity. Qed.

Lemma auth_reader_frame nfc b k kt :
  preserves reader_frame (mf_classic_poller_sync_auth nfc b k kt).
Proof.
  intros w. unfold mf_classic_poller_sync_auth, reader_frame. simpl.
  repeat split. eexists. reflexivity.
Qed.

Lemma auth_tracker_kept nfc b k kt :
  preserves tracker_kept (mf_classic_poller_sync_auth nfc b k kt).
Proof. intros w. reflexivity. Qed.

Lemma read_block_reader_frame nfc b k kt :
  preserves reader_frame (mf_classic_poller_sync_read_block nfc b k kt).
Proof.
  intros w. unfold mf_classic_poller_sync_read_block, reader_frame. simpl.
  destruct (is_none _); simpl; repeat split; eexists; reflexivity.
Qed.

Lemma read_block_tracker_kept nfc b k kt :
  preserves tracker_kept (mf_classic_poller_sync_read_block nfc b k kt).
Proof.
  intros w. unfold mf_classic_poller_sync_read_block, tracker_kept. simpl.
  destruct (is_none _); reflexivity.
Qed.

#[local] Hint Resolve emit_reader_frame modify_tracker_reader_frame
  set_target_data_reader_frame emit_tracker_kept modify_app_tracker_kept
  emit_app_kept modify_tracker_app_kept auth_reader_frame auth_tracker_kept
  read_block_reader_frame read_block_tracker_kept : frame.

Ltac unfold_setters :=
  unfold furi_delay_ms, update_verify_ui, set_current_operation, set_last_result,
    set_error_details, incr_auth_attempts, incr_auth_successes, incr_sectors_read,
    incr_sectors_failed, incr_blocks_compared, incr_blocks_different,
    set_current_sector, set_total_sectors, set_reading_complete.

Ltac close_preorder :=
  try match goal with |- PreOrder _ => typeclasses eauto end.

Ltac frame_step :=
  first
    [ apply preserves_ret; close_preorder
    | apply get_app_preserves; close_preorder
    | apply get_tracker_preserves; close_preorder
    | apply preserves_when; close_preorder
    | apply preserves_bind; close_preorder; [| intros ?]
    | solve [eauto with frame]
    | match goal with
      | |- preserves _ (if ?b then _ else _) => destruct b
      | |- preserves _ (match ?x with _ => _ end) => destruct x
      end ].

Ltac frame := unfold_setters; repeat frame_step.

Lemma read_block_retry_reader_frame nfc fuel : forall retry b k kt,
  preserves reader_frame (read_block_retry nfc fuel retry b k kt).
Proof. induction fuel as [| fuel IH]; intros; simpl; frame. Qed.

Lemma read_block_retry_tracker_kept nfc fuel : forall retry b k kt,
  preserves tracker_kept (read_block_retry nfc fuel retry b k kt).
Proof. induction fuel as [| fuel IH]; intros; simpl; frame. Qed.

#[local] Hint Resolve read_block_retry_reader_frame read_block_retry_tracker_kept : frame.

Lemma read_blocks_reader_frame nfc count : forall p sector first k kt,
  preserves reader_frame (read_blocks nfc count p sector first k kt).
Proof. induction count as [| count IH]; intros; simpl; frame. Qed.

Lemma read_blocks_tracker_kept nfc count : forall p sector first k kt,
  preserves tracker_kept (read_blocks nfc count p sector first k kt).
Proof. induction count as [| count IH]; intros; simpl; frame. Qed.

#[local] Hint Resolve read_blocks_reader_frame read_blocks_tracker_kept : frame.

Lemma try_keys_reader_frame nfc keys : forall sector first n,
  preserves reader_frame (try_keys nfc keys sector first n).
Proof. induction keys as [| [k kt] keys IH]; intros; simpl; frame. Qed.

#[local] Hint Resolve try_keys_reader_frame : frame.

Lemma read_sector_with_keys_reader_frame nfc sector first n :
  preserves reader_frame (read_sector_with_keys nfc sector first n).
Proof. unfold read_sector_with_keys. frame. Qed.

#[local] Hint Resolve read_sector_with_keys_reader_frame : frame.

Lemma read_sectors_reader_frame nfc count : forall sector ok,
  preserves reader_frame (read_sectors nfc count sector ok).
Proof. induction count as [| count IH]; intros; simpl; frame. Qed.

#[local] Hint Resolve read_sectors_reader_frame : frame.

Lemma miband_verify_read_card_reader_frame nfc reset :
  preserves reader_frame (miband_verify_read_card nfc reset).
Proof. unfold miband_verify_read_card. frame. Qed.

Lemma compare_blocks_reader_frame count : forall i total dm d,
  preserves reader_frame (compare_blocks count i total dm d).
Proof. induction count as [| count IH]; intros; simpl; frame. Qed.

Lemma compare_blocks_app_kept count : forall i total dm d,
  preserves app_kept (compare_blocks count i total dm d).
Proof. induction count as [| count IH]; intros; simpl; frame. Qed.

(** ** C5 and C6: the retry loop and the block loop *)

(** *** One run of the retry loop *)

Lemma read_block_trace nfc b k kt w :
  trace (snd (mf_classic_poller_sync_read_block nfc b k kt w)) =
    trace w ++ [EvNfc (CallReadBlock (wrap8 b) k kt)
                      (fst (mf_classic_poller_sync_read_block nfc b k kt w))].
Proof.
  unfold mf_classic_poller_sync_read_block. simpl.
  destruct (is_none _); reflexivity.
Qed.

Lemma timeout_not_none e : is_timeout e = true -> e = MfClassicErrorTimeout.
Proof. destruct e; simpl; congruence. Qed.

Lemma none_not_timeout e : is_none e = true -> is_timeout e = false.
Proof. destruct e; simpl; congruence. Qed.

(** One run of the retry loop leaves one of three call sequences behind:
    a read that did not time out; a timeout, the 50 ms pause and a read
    that did not time out; or two timeouts, each followed by the pause, and
    a third read. *)
Lemma read_block_retry_shape nfc block_idx key key_type w :
  exists evs,
    trace (snd (read_block_retry nfc 3 0 block_idx key key_type w)) = trace w ++ evs
    /\ retry_outcome (CallReadBlock (wrap8 block_idx) key key_type) evs
         (fst (read_block_retry nfc 3 0 block_idx key key_type w))
    /\ (1 <= length (List.filter is_read_call evs) <= 3)%nat.
Proof.
  set (c := CallReadBlock (wrap8 block_idx) key key_type).
  unfold read_block_retry.
  change (0 <? 3) with true. change (0 + 1 <? 3) with true.
  change (0 + 1 + 1 <? 3) with true. change (0 <? 0) with false.
  change (0 <? 0 + 1) with true. change (0 <? 0 + 1 + 1) with true.
  unfold when, furi_delay_ms.
  rewrite !bind_eq. cbn [ret fst snd].
  pose proof (read_block_trace nfc block_idx key key_type w) as H1.
  set (r1 := mf_classic_poller_sync_read_block nfc block_idx key key_type w) in *.
  fold c in H1.
  destruct (is_none r1.1) eqn:N1.
  { exists [EvNfc c r1.1]. cbn [fst snd ret]. split; [exact H1 |]. split; [| simpl; lia].
    left. exists r1.1. rewrite N1. auto using none_not_timeout. }
  destruct (is_timeout r1.1) eqn:T1; cbn [negb].
  2:{ exists [EvNfc c r1.1]. cbn [fst snd ret]. split; [exact H1 |]. split; [| simpl; lia].
      left. exists r1.1. rewrite N1. auto. }
  apply timeout_not_none in T1.
  rewrite !bind_eq. cbn [ret fst snd].
  set (w2 := (emit (EvDelay 50) r1.2).2) in *.
  pose proof (read_block_trace nfc block_idx key key_type w2) as H2.
  set (r2 := mf_classic_poller_sync_read_block nfc block_idx key key_type w2) in *.
  fold c in H2.
  assert (Hw2 : trace w2 = trace w ++ [EvNfc c MfClassicErrorTimeout; EvDelay 50]).
  { subst w2. unfold emit. cbn [snd trace]. rewrite H1, T1, <- app_assoc. reflexivity. }
  destruct (is_none r2.1) eqn:N2.
  { exists [EvNfc c MfClassicErrorTimeout; EvDelay 50; EvNfc c r2.1].
    cbn [fst snd ret]. split; [rewrite H2, Hw2, <- app_assoc; reflexivity |].
    split; [| simpl; lia].
    right; left. exists r2.1. rewrite N2. auto using none_not_timeout. }
  destruct (is_timeout r2.1) eqn:T2; cbn [negb].
  2:{ exists [EvNfc c MfClassicErrorTimeout; EvDelay 50; EvNfc c r2.1].
      cbn [fst snd ret]. split; [rewrite H2, Hw2, <- app_assoc; reflexivity |].
      split; [| simpl; lia].
      right; left. exists r2.1. rewrite N2. auto. }
  apply timeout_not_none in T2.
  rewrite !bind_eq. cbn [ret fst snd].
  set (w3 := (emit (EvDelay 50) r2.2).2) in *.
  pose proof (read_block_trace nfc block_idx key key_type w3) as H3.
  set (r3 := mf_classic_poller_sync_read_block nfc block_idx key key_type w3) in *.
  fold c in H3.
  assert (Hw3 : trace w3 = trace w ++ [EvNfc c MfClassicErrorTimeout; EvDelay 50;
                                       EvNfc c MfClassicErrorTimeout; EvDelay 50]).
  { subst w3. unfold emit. cbn [snd trace]. rewrite H2, Hw2, T2, <- !app_assoc. reflexivity. }
  exists [EvNfc c MfClassicErrorTimeout; EvDelay 50;
          EvNfc c MfClassicErrorTimeout; EvDelay 50; EvNfc c r3.1].
  split.
  { destruct (is_none r3.1); [| destruct (negb (is_timeout r3.1))];
      cbn [fst snd ret]; rewrite H3, Hw3, <- app_assoc; reflexivity. }
  split; [| simpl; lia].
  right; right. exists r3.1. split; [| reflexivity].
  destruct (is_none r3.1); [| destruct (negb (is_timeout r3.1))]; reflexivity.
Qed.

(** *** The steps of the block loop *)

Lemma frame_trace {A} (m : M A) w :
  preserves reader_frame m -> exists evs, trace (snd (m w)) = trace w ++ evs.
Proof. intros H. exact (proj1 (H w)). Qed.

Lemma auth_trace nfc b k kt w :
  trace (snd (mf_classic_poller_sync_auth nfc b k kt w)) =
    trace w ++ [EvNfc (CallAuth (wrap8 b) k kt)
                      (fst (mf_classic_poller_sync_auth nfc b k kt w))].
Proof. reflexivity. Qed.

Lemma reauth_due_spec p : reauth_due p = true <-> 0 < p /\ p mod 2 = 0.
Proof.
  unfold reauth_due. rewrite andb_true_iff, Z.ltb_lt, Z.eqb_eq. reflexivity.
Qed.

(** The loop over [c1 + c2] blocks is the loop over the first [c1]
    followed, when those were all read, by the loop over the other [c2]. *)
Lemma read_blocks_split nfc sector first k kt c2 : forall c1 p w,
  read_blocks nfc (c1 + c2) p sector first k kt w =
    (if (read_blocks nfc c1 p sector first k kt w).1
     then read_blocks nfc c2 (p + Z.of_nat c1) sector first k kt
            (read_blocks nfc c1 p sector first k kt w).2
     else (false, (read_blocks nfc c1 p sector first k kt w).2)).
Proof.
  induction c1 as [| c1 IH]; intros p w.
  - cbn [read_blocks Nat.add ret fst snd]. now rewrite Z.add_0_r.
  - cbn [read_blocks Nat.add]. rewrite !bind_eq.
    match goal with
    | |- context [(if reauth_due p then ?a else ?b) w] =>
        set (ra := (if reauth_due p then a else b) w)
    end.
    destruct ra.1; cbn [negb ret fst snd]; [| reflexivity].
    rewrite !bind_eq.
    set (rb := read_block_retry nfc 3 0 (first + p) k kt ra.2).
    destruct rb.1; cbn [negb ret fst snd]; [| reflexivity].
    rewrite IH. replace (p + 1 + Z.of_nat c1) with (p + Z.of_nat (S c1)) by lia.
    reflexivity.
Qed.

Lemma is_none_eq e : is_none e = true -> e = MfClassicErrorNone.
Proof. destruct e; simpl; congruence. Qed.

Lemma is_none_neq e : is_none e = false -> e <> MfClassicErrorNone.
Proof. destruct e; simpl; congruence. Qed.

(** *** Counting the reads of one block *)

Lemma count_reads_app b l1 l2 :
  count_reads b (l1 ++ l2) = (count_reads b l1 + count_reads b l2)%nat.
Proof. unfold count_reads. rewrite List.filter_app, length_app. reflexivity. Qed.

Lemma retry_outcome_reads b' k kt evs block_read b :
  retry_outcome (CallReadBlock b' k kt) evs block_read ->
  (count_reads b evs <= 3)%nat /\ (b' <> b -> count_reads b evs = 0%nat).
Proof.
  intros [(e & _ & _ & ->) | [(e & _ & _ & ->) | (e & _ & ->)]];
    unfold count_reads; cbn; destruct (b' =? b) eqn:E; cbn;
    (split; [lia |]); intros Hne; try reflexivity;
    apply Z.eqb_eq in E; contradiction.
Qed.

(** Fewer than 256 consecutive block numbers stay distinct after the cut
    to [uint8_t]. *)
Lemma wrap8_distinct first p q :
  p < q < p + 256 -> wrap8 (first + q) <> wrap8 (first + p).
Proof.
  unfold wrap8. change (2 ^ 8) with 256. intros H E.
  Z.div_mod_to_equations. lia.
Qed.

(** Under one candidate the block loop asks for each block at most three
    times, and only for the blocks of the positions it walks through. *)
Lemma read_blocks_reads nfc sector first k kt b : forall count p w,
  Z.of_nat count <= 256 ->
  exists evs,
    trace (read_blocks nfc count p sector first k kt w).2 = trace w ++ evs
    /\ (count_reads b evs <= 3)%nat
    /\ ((forall q, p <= q < p + Z.of_nat count -> wrap8 (first + q) <> b) ->
        count_reads b evs = 0%nat).
Proof.
  induction count as [| count IH]; intros p w Hcount.
  { exists []. cbn. rewrite app_nil_r. repeat split; lia. }
  cbn [read_blocks].
  assert (Hblock : forall w1,
    exists evs,
      trace ((let* block_read := read_block_retry nfc 3 0 (first + p) k kt in
              if negb block_read then ret false
              else read_blocks nfc count (p + 1) sector first k kt) w1).2 =
        trace w1 ++ evs
      /\ (count_reads b evs <= 3)%nat
      /\ ((forall q, p <= q < p + Z.of_nat (S count) -> wrap8 (first + q) <> b) ->
          count_reads b evs = 0%nat)).
  { intros w1. rewrite bind_eq.
    destruct (read_block_retry_shape nfc (first + p) k kt w1) as (evs_r & Htr & Hout & _).
    destruct (retry_outcome_reads _ _ _ _ _ b Hout) as [Hle Hzero].
    set (rb := read_block_retry nfc 3 0 (first + p) k kt w1) in *.
    destruct rb.1; cbn [negb ret fst snd].
    - destruct (IH (p + 1) rb.2 ltac:(lia)) as (evs' & Htr' & Hle' & Hzero').
      exists (evs_r ++ evs'). split; [rewrite Htr', Htr, app_assoc; reflexivity |].
      rewrite count_reads_app. split.
      + destruct (Z.eq_dec (wrap8 (first + p)) b) as [Heq | Hne].
        * rewrite Hzero'; [lia |]. intros q Hq. rewrite <- Heq.
          apply wrap8_distinct. lia.
        * rewrite (Hzero Hne). lia.
      + intros Hout_of_range. rewrite Hzero, Hzero'; [reflexivity | |].
        * intros q Hq. apply Hout_of_range. lia.
        * apply Hout_of_range. lia.
    - exists evs_r. split; [exact Htr |]. split; [exact Hle |].
      intros Hout_of_range. apply Hzero, Hout_of_range. lia. }
  rewrite bind_eq. destruct (reauth_due p).
  - rewrite bind_eq.
    pose proof (auth_trace nfc first k kt w) as Ha.
    set (ra := mf_classic_poller_sync_auth nfc first k kt w) in *.
    destruct (is_none ra.1); cbn [negb].
    + cbn [ret fst snd negb].
      destruct (Hblock ra.2) as (evs & Htr & Hle & Hzero).
      exists (EvNfc (CallAuth (wrap8 first) k kt) ra.1 :: evs).
      split; [rewrite Htr, Ha, <- app_assoc; reflexivity |].
      split; [exact Hle | exact Hzero].
    + rewrite bind_eq. cbn [ret fst snd negb].
      exists [EvNfc (CallAuth (wrap8 first) k kt) ra.1; EvLogger sector].
      split; [unfold emit; cbn [snd trace]; rewrite Ha, <- app_assoc; reflexivity |].
      split; [cbn; lia | reflexivity].
  - cbn [ret fst snd negb]. apply Hblock.
Qed.

Lemma keys_to_try_length data sector sec_tr :
  (1 <= length (keys_to_try data sector sec_tr) <= 3)%nat.
Proof.
  unfold keys_to_try.
  destruct (mf_classic_is_key_found data sector MfClassicKeyTypeA),
           (mf_classic_is_key_found data sector MfClassicKeyTypeB); cbn; lia.
Qed.

(** Over the candidates, a block is asked for at most three times per
    candidate. *)
Lemma try_keys_reads nfc sector first n b :
  n <= 256 -> forall keys w,
  exists evs,
    trace (try_keys nfc keys sector first n w).2 = trace w ++ evs
    /\ (count_reads b evs <= 3 * length keys)%nat.
Proof.
  intros Hn. induction keys as [| [k kt] rest IH]; intros w.
  { exists []. cbn. rewrite app_nil_r. split; [reflexivity | lia]. }
  cbn [try_keys]. rewrite !bind_eq.
  set (w0 := (incr_auth_attempts w).2).
  assert (Hw0 : trace w0 = trace w) by reflexivity.
  pose proof (auth_trace nfc first k kt w0) as Ha.
  set (ra := mf_classic_poller_sync_auth nfc first k kt w0) in *.
  destruct (is_none ra.1); cbn [negb].
  - rewrite !bind_eq.
    set (w1 := (incr_auth_successes ra.2).2).
    assert (Hw1 : trace w1 = trace ra.2) by reflexivity.
    destruct (read_blocks_reads nfc sector first k kt b (Z.to_nat n) 0 w1 ltac:(lia))
      as (evs_b & Htr & Hle & _).
    set (rb := read_blocks nfc (Z.to_nat n) 0 sector first k kt w1) in *.
    destruct rb.1.
    + rewrite !bind_eq.
      exists (EvNfc (CallAuth (wrap8 first) k kt) ra.1 :: evs_b ++ [EvDelay 10]).
      split.
      * unfold furi_delay_ms, emit, set_target_data, modify_app.
        cbn [ret fst snd trace]. rewrite Htr, Hw1, Ha, Hw0, <- !app_assoc. reflexivity.
      * change (count_reads b (EvNfc (CallAuth (wrap8 first) k kt) ra.1
                                 :: evs_b ++ [EvDelay 10]))
          with (count_reads b (evs_b ++ [EvDelay 10])).
        rewrite count_reads_app. cbn [length]. change (count_reads b [EvDelay 10]) with 0%nat.
        lia.
    + destruct (IH rb.2) as (evs & Htr' & Hle').
      exists (EvNfc (CallAuth (wrap8 first) k kt) ra.1 :: evs_b ++ evs).
      split; [rewrite Htr', Htr, Hw1, Ha, Hw0, <- !app_assoc; reflexivity |].
      change (count_reads b (EvNfc (CallAuth (wrap8 first) k kt) ra.1 :: evs_b ++ evs))
        with (count_reads b (evs_b ++ evs)).
      rewrite count_reads_app. cbn [length]. lia.
  - destruct (IH ra.2) as (evs & Htr' & Hle').
    exists (EvNfc (CallAuth (wrap8 first) k kt) ra.1 :: evs).
    split; [rewrite Htr', Ha, Hw0, <- !app_assoc; reflexivity |].
    change (count_reads b (EvNfc (CallAuth (wrap8 first) k kt) ra.1 :: evs))
      with (count_reads b evs).
    cbn [length]. lia.
Qed.

Lemma wrap8_range x : 0 <= wrap8 x < 256.
Proof. unfold wrap8. change (2 ^ 8) with 256. apply Z.mod_pos_bound. lia. Qed.


(** *** The calls of the block loop, position by position *)

Lemma read_blocks_segments nfc sector first k kt : forall count p w,
  exists segs : list (list Event),
    trace (read_blocks nfc count p sector first k kt w).2 = trace w ++ concat segs
    /\ (length segs <= count)%nat
    /\ ((read_blocks nfc count p sector first k kt w).1 = true -> length segs = count)
    /\ forall (j : nat) seg, segs !! j = Some seg ->
         position_calls first k kt sector (p + Z.of_nat j) seg.
Proof.
  induction count as [| count IH]; intros p w.
  { exists []. cbn. rewrite app_nil_r. repeat split; try lia.
    intros j seg H. rewrite lookup_nil in H. discriminate. }
  cbn [read_blocks].
  assert (Hblock : forall w1,
    exists body block_read (segs : list (list Event)),
      trace ((let* block_read := read_block_retry nfc 3 0 (first + p) k kt in
              if negb block_read then ret false
              else read_blocks nfc count (p + 1) sector first k kt) w1).2 =
        trace w1 ++ body ++ concat segs
      /\ retry_outcome (CallReadBlock (wrap8 (first + p)) k kt) body block_read
      /\ (length segs <= count)%nat
      /\ (((let* block_read := read_block_retry nfc 3 0 (first + p) k kt in
            if negb block_read then ret false
            else read_blocks nfc count (p + 1) sector first k kt) w1).1 = true ->
          length segs = count)
      /\ forall (j : nat) seg, segs !! j = Some seg ->
           position_calls first k kt sector (p + Z.of_nat (S j)) seg).
  { intros w1. rewrite bind_eq.
    destruct (read_block_retry_shape nfc (first + p) k kt w1) as (body & Htr & Hout & _).
    set (rb := read_block_retry nfc 3 0 (first + p) k kt w1) in *.
    exists body, rb.1.
    destruct rb.1; cbn [negb ret fst snd].
    - destruct (IH (p + 1) rb.2) as (segs & Htr' & Hlen & Hall & Hpos).
      exists segs. split; [rewrite Htr', Htr, app_assoc; reflexivity |].
      split; [exact Hout |]. split; [exact Hlen |]. split; [exact Hall |].
      intros j seg Hj. replace (p + Z.of_nat (S j)) with (p + 1 + Z.of_nat j) by lia.
      exact (Hpos j seg Hj).
    - exists []. split; [cbn [concat]; rewrite app_nil_r; exact Htr |].
      split; [exact Hout |]. split; [cbn; lia |]. split; [discriminate |].
      intros j seg H. rewrite lookup_nil in H. discriminate. }
  rewrite bind_eq. destruct (reauth_due p) eqn:Hdue.
  - apply reauth_due_spec in Hdue. destruct Hdue as [Hpos Heven].
    rewrite bind_eq.
    pose proof (auth_trace nfc first k kt w) as Ha.
    set (ra := mf_classic_poller_sync_auth nfc first k kt w) in *.
    destruct (is_none ra.1) eqn:Hnone; cbn [negb].
    + apply is_none_eq in Hnone. rewrite Hnone in Ha.
      cbn [ret fst snd negb].
      destruct (Hblock ra.2) as (body & block_read & segs & Htr & Hout & Hlen & Hall & Hrest).
      exists ((EvNfc (CallAuth (wrap8 first) k kt) MfClassicErrorNone :: body) :: segs).
      split; [rewrite Htr, Ha, <- app_assoc; reflexivity |].
      split; [cbn [length]; lia |].
      split; [intros Hres; cbn [length]; rewrite (Hall Hres); reflexivity |].
      intros [| j] seg Hj.
      * injection Hj as <-. rewrite Z.add_0_r. left.
        split; [exact Hpos |]. split; [exact Heven |]. right. eauto.
      * exact (Hrest j seg Hj).
    + apply is_none_neq in Hnone.
      rewrite bind_eq. cbn [ret fst snd negb].
      exists [[EvNfc (CallAuth (wrap8 first) k kt) ra.1; EvLogger sector]].
      split; [unfold emit; cbn [snd trace concat]; rewrite Ha, <- app_assoc; reflexivity |].
      split; [cbn [length]; lia |]. split; [discriminate |].
      intros [| j] seg Hj.
      * injection Hj as <-. rewrite Z.add_0_r. left.
        split; [exact Hpos |]. split; [exact Heven |]. left. eauto.
      * destruct j; discriminate Hj.
  - assert (Hnot : ~ (0 < p /\ p mod 2 = 0)).
    { intros H. apply reauth_due_spec in H. congruence. }
    cbn [ret fst snd negb].
    destruct (Hblock w) as (body & block_read & segs & Htr & Hout & Hlen & Hall & Hrest).
    exists (body :: segs).
    split; [exact Htr |].
    split; [cbn [length]; lia |].
    split; [intros Hres; cbn [length]; rewrite (Hall Hres); reflexivity |].
    intros [| j] seg Hj.
    + injection Hj as <-. rewrite Z.add_0_r. right. split; [exact Hnot |]. eauto.
    + exact (Hrest j seg Hj).
Qed.


(** ** C8: the key flags of a sector that was read *)

Lemma FURI_BIT_testbit x n : 0 <= n -> FURI_BIT x n = Z.testbit x n.
Proof.
  intros Hn. unfold FURI_BIT.
  change 1 with (Z.ones 1) at 1. rewrite Z.land_ones by lia.
  change (2 ^ 1) with 2. rewrite <- Z.bit0_mod, Z.shiftr_spec by lia.
  rewrite Z.add_0_l. destruct (Z.testbit x n); reflexivity.
Qed.

Lemma FURI_BIT_SET_found x n : 0 <= n < 64 -> FURI_BIT (FURI_BIT_SET x n) n = true.
Proof.
  intros Hn. rewrite FURI_BIT_testbit by lia. unfold FURI_BIT_SET, wrap64.
  rewrite Z.mod_pow2_bits_low by lia.
  rewrite Z.lor_spec, Z.shiftl_spec by lia.
  rewrite Z.sub_diag. apply orb_true_r.
Qed.

Lemma try_keys_true_sets_masks nfc keys sector first n : forall w w',
  0 <= sector < 64 ->
  try_keys nfc keys sector first n w = (true, w') ->
  mf_classic_is_key_found (target_data (app w')) sector MfClassicKeyTypeA = true
  /\ mf_classic_is_key_found (target_data (app w')) sector MfClassicKeyTypeB = true.
Proof.
  induction keys as [| [k kt] keys IH]; intros w w' Hs Hrun.
  - discriminate.
  - cbn [try_keys] in Hrun. rewrite !bind_eq in Hrun.
    destruct (is_none _) in Hrun; cbn [negb] in Hrun; [| eauto].
    rewrite !bind_eq in Hrun.
    destruct (fst (read_blocks _ _ _ _ _ _ _ _)) in Hrun; [| eauto].
    rewrite !bind_eq in Hrun. cbn [ret] in Hrun.
    injection Hrun as <-. cbn.
    split; apply FURI_BIT_SET_found; exact Hs.
Qed.

(** C8. Whenever the reader reports a sector as read, the freshly read image
    records both Key A and Key B of that sector as known, whichever
    candidate opened the sector. *)
Theorem C8_success_marks_both_keys nfc sector first_block blocks_in_sector w w' :
  0 <= sector < 64 ->
  read_sector_with_keys nfc sector first_block blocks_in_sector w = (true, w') ->
  mf_classic_is_key_found (target_data (app w')) sector MfClassicKeyTypeA = true
  /\ mf_classic_is_key_found (target_data (app w')) sector MfClassicKeyTypeB = true.
Proof.
  intros Hs Hrun. unfold read_sector_with_keys in Hrun.
  rewrite bind_eq in Hrun. cbn [get_app fst snd] in Hrun.
  destruct (mf_classic_get_sector_trailer_by_sector _ _) in Hrun; [| discriminate].
  eapply try_keys_true_sets_masks; eassumption.
Qed.

(** ** C9: Key A unknown, Key B opens the sector *)

Lemma auth_fst nfc b k kt w :
  (mf_classic_poller_sync_auth nfc b k kt w).1 =
    reply_error (nfc (trace w) (CallAuth (wrap8 b) k kt)).
Proof. reflexivity. Qed.

Lemma read_block_fst nfc b k kt w :
  (mf_classic_poller_sync_read_block nfc b k kt w).1 =
    reply_error (nfc (trace w) (CallReadBlock (wrap8 b) k kt)).
Proof. reflexivity. Qed.

Section KeyThatOpens.
Variables (nfc : Driver) (k : MfClassicKey) (kt : MfClassicKeyType).
Hypothesis auth_ok : forall history b,
  reply_error (nfc history (CallAuth b k kt)) = MfClassicErrorNone.
Hypothesis read_ok : forall history b,
  reply_error (nfc history (CallReadBlock b k kt)) = MfClassicErrorNone.

Lemma read_block_retry_first_try b w :
  (read_block_retry nfc 3 0 b k kt w).1 = true.
Proof.
  cbn [read_block_retry]. change (0 <? 3) with true. change (0 <? 0) with false.
  unfold when. rewrite !bind_eq. cbn [ret fst snd].
  rewrite read_block_fst, read_ok. reflexivity.
Qed.

Lemma read_blocks_all_read sector first count : forall p w,
  (read_blocks nfc count p sector first k kt w).1 = true.
Proof.
  induction count as [| count IH]; intros p w; [reflexivity |].
  cbn [read_blocks]. rewrite !bind_eq.
  destruct (reauth_due p).
  - rewrite !bind_eq, auth_fst, auth_ok. cbn [is_none negb ret fst snd].
    rewrite !bind_eq, read_block_retry_first_try. cbn [negb]. apply IH.
  - cbn [ret fst snd negb].
    rewrite !bind_eq, read_block_retry_first_try. cbn [negb]. apply IH.
Qed.
End KeyThatOpens.

Lemma kept_tracker {A} (m : M A) w :
  preserves tracker_kept m -> verify_tracker (m w).2 = verify_tracker w.
Proof. intros H. exact (H w). Qed.

(** C9 (amended). When the dump does not know Key A of a sector, knows its
    Key B, and the card serves every authentication and read made with that
    Key B, the reader counts exactly one authentication attempt and one
    success for the sector, and reports the sector as read: the unknown
    Key A is never presented, so nothing is counted for it. *)
Theorem C9_unknown_key_a_costs_no_attempt
    nfc sector first_block blocks_in_sector w sec_tr :
  mf_classic_get_sector_trailer_by_sector (mf_classic_data (app w)) sector
    = Some sec_tr ->
  mf_classic_is_key_found (mf_classic_data (app w)) sector MfClassicKeyTypeA = false ->
  mf_classic_is_key_found (mf_classic_data (app w)) sector MfClassicKeyTypeB = true ->
  (forall history b,
     reply_error (nfc history (CallAuth b (key_b sec_tr) MfClassicKeyTypeB))
       = MfClassicErrorNone) ->
  (forall history b,
     reply_error (nfc history (CallReadBlock b (key_b sec_tr) MfClassicKeyTypeB))
       = MfClassicErrorNone) ->
  let r := read_sector_with_keys nfc sector first_block blocks_in_sector w in
  r.1 = true
  /\ auth_attempts (verify_tracker r.2) = wrap32 (auth_attempts (verify_tracker w) + 1)
  /\ auth_successes (verify_tracker r.2)
       = wrap32 (auth_successes (verify_tracker w) + 1).
Proof.
  intros Htr HA HB Hauth Hread r. subst r.
  unfold read_sector_with_keys. rewrite bind_eq. cbn [get_app fst snd].
  rewrite Htr, keys_to_try_shape, HA, HB. cbn [List.app try_keys].
  rewrite !bind_eq, auth_fst, Hauth. cbn [is_none negb].
  rewrite !bind_eq, read_blocks_all_read by assumption.
  rewrite !bind_eq. cbn [ret fst snd].
  split; [reflexivity |].
  unfold furi_delay_ms, set_target_data.
  rewrite !(kept_tracker (emit _)), !(kept_tracker (modify_app _)) by auto with frame.
  rewrite !(kept_tracker (read_blocks _ _ _ _ _ _ _)) by auto with frame.
  cbn. auto.
Qed.

Lemma C9_counterexample :
  let w := sector5_world in
  let r := read_sector_with_keys sector5_card 5
             (mf_classic_get_first_block_num_of_sector 5)
             (mf_classic_get_blocks_num_in_sector 5) w in
  mf_classic_is_key_found (mf_classic_data (app w)) 5 MfClassicKeyTypeA = false
  /\ mf_classic_is_key_found (mf_classic_data (app w)) 5 MfClassicKeyTypeB = true
  /\ r.1 = true
  /\ auth_attempts (verify_tracker w) = 0
  /\ auth_attempts (verify_tracker r.2) = 1
  /\ ~ (auth_attempts (verify_tracker w) + 2 <= auth_attempts (verify_tracker r.2)).
Proof. vm_compute. repeat split; try reflexivity. intros H. apply H. reflexivity. Qed.

Lemma C9_witness :
  let r := read_sector_with_keys sector5_card 5 20 4 sector5_world in
  r.1 = true
  /\ auth_attempts (verify_tracker r.2)
       = wrap32 (auth_attempts (verify_tracker sector5_world) + 1)
  /\ auth_successes (verify_tracker r.2)
       = wrap32 (auth_successes (verify_tracker sector5_world) + 1).
Proof.
  apply (C9_unknown_key_a_costs_no_attempt sector5_card 5 20 4 sector5_world
           (trailer_of_block dump_trailer)).
  - reflexivity.
  - reflexivity.
  - reflexivity.
  - intros history b. reflexivity.
  - intros history b. reflexivity.
Defined.


(** On a card that opens with every key, the loop over six positions
    authenticates before the blocks at positions 2 and 4 and nowhere
    else. *)
Example reauth_on_open_card :
  new_events verify_world
    (read_blocks open_card 6 0 0 0 magic_key MfClassicKeyTypeA verify_world).2
  = [ EvNfc (CallReadBlock 0 magic_key MfClassicKeyTypeA) MfClassicErrorNone;
      EvNfc (CallReadBlock 1 magic_key MfClassicKeyTypeA) MfClassicErrorNone;
      EvNfc (CallAuth 0 magic_key MfClassicKeyTypeA) MfClassicErrorNone;
      EvNfc (CallReadBlock 2 magic_key MfClassicKeyTypeA) MfClassicErrorNone;
      EvNfc (CallReadBlock 3 magic_key MfClassicKeyTypeA) MfClassicErrorNone;
      EvNfc (CallAuth 0 magic_key MfClassicKeyTypeA) MfClassicErrorNone;
      EvNfc (CallReadBlock 4 magic_key MfClassicKeyTypeA) MfClassicErrorNone;
      EvNfc (CallReadBlock 5 magic_key MfClassicKeyTypeA) MfClassicErrorNone ].
Proof. vm_compute. reflexivity. Qed.


Lemma C8_witness :
  let w' := (read_sector_with_keys open_card 0 0 4 verify_world).2 in
  mf_classic_is_key_found (target_data (app w')) 0 MfClassicKeyTypeA = true
  /\ mf_classic_is_key_found (target_data (app w')) 0 MfClassicKeyTypeB = true.
Proof.
  intros w'.
  apply (C8_success_marks_both_keys open_card 0 0 4 verify_world w').
  - lia.
  - vm_compute. reflexivity.
Defined.

(** ** C2: a re-authentication that fails *)

Lemma read_blocks_reauth_fails nfc c p sector first k kt w :
  reauth_due p = true ->
  reply_error (nfc (trace w) (CallAuth (wrap8 first) k kt)) <> MfClassicErrorNone ->
  read_blocks nfc (S c) p sector first k kt w =
    (false,
     push_events
       [EvNfc (CallAuth (wrap8 first) k kt)
              (reply_error (nfc (trace w) (CallAuth (wrap8 first) k kt)));
        EvLogger sector] w).
Proof.
  intros Hdue Hfail. cbn [read_blocks]. rewrite Hdue, !bind_eq, auth_fst.
  destruct (reply_error _) eqn:E; [congruence | ..];
    cbn [is_none negb]; rewrite !bind_eq; cbn [ret fst snd];
    cbn [negb]; unfold push_events, mf_classic_poller_sync_auth; unfold emit;
    cbn [fst snd app verify_tracker custom_events trace];
    rewrite E, <- app_assoc; reflexivity.
Qed.

Lemma try_keys_head nfc k kt rest sector first n w :
  exists e more,
    trace (try_keys nfc ((k, kt) :: rest) sector first n w).2 =
      trace w ++ EvNfc (CallAuth (wrap8 first) k kt) e :: more.
Proof.
  cbn [try_keys]. rewrite !bind_eq.
  pose proof (auth_trace nfc first k kt (incr_auth_attempts w).2) as Ha.
  set (ra := mf_classic_poller_sync_auth nfc first k kt (incr_auth_attempts w).2) in *.
  match goal with
  | |- context [?m ra.2] =>
      assert (Hm : preserves reader_frame m) by (subst ra; frame);
      destruct (frame_trace m ra.2 Hm) as [evs Hevs]
  end.
  exists ra.1, evs. rewrite Hevs, Ha, <- app_assoc. reflexivity.
Qed.

(** C2 (amended). When a candidate has opened the sector and the
    re-authentication before block-in-sector position [b] fails, only that
    candidate is given up: the reader carries on with the candidates that
    are left, so its next call is the authentication of the next candidate
    against the first block of the sector, and the sector is reported as
    failed only when no candidate is left or none of them reads it. *)
Theorem C2_reauth_failure_moves_to_next_key
    nfc sector first_block blocks_in_sector key key_type rest w (b : nat) wb :
  let auth := CallAuth (wrap8 first_block) key key_type in
  reply_error (nfc (trace w) auth) = MfClassicErrorNone ->
  let w1 := (incr_auth_successes
               (mf_classic_poller_sync_auth nfc first_block key key_type
                  (incr_auth_attempts w).2).2).2 in
  (b < Z.to_nat blocks_in_sector)%nat ->
  reauth_due (Z.of_nat b) = true ->
  read_blocks nfc b 0 sector first_block key key_type w1 = (true, wb) ->
  reply_error (nfc (trace wb) auth) <> MfClassicErrorNone ->
  let failed := [EvNfc auth (reply_error (nfc (trace wb) auth)); EvLogger sector] in
  let r := try_keys nfc ((key, key_type) :: rest) sector first_block blocks_in_sector w in
  r = try_keys nfc rest sector first_block blocks_in_sector (push_events failed wb)
  /\ (rest = [] -> r.1 = false)
  /\ (forall key' key_type' rest', rest = (key', key_type') :: rest' ->
      exists e more,
        trace r.2 = trace wb ++ failed
                      ++ EvNfc (CallAuth (wrap8 first_block) key' key_type') e :: more).
Proof.
  intros auth Hfirst w1 Hlt Hdue Hreach Hfail failed r.
  assert (Hr : r = try_keys nfc rest sector first_block blocks_in_sector
                     (push_events failed wb)).
  { subst r. cbn [try_keys]. rewrite !bind_eq, auth_fst.
    replace (trace (incr_auth_attempts w).2) with (trace w) by reflexivity.
    fold auth. rewrite Hfirst. cbn [is_none negb]. rewrite !bind_eq. fold w1.
    replace (Z.to_nat blocks_in_sector)
      with (b + S (Z.to_nat blocks_in_sector - b - 1))%nat by lia.
    rewrite read_blocks_split, Hreach. cbn [fst snd]. rewrite Z.add_0_l.
    rewrite read_blocks_reauth_fails by assumption. cbn [fst snd]. reflexivity. }
  split; [exact Hr |]. split.
  - intros ->. rewrite Hr. reflexivity.
  - intros key' key_type' rest' ->. rewrite Hr.
    destruct (try_keys_head nfc key' key_type' rest' sector first_block
                blocks_in_sector (push_events failed wb)) as (e & more & Htr).
    exists e, more. rewrite Htr. unfold push_events. cbn [trace].
    rewrite <- app_assoc. reflexivity.
Qed.

Lemma C2_counterexample :
  let r := read_sector_with_keys sector0_card 0 0 4 sector0_world in
  r.1 = true
  /\ trace r.2 =
       [EvNfc (CallAuth 0 dump_key_a MfClassicKeyTypeA) MfClassicErrorNone;
        EvNfc (CallReadBlock 0 dump_key_a MfClassicKeyTypeA) MfClassicErrorNone;
        EvNfc (CallReadBlock 1 dump_key_a MfClassicKeyTypeA) MfClassicErrorNone;
        EvNfc (CallAuth 0 dump_key_a MfClassicKeyTypeA) MfClassicErrorAuth;
        EvLogger 0;
        EvNfc (CallAuth 0 magic_key MfClassicKeyTypeA) MfClassicErrorNone;
        EvNfc (CallReadBlock 0 magic_key MfClassicKeyTypeA) MfClassicErrorNone;
        EvNfc (CallReadBlock 1 magic_key MfClassicKeyTypeA) MfClassicErrorNone;
        EvNfc (CallAuth 0 magic_key MfClassicKeyTypeA) MfClassicErrorNone;
        EvNfc (CallReadBlock 2 magic_key MfClassicKeyTypeA) MfClassicErrorNone;
        EvNfc (CallReadBlock 3 magic_key MfClassicKeyTypeA) MfClassicErrorNone;
        EvDelay 10].
Proof. vm_compute. split; reflexivity. Qed.

(** ** C3 and C7: the comparison *)

Lemma wrap32_add_l a k : wrap32 (wrap32 (a + 1) + k) = wrap32 (a + (1 + k)).
Proof.
  unfold wrap32. rewrite Z.add_mod_idemp_l by lia. f_equal. lia.
Qed.

Lemma wrap32_in_uint32 a : in_uint32 (wrap32 a).
Proof. unfold in_uint32, wrap32. apply Z.mod_pos_bound. lia. Qed.

Lemma wrap32_small a : in_uint32 a -> wrap32 a = a.
Proof. unfold in_uint32, wrap32. intros H. apply Z.mod_small. exact H. Qed.

Lemma kept_app {A} (m : M A) w :
  preserves app_kept m -> app (m w).2 = app w.
Proof. intros H. exact (H w). Qed.

Lemma mismatched_from_step a i count :
  mismatched_from a i (S count) =
    (if negb (excluded_block i) && block_differs a i then [i] else [])
    ++ mismatched_from a (i + 1) count.
Proof.
  unfold mismatched_from. cbn [indices_from List.filter].
  destruct (negb (excluded_block i) && block_differs a i); reflexivity.
Qed.

(** The comparison loop from block [i] on: what it returns and what it
    leaves in the two counters of the tracker. *)
Lemma compare_blocks_counts count : forall i total dm d w,
  in_uint32 (blocks_compared (verify_tracker w)) ->
  in_uint32 (blocks_different (verify_tracker w)) ->
  let r := compare_blocks count i total dm d w in
  let k := Z.of_nat (length (mismatched_from (app w) i count)) in
  r.1 = (dm && (k =? 0), d + k)
  /\ blocks_compared (verify_tracker r.2)
       = wrap32 (blocks_compared (verify_tracker w) + Z.of_nat count)
  /\ blocks_different (verify_tracker r.2)
       = wrap32 (blocks_different (verify_tracker w) + k).
Proof.
  induction count as [| count IH]; intros i total dm d w Hbc Hbd r k.
  - subst r k. cbn. rewrite andb_true_r, !Z.add_0_r, !wrap32_small by assumption. auto.
  - subst r k. rewrite mismatched_from_step. cbn [compare_blocks].
    rewrite !bind_eq.
    set (w1 := (when (i mod 16 =? 0) _ (incr_blocks_compared w).2).2).
    assert (Happ : app w1 = app w) by (subst w1; destruct (i mod 16 =? 0); reflexivity).
    assert (Hc1 : blocks_compared (verify_tracker w1)
                  = wrap32 (blocks_compared (verify_tracker w) + 1))
      by (subst w1; destruct (i mod 16 =? 0); reflexivity).
    assert (Hd1 : blocks_different (verify_tracker w1)
                  = blocks_different (verify_tracker w))
      by (subst w1; destruct (i mod 16 =? 0); reflexivity).
    assert (Hskip : forall dm' d',
      let r := compare_blocks count (i + 1) total dm' d' w1 in
      let k := Z.of_nat (length (mismatched_from (app w) (i + 1) count)) in
      r.1 = (dm' && (k =? 0), d' + k)
      /\ blocks_compared (verify_tracker r.2)
           = wrap32 (blocks_compared (verify_tracker w) + Z.of_nat (S count))
      /\ blocks_different (verify_tracker r.2)
           = wrap32 (blocks_different (verify_tracker w) + k)).
    { intros dm' d'.
      destruct (IH (i + 1) total dm' d' w1) as (H1 & H2 & H3).
      - rewrite Hc1. apply wrap32_in_uint32.
      - rewrite Hd1. exact Hbd.
      - rewrite Happ in H1, H3. rewrite Hc1, wrap32_add_l in H2. rewrite Hd1 in H3.
        cbv zeta. rewrite H1, H2, H3. repeat split. f_equal. lia. }
    unfold excluded_block.
    destruct (i =? 0); cbn [orb negb andb List.app]; [apply Hskip |].
    destruct (mf_classic_is_sector_trailer i); cbn [negb andb List.app]; [apply Hskip |].
    rewrite bind_eq. cbn [get_app fst snd]. unfold block_differs.
    rewrite Happ.
    destruct (memcmp16_differs _ _); cbn [List.app]; [| apply Hskip].
    rewrite bind_eq.
    set (w2 := (incr_blocks_different w1).2).
    destruct (IH (i + 1) total false (d + 1) w2) as (H1 & H2 & H3).
    + subst w2. cbn. rewrite Hc1. apply wrap32_in_uint32.
    + subst w2. cbn. apply wrap32_in_uint32.
    + replace (app w2) with (app w) in H1, H3 by (subst w2; cbn; congruence).
      replace (blocks_compared (verify_tracker w2))
        with (wrap32 (blocks_compared (verify_tracker w) + 1)) in H2
        by (subst w2; cbn; congruence).
      replace (blocks_different (verify_tracker w2))
        with (wrap32 (blocks_different (verify_tracker w) + 1)) in H3
        by (subst w2; cbn; congruence).
      rewrite wrap32_add_l in H2, H3.
      rewrite H1, H2, H3. cbn [length].
      repeat split.
      * f_equal; [| lia]. rewrite andb_false_l. symmetry.
        rewrite andb_false_iff. right. apply Z.eqb_neq. lia.
      * f_equal. lia.
      * f_equal. lia.
Qed.

Lemma in_indices_from count : forall i s, In i (indices_from s count) <-> s <= i < s + Z.of_nat count.
Proof.
  induction count as [| count IH]; intros i s; cbn [indices_from In].
  - lia.
  - rewrite IH. lia.
Qed.

(** C3 (amended). After the comparison loop, [blocks_compared] has grown by
    the number of all block indices of the card, block 0 and the sector
    trailers included: it counts the blocks the loop went through.  The
    mismatch accounting leaves block 0 and the trailers out:
    [blocks_different] and the loop's own count grow by the number of
    blocks that are neither block 0 nor a trailer and differ from the dump. *)
Theorem C3_comparison_counters w total_blocks :
  0 <= total_blocks ->
  in_uint32 (blocks_compared (verify_tracker w)) ->
  in_uint32 (blocks_different (verify_tracker w)) ->
  let r := compare_blocks (Z.to_nat total_blocks) 0 total_blocks true 0 w in
  let mismatched := mismatched_blocks (app w) total_blocks in
  blocks_compared (verify_tracker r.2)
    = wrap32 (blocks_compared (verify_tracker w) + total_blocks)
  /\ blocks_different (verify_tracker r.2)
       = wrap32 (blocks_different (verify_tracker w) + Z.of_nat (length mismatched))
  /\ r.1.2 = Z.of_nat (length mismatched)
  /\ (forall i, In i mismatched <->
        (0 < i < total_blocks /\ mf_classic_is_sector_trailer i = false
         /\ block_differs (app w) i = true)).
Proof.
  intros Htotal Hbc Hbd r mismatched.
  destruct (compare_blocks_counts (Z.to_nat total_blocks) 0 total_blocks true 0 w Hbc Hbd)
    as (H1 & H2 & H3).
  fold r in H1, H2, H3. rewrite Z2Nat.id in H2 by exact Htotal.
  split; [exact H2 |]. split; [exact H3 |]. split; [rewrite H1; reflexivity |].
  intros i. unfold mismatched, mismatched_blocks, mismatched_from.
  rewrite filter_In, in_indices_from, andb_true_iff, negb_true_iff.
  unfold excluded_block. rewrite orb_false_iff, Z.eqb_neq, Z2Nat.id by exact Htotal.
  intuition lia.
Qed.

Lemma C3_witness :
  let r := compare_blocks (Z.to_nat 64) 0 64 true 0 verify_world in
  let mismatched := mismatched_blocks (app verify_world) 64 in
  blocks_compared (verify_tracker r.2)
    = wrap32 (blocks_compared (verify_tracker verify_world) + 64)
  /\ blocks_different (verify_tracker r.2)
       = wrap32 (blocks_different (verify_tracker verify_world)
                 + Z.of_nat (length mismatched))
  /\ r.1.2 = Z.of_nat (length mismatched)
  /\ (forall i, In i mismatched <->
        (0 < i < 64 /\ mf_classic_is_sector_trailer i = false
         /\ block_differs (app verify_world) i = true)).
Proof.
  apply (C3_comparison_counters verify_world 64).
  - lia.
  - vm_compute. split; [discriminate | reflexivity].
  - vm_compute. split; [discriminate | reflexivity].
Defined.

Lemma C3_counterexample :
  let final := run_verify open_card reset_to_blank MfClassicPollerEventTypeSuccess
                 verify_world in
  mf_classic_get_total_block_num (type (mf_classic_data (app final))) = 64
  /\ length (compared_blocks 64) = 47%nat
  /\ excluded_block 0 = true
  /\ excluded_block 3 = true
  /\ blocks_compared (verify_tracker final) = 64
  /\ blocks_compared (verify_tracker final) <> Z.of_nat (length (compared_blocks 64)).
Proof. vm_compute. repeat split; try reflexivity. discriminate. Qed.

(** The verdict of the comparison loop does not depend on the counters. *)
Lemma compare_blocks_verdict count : forall i total dm d w,
  let k := Z.of_nat (length (mismatched_from (app w) i count)) in
  (compare_blocks count i total dm d w).1 = (dm && (k =? 0), d + k).
Proof.
  induction count as [| count IH]; intros i total dm d w k.
  - subst k. cbn. now rewrite andb_true_r, Z.add_0_r.
  - subst k. rewrite mismatched_from_step. cbn [compare_blocks].
    rewrite !bind_eq.
    set (w1 := (when (i mod 16 =? 0) _ (incr_blocks_compared w).2).2).
    assert (Happ : app w1 = app w) by (subst w1; destruct (i mod 16 =? 0); reflexivity).
    unfold excluded_block.
    destruct (i =? 0); cbn [orb negb andb List.app]; [rewrite IH, Happ; reflexivity |].
    destruct (mf_classic_is_sector_trailer i); cbn [negb andb List.app];
      [rewrite IH, Happ; reflexivity |].
    rewrite bind_eq. cbn [get_app fst snd]. unfold block_differs. rewrite Happ.
    destruct (memcmp16_differs _ _); cbn [List.app]; [| rewrite IH, Happ; reflexivity].
    rewrite bind_eq, IH.
    replace (app (incr_blocks_different w1).2) with (app w) by (cbn; congruence).
    cbn [length]. f_equal; [| lia].
    rewrite andb_false_l. symmetry. rewrite andb_false_iff. right. apply Z.eqb_neq. lia.
Qed.

Lemma show_success_outcome w :
  reported_outcome (trace (show_success w).2) = Some OutcomeSuccess.
Proof.
  unfold show_success, furi_delay_ms. rewrite !bind_eq. unfold emit. cbn [fst snd trace].
  unfold reported_outcome. rewrite !rev_unit. reflexivity.
Qed.

Lemma show_differences_outcome n w :
  reported_outcome (trace (show_differences n w).2) = Some OutcomeDifferences.
Proof.
  unfold show_differences. rewrite !bind_eq. unfold emit. cbn [fst snd trace].
  unfold reported_outcome. rewrite !rev_unit. reflexivity.
Qed.

(** C7. When the bulk read has succeeded, the run ends on the success
    screen if and only if no compared block differs from the dump; with one
    differing block or more it ends on the choice dialog ("Differences
    Found"), never on the read-failure screen. *)
Theorem C7_success_iff_no_mismatch nfc reset w wr :
  let w0 := (scene_manager_set_scene_state MiBandNfcSceneVerifyStateComparison
               (release_poller w).2).2 in
  miband_verify_read_card nfc reset w0 = (true, wr) ->
  let final := (miband_nfc_scene_verify_on_event nfc reset
                  (SceneManagerEventTypeCustom MiBandNfcCustomEventPollerDone) w).2 in
  let mismatched :=
    mismatched_blocks (app wr)
      (mf_classic_get_total_block_num (type (mf_classic_data (app wr)))) in
  (reported_outcome (trace final) = Some OutcomeSuccess <-> length mismatched = 0%nat)
  /\ (reported_outcome (trace final) = Some OutcomeDifferences
      <-> (0 < length mismatched)%nat)
  /\ reported_outcome (trace final) <> Some OutcomeReadFailed.
Proof.
  intros w0 Hread final mismatched. subst final.
  cbn [miband_nfc_scene_verify_on_event]. rewrite !bind_eq. fold w0.
  rewrite Hread. cbn [negb fst snd]. rewrite !bind_eq. cbn [get_app fst snd].
  set (wc := (furi_delay_ms 500 _).2).
  assert (Happ : app wc = app wr) by reflexivity.
  rewrite Happ.
  set (total := mf_classic_get_total_block_num (type (mf_classic_data (app wr)))) in *.
  pose proof (compare_blocks_verdict (Z.to_nat total) 0 total true 0 wc) as Hv.
  cbv zeta in Hv. rewrite Happ in Hv. fold (mismatched_blocks (app wr) total) in Hv.
  fold mismatched in Hv.
  destruct (compare_blocks (Z.to_nat total) 0 total true 0 wc) as [[dm d] wcmp].
  cbn [fst snd] in Hv |- *. injection Hv as -> ->.
  rewrite bind_eq. cbn [ret fst snd andb]. rewrite Z.add_0_l, andb_diag.
  destruct (length mismatched) as [| n].
  - cbn [Z.of_nat Z.eqb]. rewrite show_success_outcome.
    repeat split; try congruence; lia.
  - replace (Z.of_nat (S n) =? 0) with false by (symmetry; apply Z.eqb_neq; lia).
    rewrite show_differences_outcome.
    repeat split; try congruence; lia.
Qed.

(** ** C4: the poller reports a failure *)

Lemma emitted_after ev w w1 w2 :
  reader_frame w w1 -> emitted ev w1 w2 -> emitted ev w w2.
Proof.
  intros ([evs H1] & _) (pre & post & H2).
  exists (evs ++ pre), post. rewrite H2, H1, <- !app_assoc. reflexivity.
Qed.

Lemma emitted_before ev w w1 w2 :
  emitted ev w w1 -> reader_frame w1 w2 -> emitted ev w w2.
Proof.
  intros (pre & post & H1) ([evs H2] & _).
  exists pre, (post ++ evs). rewrite H2, H1, <- !app_assoc. reflexivity.
Qed.

Lemma read_sector_with_keys_head nfc sector first n w :
  is_Some (mf_classic_get_sector_trailer_by_sector (mf_classic_data (app w)) sector) ->
  exists k kt e,
    emitted (EvNfc (CallAuth (wrap8 (wrap8 first)) k kt) e) w
            (read_sector_with_keys nfc sector first n w).2.
Proof.
  intros [sec_tr Htr]. unfold read_sector_with_keys.
  rewrite bind_eq. cbn [get_app fst snd]. rewrite Htr.
  assert (Hkeys : exists k kt rest,
            keys_to_try (mf_classic_data (app w)) sector sec_tr = (k, kt) :: rest).
  { rewrite keys_to_try_shape.
    destruct (mf_classic_is_key_found _ _ MfClassicKeyTypeA);
      destruct (mf_classic_is_key_found _ _ MfClassicKeyTypeB);
      cbn [List.app]; eauto. }
  destruct Hkeys as (k & kt & rest & ->).
  destruct (try_keys_head nfc k kt rest sector (wrap8 first) (wrap8 n) w)
    as (e & more & Htrace).
  exists k, kt, e, [], more. exact Htrace.
Qed.

Lemma read_sectors_head nfc count sector ok w :
  is_Some (mf_classic_get_sector_trailer_by_sector (mf_classic_data (app w)) sector) ->
  exists k kt e,
    emitted (EvNfc (CallAuth
                      (wrap8 (wrap8 (mf_classic_get_first_block_num_of_sector sector)))
                      k kt) e) w
            (read_sectors nfc (S count) sector ok w).2.
Proof.
  intros Htr. cbn [read_sectors]. rewrite !bind_eq.
  set (w1 := (furi_delay_ms 50 _).2).
  assert (Hw1 : reader_frame w w1).
  { subst w1. unfold_setters. unfold reader_frame, emit, modify_tracker.
    cbn [fst snd trace app custom_events]. repeat split.
    rewrite <- app_assoc. eexists. reflexivity. }
  destruct (read_sector_with_keys_head nfc sector
              (mf_classic_get_first_block_num_of_sector sector)
              (mf_classic_get_blocks_num_in_sector sector) w1) as (k & kt & e & Hem).
  { destruct Hw1 as (_ & _ & -> & _). exact Htr. }
  exists k, kt, e.
  apply (emitted_after _ w w1); [exact Hw1 |].
  eapply emitted_before; [exact Hem |].
  match goal with
  | |- reader_frame ?x (?m ?x).2 =>
      assert (Hm : preserves reader_frame m) by frame; apply Hm
  end.
Qed.

Lemma total_sectors_positive t :
  exists count, Z.to_nat (wrap32 (mf_classic_get_total_sectors_num t)) = S count.
Proof. destruct t; vm_compute; eauto. Qed.

Lemma emitted_bind_l {A B} (m : M A) (k : A -> M B) ev w :
  emitted ev w (m w).2 -> (forall a, preserves reader_frame (k a)) ->
  emitted ev w (bind m k w).2.
Proof.
  intros Hem Hk. rewrite bind_eq. eapply emitted_before; [exact Hem | apply Hk].
Qed.

Lemma emitted_bind_r {A B} (m : M A) (k : A -> M B) ev w :
  preserves reader_frame m -> emitted ev (m w).2 (k (m w).1 (m w).2).2 ->
  emitted ev w (bind m k w).2.
Proof.
  intros Hm Hem. rewrite bind_eq. eapply emitted_after; [apply Hm | exact Hem].
Qed.

Lemma miband_verify_read_card_head nfc reset w :
  is_valid_nfc_data (app w) = true ->
  is_Some (mf_classic_get_sector_trailer_by_sector (mf_classic_data (app w)) 0) ->
  exists k kt e,
    emitted (EvNfc (CallAuth 0 k kt) e) w (miband_verify_read_card nfc reset w).2.
Proof.
  intros Hvalid Htr. unfold miband_verify_read_card.
  rewrite bind_eq. cbn [get_app fst snd]. rewrite Hvalid. cbn [negb].
  set (w1 := (set_target_data (fun d => set_type d (type (mf_classic_data (app w))))
               (set_target_data reset
                 (update_verify_ui "Reading Mi Band"
                   (set_current_operation "Initializing read"
                     (set_total_sectors
                        (mf_classic_get_total_sectors_num (type (mf_classic_data (app w))))
                        w).2).2).2).2).2).
  destruct (total_sectors_positive (type (mf_classic_data (app w)))) as [count Hcount].
  destruct (read_sectors_head nfc count 0 true w1) as (k & kt & e & Hem);
    [exact Htr |].
  exists k, kt, e.
  do 5 (apply emitted_bind_r; [frame |]).
  rewrite bind_eq. cbn [get_tracker fst].
  apply emitted_bind_l; [| intros; frame].
  fold w1. cbn [get_tracker snd].
  replace (total_sectors (verify_tracker w1))
    with (wrap32 (mf_classic_get_total_sectors_num (type (mf_classic_data (app w)))))
    by reflexivity.
  rewrite Hcount. exact Hem.
Qed.

(** C4 (amended). When the detection poller reports a failure, the reader
    callback does what it does for a success: it queues the poller-done
    event and stops the poller.  Handling that event releases the poller
    and takes the scene state to [Comparison], never to [Reading], and it
    does run the bulk read: with valid reference data, the card is asked to
    authenticate block 0. *)
Theorem C4_poller_fail_runs_the_read nfc reset w :
  custom_events w = [] ->
  is_valid_nfc_data (app w) = true ->
  is_Some (mf_classic_get_sector_trailer_by_sector (mf_classic_data (app w)) 0) ->
  let r := miband_verify_reader_callback reset MfClassicPollerEventTypeFail w in
  let final := (miband_nfc_app_custom_event_callback nfc reset r.2).2 in
  r = miband_verify_reader_callback reset MfClassicPollerEventTypeSuccess w
  /\ r.1 = NfcCommandStop
  /\ custom_events r.2 = [MiBandNfcCustomEventPollerDone]
  /\ scene_state (app final) = MiBandNfcSceneVerifyStateComparison
  /\ poller (app final) = false
  /\ exists k kt e, emitted (EvNfc (CallAuth 0 k kt) e) w final.
Proof.
  intros Hq Hvalid Htr r final.
  assert (Hr : r = (NfcCommandStop,
                    {| app := app w; verify_tracker := verify_tracker w;
                       custom_events := [MiBandNfcCustomEventPollerDone];
                       trace := trace w |})).
  { subst r. cbn. unfold view_dispatcher_send_custom_event. rewrite Hq. reflexivity. }
  split; [reflexivity |]. split; [rewrite Hr; reflexivity |].
  split; [rewrite Hr; reflexivity |].
  subst final. rewrite Hr. unfold miband_nfc_app_custom_event_callback.
  rewrite bind_eq.
  cbn [take_custom_events fst snd custom_events app verify_tracker trace
       deliver_custom_events].
  set (wq := {| app := app w; verify_tracker := verify_tracker w;
                custom_events := []; trace := trace w |}).
  rewrite bind_eq. cbn [ret snd].
  cbn [miband_nfc_scene_verify_on_event]. rewrite (bind_eq release_poller).
  rewrite (bind_eq (scene_manager_set_scene_state _)).
  set (w0 := (scene_manager_set_scene_state MiBandNfcSceneVerifyStateComparison
                (release_poller wq).2).2).
  assert (Hw0 : scene_state (app w0) = MiBandNfcSceneVerifyStateComparison
                /\ poller (app w0) = false
                /\ is_valid_nfc_data (app w0) = is_valid_nfc_data (app w)
                /\ mf_classic_data (app w0) = mf_classic_data (app w)
                /\ exists evs, trace w0 = trace w ++ evs).
  { subst w0 wq. unfold release_poller. rewrite bind_eq.
    cbn [get_app fst snd app]. destruct (poller (app w)) eqn:Hp.
    - rewrite !bind_eq. cbn. repeat split. rewrite <- app_assoc. eexists. reflexivity.
    - cbn. rewrite Hp. repeat split. exists []. now rewrite app_nil_r. }
  destruct Hw0 as (Hstate & Hpoller & Hv0 & Hd0 & [evs0 Htrace0]).
  match goal with
  | |- context [bind ?m ?k w0] =>
      assert (Hk : forall a, preserves reader_frame (k a))
        by (intros; unfold show_read_failed, show_success, show_differences;
            pose proof miband_verify_read_card_reader_frame;
            pose proof compare_blocks_reader_frame; frame);
      assert (Hm : preserves reader_frame m)
        by apply miband_verify_read_card_reader_frame;
      pose proof (preserves_bind reader_frame m k Hm Hk w0) as Hframe
  end.
  destruct Hframe as (_ & _ & _ & Hp1 & Hs1 & _).
  split; [etransitivity; [exact Hs1 | exact Hstate] |].
  split; [etransitivity; [exact Hp1 | exact Hpoller] |].
  destruct (miband_verify_read_card_head nfc reset w0) as (k & kt & e & Hem).
  { rewrite Hv0. exact Hvalid. }
  { rewrite Hd0. exact Htr. }
  exists k, kt, e.
  destruct (emitted_bind_l _ _ _ w0 Hem Hk) as (pre & post & Hfinal).
  exists (evs0 ++ pre), post.
  etransitivity; [exact Hfinal |]. rewrite Htrace0, <- !app_assoc. reflexivity.
Qed.

Lemma C4_witness :
  let r := miband_verify_reader_callback reset_to_blank MfClassicPollerEventTypeFail
             entered_world in
  let final := (miband_nfc_app_custom_event_callback silent_card reset_to_blank r.2).2 in
  r = miband_verify_reader_callback reset_to_blank MfClassicPollerEventTypeSuccess
        entered_world
  /\ r.1 = NfcCommandStop
  /\ custom_events r.2 = [MiBandNfcCustomEventPollerDone]
  /\ scene_state (app final) = MiBandNfcSceneVerifyStateComparison
  /\ poller (app final) = false
  /\ exists k kt e, emitted (EvNfc (CallAuth 0 k kt) e) entered_world final.
Proof.
  apply (C4_poller_fail_runs_the_read silent_card reset_to_blank entered_world).
  - reflexivity.
  - reflexivity.
  - vm_compute. eexists. reflexivity.
Defined.

Lemma C4_counterexample :
  let final := run_verify open_card reset_to_blank MfClassicPollerEventTypeFail
                 verify_world in
  scene_state (app entered_world) = MiBandNfcSceneVerifyStateCardSearch
  /\ scene_state (app final) = MiBandNfcSceneVerifyStateComparison
  /\ sectors_read (verify_tracker final) = 16
  /\ length (List.filter is_auth_call (trace final)) = 32%nat
  /\ length (List.filter is_read_call (trace final)) = 64%nat
  /\ reported_outcome (trace final) = Some OutcomeSuccess.
Proof. vm_compute. repeat split; reflexivity. Qed.

Lemma C7_witness :
  let w := before_poller_done MfClassicPollerEventTypeSuccess in
  let w0 := (scene_manager_set_scene_state MiBandNfcSceneVerifyStateComparison
               (release_poller w).2).2 in
  let wr := (miband_verify_read_card stale_card reset_to_blank w0).2 in
  let final := (miband_nfc_scene_verify_on_event stale_card reset_to_blank
                  (SceneManagerEventTypeCustom MiBandNfcCustomEventPollerDone) w).2 in
  let mismatched :=
    mismatched_blocks (app wr)
      (mf_classic_get_total_block_num (type (mf_classic_data (app wr)))) in
  (reported_outcome (trace final) = Some OutcomeSuccess <-> length mismatched = 0%nat)
  /\ (reported_outcome (trace final) = Some OutcomeDifferences
      <-> (0 < length mismatched)%nat)
  /\ reported_outcome (trace final) <> Some OutcomeReadFailed.
Proof.
  intros w w0 wr.
  apply (C7_success_iff_no_mismatch stale_card reset_to_blank w wr).
  vm_compute. reflexivity.
Defined.

Lemma C2_witness :
  let auth := CallAuth (wrap8 0) dump_key_a MfClassicKeyTypeA in
  let w1 := (incr_auth_successes
               (mf_classic_poller_sync_auth sector0_card 0 dump_key_a MfClassicKeyTypeA
                  (incr_auth_attempts sector0_world).2).2).2 in
  let wb := (read_blocks sector0_card 2 0 0 0 dump_key_a MfClassicKeyTypeA w1).2 in
  let failed := [EvNfc auth (reply_error (sector0_card (trace wb) auth)); EvLogger 0] in
  let r := try_keys sector0_card
             [(dump_key_a, MfClassicKeyTypeA); (magic_key, MfClassicKeyTypeA)]
             0 0 4 sector0_world in
  r = try_keys sector0_card [(magic_key, MfClassicKeyTypeA)] 0 0 4
        (push_events failed wb)
  /\ ([(magic_key, MfClassicKeyTypeA)] = [] -> r.1 = false)
  /\ (forall key' key_type' rest',
      [(magic_key, MfClassicKeyTypeA)] = (key', key_type') :: rest' ->
      exists e more,
        trace r.2 = trace wb ++ failed
                      ++ EvNfc (CallAuth (wrap8 0) key' key_type') e :: more).
Proof.
  intros auth w1 wb.
  apply (C2_reauth_failure_moves_to_next_key sector0_card 0 0 4 dump_key_a
           MfClassicKeyTypeA [(magic_key, MfClassicKeyTypeA)] sector0_world 2 wb).
  - reflexivity.
  - vm_compute. lia.
  - reflexivity.
  - vm_compute. reflexivity.
  - vm_compute. discriminate.
Defined.

(** ** C10: invalid reference data *)

(** C10. When the reference data is marked invalid, entering the scene only
    asks the scene manager for the previous scene: the tracker is not
    initialised, no poller is started and the target image is not touched;
    and the bulk read returns failure at once, leaving the world as it
    was. *)
Theorem C10_invalid_reference_data nfc reset w :
  is_valid_nfc_data (app w) = false ->
  let entered := (miband_nfc_scene_verify_on_enter reset w).2 in
  trace entered = trace w ++ [EvPreviousScene]
  /\ verify_tracker entered = verify_tracker w
  /\ poller (app entered) = poller (app w)
  /\ target_data (app entered) = target_data (app w)
  /\ app entered = app w
  /\ custom_events entered = custom_events w
  /\ miband_verify_read_card nfc reset w = (false, w).
Proof.
  intros Hinvalid entered.
  assert (Henter : entered = push_events [EvPreviousScene] w).
  { subst entered. unfold miband_nfc_scene_verify_on_enter. rewrite bind_eq.
    cbn [get_app fst snd]. rewrite Hinvalid. reflexivity. }
  rewrite Henter. cbn [push_events verify_tracker app trace custom_events].
  repeat split.
  unfold miband_verify_read_card. rewrite bind_eq.
  cbn [get_app fst snd]. rewrite Hinvalid. reflexivity.
Qed.

Lemma C10_witness :
  let entered := (miband_nfc_scene_verify_on_enter reset_to_blank invalid_world).2 in
  trace entered = trace invalid_world ++ [EvPreviousScene]
  /\ verify_tracker entered = verify_tracker invalid_world
  /\ poller (app entered) = poller (app invalid_world)
  /\ target_data (app entered) = target_data (app invalid_world)
  /\ app entered = app invalid_world
  /\ custom_events entered = custom_events invalid_world
  /\ miband_verify_read_card open_card reset_to_blank invalid_world
     = (false, invalid_world).
Proof.
  apply (C10_invalid_reference_data open_card reset_to_blank invalid_world).
  reflexivity.
Defined.

(** ** The three endings of a run, on concrete cards *)

Example run_on_written_card :
  reported_outcome
    (trace (run_verify open_card reset_to_blank MfClassicPollerEventTypeSuccess
              verify_world))
  = Some OutcomeSuccess.
Proof. vm_compute. reflexivity. Qed.

Example run_on_stale_card :
  let final := run_verify stale_card reset_to_blank MfClassicPollerEventTypeSuccess
                 verify_world in
  reported_outcome (trace final) = Some OutcomeDifferences
  /\ blocks_different (verify_tracker final) = 47.
Proof. vm_compute. split; reflexivity. Qed.

Example run_on_silent_card :
  let final := run_verify silent_card reset_to_blank MfClassicPollerEventTypeSuccess
                 verify_world in
  reported_outcome (trace final) = Some OutcomeReadFailed
  /\ sectors_failed (verify_tracker final) = 16
  /\ auth_attempts (verify_tracker final) = 16.
Proof. vm_compute. repeat split; reflexivity. Qed.

(** * Further properties of the scene *)

(** ** What a sector read may change in the target image *)

Lemma sector_footprint_refl sector lo hi d : sector_footprint sector lo hi false d d.
Proof. unfold sector_footprint. auto. Qed.

Lemma sector_footprint_trans sector lo hi marked d1 d2 d3 :
  sector_footprint sector lo hi false d1 d2 ->
  sector_footprint sector lo hi marked d2 d3 ->
  sector_footprint sector lo hi marked d1 d3.
Proof.
  intros (T1 & L1 & B1 & A1 & K1) (T2 & L2 & B2 & A2 & K2).
  unfold sector_footprint. rewrite T2, L2, A2, K2, T1, L1, A1, K1.
  repeat split. intros i Hi. rewrite B2, B1 by exact Hi. reflexivity.
Qed.

Lemma sector_footprint_widen sector lo hi lo' hi' marked d d' :
  lo' <= lo -> hi <= hi' ->
  sector_footprint sector lo hi marked d d' ->
  sector_footprint sector lo' hi' marked d d'.
Proof.
  intros Hlo Hhi (T & L & B & A & K). unfold sector_footprint.
  repeat split; try assumption. intros i Hi. apply B. lia.
Qed.

Lemma set_block_footprint sector d idx b :
  0 <= idx -> sector_footprint sector idx (idx + 1) false d (set_block d idx b).
Proof.
  intros Hidx. unfold sector_footprint, set_block. cbn [type block key_a_mask key_b_mask].
  repeat split.
  - apply length_insert.
  - intros i Hi. apply list_lookup_insert_ne. lia.
Qed.

Lemma read_block_target nfc sector idx k kt w :
  0 <= idx ->
  sector_footprint sector idx (idx + 1) false (target_data (app w))
    (target_data (app (mf_classic_poller_sync_read_block nfc idx k kt w).2)).
Proof.
  intros Hidx. unfold mf_classic_poller_sync_read_block. cbn [snd].
  destruct (is_none _); cbn.
  - apply set_block_footprint. exact Hidx.
  - apply sector_footprint_refl.
Qed.

Lemma read_block_retry_target nfc sector idx k kt fuel : forall retry w,
  0 <= idx ->
  sector_footprint sector idx (idx + 1) false (target_data (app w))
    (target_data (app (read_block_retry nfc fuel retry idx k kt w).2)).
Proof.
  induction fuel as [| fuel IH]; intros retry w Hidx.
  - apply sector_footprint_refl.
  - cbn [read_block_retry]. destruct (retry <? 3); [| apply sector_footprint_refl].
    rewrite !bind_eq.
    set (w1 := (when (0 <? retry) (furi_delay_ms 50) w).2).
    assert (Hw1 : app w1 = app w) by (subst w1; destruct (0 <? retry); reflexivity).
    rewrite <- Hw1.
    pose proof (read_block_target nfc sector idx k kt w1 Hidx) as Hstep.
    destruct (is_none _); [exact Hstep |].
    destruct (negb _); [exact Hstep |].
    eapply sector_footprint_trans; [exact Hstep | apply IH; exact Hidx].
Qed.

Lemma auth_app nfc b k kt w : app (mf_classic_poller_sync_auth nfc b k kt w).2 = app w.
Proof. reflexivity. Qed.

Lemma read_blocks_target nfc sector first k kt count : forall p w,
  0 <= first + p ->
  sector_footprint sector (first + p) (first + p + Z.of_nat count) false
    (target_data (app w))
    (target_data (app (read_blocks nfc count p sector first k kt w).2)).
Proof.
  induction count as [| count IH]; intros p w Hp.
  - apply sector_footprint_refl.
  - cbn [read_blocks]. rewrite !bind_eq.
    match goal with
    | |- context [(if reauth_due p then ?a else ?b) w] =>
        set (ra := (if reauth_due p then a else b) w)
    end.
    assert (Hra : app ra.2 = app w).
    { subst ra. destruct (reauth_due p); [| reflexivity].
      rewrite !bind_eq. destruct (negb _); [rewrite !bind_eq |]; reflexivity. }
    rewrite <- Hra.
    destruct (negb ra.1); [apply sector_footprint_refl |].
    rewrite !bind_eq.
    pose proof (read_block_retry_target nfc sector (first + p) k kt 3 0 ra.2 Hp) as Hstep.
    apply (sector_footprint_widen sector (first + p) (first + p + 1)
             (first + p) (first + p + Z.of_nat (S count))) in Hstep; [| lia | lia].
    destruct (negb _); [exact Hstep |].
    eapply sector_footprint_trans; [exact Hstep |].
    eapply sector_footprint_widen; [| | apply IH]; lia.
Qed.

Lemma try_keys_target nfc sector first n keys : forall w,
  0 <= first -> 0 <= n ->
  sector_footprint sector first (first + n)
    (try_keys nfc keys sector first n w).1
    (target_data (app w))
    (target_data (app (try_keys nfc keys sector first n w).2)).
Proof.
  induction keys as [| [k kt] keys IH]; intros w Hfirst Hn.
  - apply sector_footprint_refl.
  - cbn [try_keys]. rewrite !bind_eq.
    set (w1 := (mf_classic_poller_sync_auth nfc first k kt (incr_auth_attempts w).2)).
    assert (Hw1 : app w1.2 = app w) by reflexivity.
    destruct (negb (is_none w1.1)).
    { rewrite <- Hw1. apply IH; assumption. }
    rewrite !bind_eq.
    set (w2 := (incr_auth_successes w1.2).2).
    assert (Hw2 : app w2 = app w) by reflexivity.
    pose proof (read_blocks_target nfc sector first k kt (Z.to_nat n) 0 w2) as Hblocks.
    rewrite Z.add_0_r, Z2Nat.id, Hw2 in Hblocks by assumption.
    specialize (Hblocks Hfirst).
    destruct (read_blocks nfc (Z.to_nat n) 0 sector first k kt w2) as [ok w3].
    cbn [fst snd] in *. destruct ok.
    + rewrite !bind_eq. cbn.
      destruct Hblocks as (T & L & B & A & K).
      unfold sector_footprint. cbn. rewrite A, K. auto.
    + eapply sector_footprint_trans; [exact Hblocks | apply IH; assumption].
Qed.

Lemma wrap8_nonneg x : 0 <= wrap8 x.
Proof. unfold wrap8. apply Z.mod_pos_bound. lia. Qed.

Lemma read_sector_with_keys_target nfc sector first_block blocks_in_sector w :
  sector_footprint sector (wrap8 first_block) (wrap8 first_block + wrap8 blocks_in_sector)
    (read_sector_with_keys nfc sector first_block blocks_in_sector w).1
    (target_data (app w))
    (target_data (app (read_sector_with_keys nfc sector first_block blocks_in_sector w).2)).
Proof.
  unfold read_sector_with_keys. rewrite bind_eq. cbn [get_app fst snd].
  destruct (mf_classic_get_sector_trailer_by_sector _ _).
  - apply try_keys_target; apply wrap8_nonneg.
  - apply sector_footprint_refl.
Qed.

(** X1. Whatever the card answers, a sector read changes nothing of the
    target image but the blocks of that sector and, when it succeeds, the
    two key flags of that sector: the card type, the size of the image and
    every block outside [first_block .. first_block + blocks_in_sector - 1]
    stay as they were, and a failed read leaves both key masks as they
    were. *)
Theorem sector_read_footprint nfc sector first_block blocks_in_sector w :
  sector_footprint sector (wrap8 first_block) (wrap8 first_block + wrap8 blocks_in_sector)
    (read_sector_with_keys nfc sector first_block blocks_in_sector w).1
    (target_data (app w))
    (target_data (app (read_sector_with_keys nfc sector first_block blocks_in_sector w).2)).
Proof.
  unfold read_sector_with_keys. rewrite bind_eq. cbn [get_app fst snd].
  destruct (mf_classic_get_sector_trailer_by_sector _ _) as [sec_tr |].
  - apply try_keys_target; apply wrap8_nonneg.
  - apply sector_footprint_refl.
Qed.

Lemma FURI_BIT_SET_other x n m :
  0 <= n -> 0 <= m < 64 -> m <> n -> FURI_BIT (FURI_BIT_SET x n) m = FURI_BIT x m.
Proof.
  intros Hn Hm Hne. rewrite !FURI_BIT_testbit by lia. unfold FURI_BIT_SET, wrap64.
  rewrite Z.mod_pow2_bits_low by lia.
  rewrite Z.lor_spec, Z.shiftl_spec by lia.
  destruct (Z.ltb_spec m n).
  - rewrite (Z.testbit_neg_r 1) by lia. apply orb_false_r.
  - replace (Z.testbit 1 (m - n)) with false; [apply orb_false_r |].
    symmetry. apply Z.bits_above_log2; simpl; lia.
Qed.

Lemma read_sector_other_flags nfc sector first_block blocks_in_sector w m key_type :
  0 <= sector -> 0 <= m < 64 -> m <> sector ->
  mf_classic_is_key_found
    (target_data (app (read_sector_with_keys nfc sector first_block blocks_in_sector w).2))
    m key_type
  = mf_classic_is_key_found (target_data (app w)) m key_type.
Proof.
  intros Hs Hm Hne.
  destruct (read_sector_with_keys_target nfc sector first_block blocks_in_sector w)
    as (_ & _ & _ & A & K).
  unfold mf_classic_is_key_found. rewrite A, K.
  destruct key_type, (read_sector_with_keys _ _ _ _ _).1;
    auto using FURI_BIT_SET_other.
Qed.

(** X2. A sector read never changes the key flags of another sector:
    for every other sector [m] below 64, Key A and Key B of [m] are found
    in the target image after the read exactly when they were before. *)
Theorem sector_read_keeps_other_flags
    nfc sector first_block blocks_in_sector w m key_type :
  0 <= sector -> 0 <= m < 64 -> m <> sector ->
  mf_classic_is_key_found
    (target_data (app (read_sector_with_keys nfc sector first_block blocks_in_sector w).2))
    m key_type
  = mf_classic_is_key_found (target_data (app w)) m key_type.
Proof.
  intros Hs Hm Hne.
  destruct (read_sector_with_keys_target nfc sector first_block blocks_in_sector w)
    as (_ & _ & _ & Hmask_a & Hmask_b).
  unfold mf_classic_is_key_found. rewrite Hmask_a, Hmask_b.
  destruct key_type, (read_sector_with_keys _ _ _ _ _).1;
    auto using FURI_BIT_SET_other.
Qed.

(** ** Frames of the tracker *)

#[local] Instance run_counters_kept_preorder : PreOrder run_counters_kept.
Proof.
  split.
  - intros w. unfold run_counters_kept. repeat split.
  - intros w1 w2 w3 (A1 & B1 & C1 & D1 & E1 & F1 & G1) (A2 & B2 & C2 & D2 & E2 & F2 & G2).
    unfold run_counters_kept. repeat split; congruence.
Qed.

#[local] Instance strings_stay_allocated_preorder : PreOrder strings_stay_allocated.
Proof. split; unfold strings_stay_allocated; [intros w | intros w1 w2 w3]; auto. Qed.

Lemma furi_string_set_allocated s text : is_Some s -> is_Some (furi_string_set s text).
Proof. intros [y ->]. cbn. eauto. Qed.

#[local] Hint Resolve furi_string_set_allocated : core.

Ltac prim_frame :=
  let w := fresh "w" in
  intros w;
  unfold run_counters_kept, strings_stay_allocated, strings_allocated,
    mf_classic_poller_sync_auth, mf_classic_poller_sync_read_block,
    set_target_data, set_poller, scene_manager_set_scene_state,
    view_dispatcher_send_custom_event, modify_app, modify_tracker, emit;
  cbn; try (destruct (is_none _)); cbn; intuition auto.

Ltac frame_step_with prim :=
  first
    [ apply preserves_ret; close_preorder
    | apply get_app_preserves; close_preorder
    | apply get_tracker_preserves; close_preorder
    | apply preserves_when; close_preorder
    | apply preserves_bind; close_preorder; [| intros ?]
    | solve [eauto with frame]
    | solve [prim]
    | match goal with
      | |- preserves _ (if ?b then _ else _) => destruct b
      | |- preserves _ (match ?x with _ => _ end) => destruct x
      end ].

Ltac frame_with prim := unfold_setters; repeat frame_step_with prim.

Lemma read_block_retry_counters nfc fuel : forall retry b k kt,
  preserves run_counters_kept (read_block_retry nfc fuel retry b k kt).
Proof. induction fuel as [| fuel IH]; intros; simpl; frame_with prim_frame. Qed.

#[local] Hint Resolve read_block_retry_counters : frame.

Lemma read_blocks_counters nfc count : forall p sector first k kt,
  preserves run_counters_kept (read_blocks nfc count p sector first k kt).
Proof. induction count as [| count IH]; intros; simpl; frame_with prim_frame. Qed.

#[local] Hint Resolve read_blocks_counters : frame.

Lemma try_keys_counters nfc keys : forall sector first n,
  preserves run_counters_kept (try_keys nfc keys sector first n).
Proof. induction keys as [| [k kt] keys IH]; intros; simpl; frame_with prim_frame. Qed.

#[local] Hint Resolve try_keys_counters : frame.

Lemma read_sector_with_keys_counters nfc sector first n :
  preserves run_counters_kept (read_sector_with_keys nfc sector first n).
Proof. unfold read_sector_with_keys. frame_with prim_frame. Qed.

Lemma read_block_retry_strings nfc fuel : forall retry b k kt,
  preserves strings_stay_allocated (read_block_retry nfc fuel retry b k kt).
Proof. induction fuel as [| fuel IH]; intros; simpl; frame_with prim_frame. Qed.

#[local] Hint Resolve read_block_retry_strings : frame.

Lemma read_blocks_strings nfc count : forall p sector first k kt,
  preserves strings_stay_allocated (read_blocks nfc count p sector first k kt).
Proof. induction count as [| count IH]; intros; simpl; frame_with prim_frame. Qed.

#[local] Hint Resolve read_blocks_strings : frame.

Lemma try_keys_strings nfc keys : forall sector first n,
  preserves strings_stay_allocated (try_keys nfc keys sector first n).
Proof. induction keys as [| [k kt] keys IH]; intros; simpl; frame_with prim_frame. Qed.

#[local] Hint Resolve try_keys_strings : frame.

Lemma read_sector_with_keys_strings nfc sector first n :
  preserves strings_stay_allocated (read_sector_with_keys nfc sector first n).
Proof. unfold read_sector_with_keys. frame_with prim_frame. Qed.

#[local] Hint Resolve read_sector_with_keys_strings : frame.

Lemma read_sectors_strings nfc count : forall sector ok,
  preserves strings_stay_allocated (read_sectors nfc count sector ok).
Proof. induction count as [| count IH]; intros; simpl; frame_with prim_frame. Qed.

#[local] Hint Resolve read_sectors_strings : frame.

Lemma miband_verify_read_card_strings nfc reset :
  preserves strings_stay_allocated (miband_verify_read_card nfc reset).
Proof. unfold miband_verify_read_card. frame_with prim_frame. Qed.

Lemma compare_blocks_strings count : forall i total dm d,
  preserves strings_stay_allocated (compare_blocks count i total dm d).
Proof. induction count as [| count IH]; intros; simpl; frame_with prim_frame. Qed.

#[local] Hint Resolve miband_verify_read_card_strings compare_blocks_strings : frame.

Lemma on_event_strings nfc reset event :
  preserves strings_stay_allocated (miband_nfc_scene_verify_on_event nfc reset event).
Proof.
  unfold miband_nfc_scene_verify_on_event, release_poller, show_read_failed,
    show_success, show_differences.
  destruct event as [[| | | | |code] | |]; frame_with prim_frame.
Qed.

Lemma callback_strings reset event_type :
  preserves strings_stay_allocated (miband_verify_reader_callback reset event_type).
Proof.
  unfold miband_verify_reader_callback. destruct event_type; frame_with prim_frame.
Qed.

(** ** The two authentication counters *)

Lemma wrap32_add_succ a (k : nat) :
  wrap32 (wrap32 (a + 1) + Z.of_nat k) = wrap32 (a + Z.of_nat (S k)).
Proof. rewrite wrap32_add_l. f_equal. lia. Qed.

Lemma try_keys_accounting nfc sector first n keys : forall w,
  in_uint32 (auth_attempts (verify_tracker w)) ->
  in_uint32 (auth_successes (verify_tracker w)) ->
  exists attempts successes : nat,
    (successes <= attempts <= length keys)%nat
    /\ (keys <> [] -> (1 <= attempts)%nat)
    /\ ((try_keys nfc keys sector first n w).1 = true -> (1 <= successes)%nat)
    /\ auth_attempts (verify_tracker (try_keys nfc keys sector first n w).2)
       = wrap32 (auth_attempts (verify_tracker w) + Z.of_nat attempts)
    /\ auth_successes (verify_tracker (try_keys nfc keys sector first n w).2)
       = wrap32 (auth_successes (verify_tracker w) + Z.of_nat successes).
Proof.
  induction keys as [| [k kt] keys IH]; intros w Ha Hs.
  - exists 0%nat, 0%nat. cbn. rewrite !Z.add_0_r, !wrap32_small by assumption.
    repeat split; try lia; congruence.
  - cbn [try_keys]. rewrite !bind_eq.
    set (w1 := (mf_classic_poller_sync_auth nfc first k kt (incr_auth_attempts w).2)).
    assert (Ha1 : auth_attempts (verify_tracker w1.2)
                  = wrap32 (auth_attempts (verify_tracker w) + 1)) by reflexivity.
    assert (Hs1 : auth_successes (verify_tracker w1.2)
                  = auth_successes (verify_tracker w)) by reflexivity.
    destruct (negb (is_none w1.1)).
    { destruct (IH w1.2) as (a & s & Hle & _ & Hok & Hatt & Hsucc).
      - rewrite Ha1. apply wrap32_in_uint32.
      - rewrite Hs1. exact Hs.
      - exists (S a), s. rewrite Hatt, Hsucc, Ha1, Hs1, wrap32_add_succ.
        cbn [length]. repeat split; try lia; auto. }
    rewrite !bind_eq.
    set (w2 := (incr_auth_successes w1.2).2).
    pose proof (kept_tracker (read_blocks nfc (Z.to_nat n) 0 sector first k kt) w2
                  (read_blocks_tracker_kept _ _ _ _ _ _ _)) as Hkept.
    destruct (read_blocks nfc (Z.to_nat n) 0 sector first k kt w2) as [ok w3].
    cbn [fst snd] in *.
    assert (Ha3 : auth_attempts (verify_tracker w3)
                  = wrap32 (auth_attempts (verify_tracker w) + 1))
      by (rewrite Hkept; reflexivity).
    assert (Hs3 : auth_successes (verify_tracker w3)
                  = wrap32 (auth_successes (verify_tracker w) + 1))
      by (rewrite Hkept; reflexivity).
    destruct ok.
    + exists 1%nat, 1%nat. rewrite !bind_eq. cbn [ret fst snd length].
      repeat split; try lia.
      * cbn. exact Ha3.
      * cbn. exact Hs3.
    + destruct (IH w3) as (a & s & Hle & _ & Hok & Hatt & Hsucc).
      * rewrite Ha3. apply wrap32_in_uint32.
      * rewrite Hs3. apply wrap32_in_uint32.
      * exists (S a), (S s). rewrite Hatt, Hsucc, Ha3, Hs3, !wrap32_add_succ.
        cbn [length]. repeat split; try lia.
Qed.

(** X3. One sector read adds between one and three authentication attempts
    to the tracker (none when the dump holds no trailer for the sector) and
    never more successes than attempts; a sector reported as read has at
    least one success.  No other counter of the tracker moves. *)
Theorem sector_read_auth_accounting nfc sector first_block blocks_in_sector w :
  in_uint32 (auth_attempts (verify_tracker w)) ->
  in_uint32 (auth_successes (verify_tracker w)) ->
  let r := read_sector_with_keys nfc sector first_block blocks_in_sector w in
  exists attempts successes : nat,
    (successes <= attempts <= 3)%nat
    /\ (is_Some (mf_classic_get_sector_trailer_by_sector (mf_classic_data (app w)) sector)
        -> (1 <= attempts)%nat)
    /\ (r.1 = true -> (1 <= successes)%nat)
    /\ auth_attempts (verify_tracker r.2)
       = wrap32 (auth_attempts (verify_tracker w) + Z.of_nat attempts)
    /\ auth_successes (verify_tracker r.2)
       = wrap32 (auth_successes (verify_tracker w) + Z.of_nat successes)
    /\ run_counters_kept w r.2.
Proof.
  intros Ha Hs r.
  pose proof (read_sector_with_keys_counters nfc sector first_block blocks_in_sector w)
    as Hkept.
  fold r in Hkept. subst r. unfold read_sector_with_keys in *.
  rewrite bind_eq in *. cbn [get_app fst snd] in *.
  destruct (mf_classic_get_sector_trailer_by_sector _ _) as [sec_tr |].
  - destruct (try_keys_accounting nfc sector (wrap8 first_block) (wrap8 blocks_in_sector)
                (keys_to_try (mf_classic_data (app w)) sector sec_tr) w Ha Hs)
      as (a & s & Hle & Hne & Hok & Hatt & Hsucc).
    pose proof (keys_to_try_length (mf_classic_data (app w)) sector sec_tr) as Hlen.
    destruct Hkept as (? & ? & ? & ? & ? & ? & ?).
    exists a, s. repeat split; try lia; try assumption.
    intros _. apply Hne. intros E. rewrite E in Hlen. cbn in Hlen. lia.
  - exists 0%nat, 0%nat. cbn. rewrite !Z.add_0_r, !wrap32_small by assumption.
    repeat split; try lia; try congruence.
    intros [x Hx]. discriminate.
Qed.

(** ** What a successful sector read has asked the card *)

Lemma emitted_here ev w w' :
  trace w' = trace w ++ [ev] -> emitted ev w w'.
Proof. intros H. exists [], []. exact H. Qed.

Lemma read_block_retry_true nfc b k kt fuel : forall retry w,
  (read_block_retry nfc fuel retry b k kt w).1 = true ->
  emitted (EvNfc (CallReadBlock (wrap8 b) k kt) MfClassicErrorNone) w
    (read_block_retry nfc fuel retry b k kt w).2.
Proof.
  induction fuel as [| fuel IH]; intros retry w; [discriminate |].
  cbn [read_block_retry]. destruct (retry <? 3); [| discriminate].
  rewrite !bind_eq.
  set (w1 := (when (0 <? retry) (furi_delay_ms 50) w).2).
  assert (Hw1 : reader_frame w w1).
  { subst w1. apply (preserves_when reader_frame). apply emit_reader_frame. }
  pose proof (read_block_trace nfc b k kt w1) as Htr.
  pose proof (read_block_reader_frame nfc b k kt w1) as Hfr.
  set (r1 := mf_classic_poller_sync_read_block nfc b k kt w1) in *.
  destruct (is_none r1.1) eqn:Hnone.
  - intros _. cbn [ret snd]. apply (emitted_after _ w w1); [exact Hw1 |].
    apply emitted_here. rewrite Htr. destruct r1.1; try discriminate. reflexivity.
  - destruct (negb (is_timeout r1.1)); [discriminate |].
    intros Hok. apply (emitted_after _ w r1.2).
    + transitivity w1; assumption.
    + apply IH. exact Hok.
Qed.

Lemma read_blocks_true nfc sector first k kt count : forall p w,
  (read_blocks nfc count p sector first k kt w).1 = true ->
  forall q, p <= q < p + Z.of_nat count ->
    emitted (EvNfc (CallReadBlock (wrap8 (first + q)) k kt) MfClassicErrorNone) w
      (read_blocks nfc count p sector first k kt w).2.
Proof.
  induction count as [| count IH]; intros p w Hok q Hq; [lia |].
  revert Hok. cbn [read_blocks]. rewrite !bind_eq.
  match goal with
  | |- context [(if reauth_due p then ?a else ?b) w] =>
      assert (Hfa : preserves reader_frame (if reauth_due p then a else b)) by frame;
      set (ra := (if reauth_due p then a else b) w) in *
  end.
  assert (Hra : reader_frame w ra.2) by apply Hfa.
  destruct (negb ra.1); [discriminate |].
  rewrite !bind_eq.
  pose proof (read_block_retry_true nfc (first + p) k kt 3 0 ra.2) as Hthis.
  pose proof (read_block_retry_reader_frame nfc 3 0 (first + p) k kt ra.2) as Hfb.
  set (rb := read_block_retry nfc 3 0 (first + p) k kt ra.2) in *.
  destruct rb.1; cbn [negb]; [| discriminate].
  intros Hok.
  destruct (Z.eq_dec q p) as [-> | Hne].
  - apply (emitted_after _ w ra.2); [exact Hra |].
    eapply emitted_before; [apply Hthis; reflexivity |].
    apply read_blocks_reader_frame.
  - apply (emitted_after _ w rb.2); [transitivity ra.2; assumption |].
    apply IH; [exact Hok | lia].
Qed.

Lemma try_keys_true nfc sector first n keys : forall w,
  (try_keys nfc keys sector first n w).1 = true ->
  exists k kt,
    In (k, kt) keys
    /\ emitted (EvNfc (CallAuth (wrap8 first) k kt) MfClassicErrorNone) w
         (try_keys nfc keys sector first n w).2
    /\ forall q, 0 <= q < n ->
         emitted (EvNfc (CallReadBlock (wrap8 (first + q)) k kt) MfClassicErrorNone) w
           (try_keys nfc keys sector first n w).2.
Proof.
  induction keys as [| [k kt] keys IH]; intros w; [discriminate |].
  cbn [try_keys]. rewrite !bind_eq.
  pose proof (auth_trace nfc first k kt (incr_auth_attempts w).2) as Hauth.
  pose proof (auth_reader_frame nfc first k kt (incr_auth_attempts w).2) as Hfa.
  set (w1 := mf_classic_poller_sync_auth nfc first k kt (incr_auth_attempts w).2) in *.
  assert (Hw1 : reader_frame w w1.2).
  { transitivity (incr_auth_attempts w).2; [| exact Hfa].
    apply modify_tracker_reader_frame. }
  assert (Hlater : forall w0, reader_frame w w0 ->
            (try_keys nfc keys sector first n w0).1 = true ->
            exists k0 kt0,
              In (k0, kt0) ((k, kt) :: keys)
              /\ emitted (EvNfc (CallAuth (wrap8 first) k0 kt0) MfClassicErrorNone) w
                   (try_keys nfc keys sector first n w0).2
              /\ forall q, 0 <= q < n ->
                   emitted (EvNfc (CallReadBlock (wrap8 (first + q)) k0 kt0)
                              MfClassicErrorNone) w
                     (try_keys nfc keys sector first n w0).2).
  { intros w0 Hw0 Hok. destruct (IH w0 Hok) as (k0 & kt0 & Hin & Ha & Hr).
    exists k0, kt0. split; [right; exact Hin |].
    split; [eapply emitted_after; eassumption |].
    intros q Hq. eapply emitted_after; [exact Hw0 | apply Hr; exact Hq]. }
  destruct (is_none w1.1) eqn:Hnone; cbn [negb]; [| apply Hlater; exact Hw1].
  rewrite !bind_eq.
  set (w2 := (incr_auth_successes w1.2).2).
  assert (Hw2 : reader_frame w1.2 w2) by apply modify_tracker_reader_frame.
  pose proof (read_blocks_true nfc sector first k kt (Z.to_nat n) 0 w2) as Hreads.
  pose proof (read_blocks_reader_frame nfc (Z.to_nat n) 0 sector first k kt w2) as Hfb.
  set (rb := read_blocks nfc (Z.to_nat n) 0 sector first k kt w2) in *.
  destruct rb.1.
  2:{ apply Hlater. transitivity w1.2; [exact Hw1 |]. transitivity w2; assumption. }
  intros _. rewrite !bind_eq. cbn [ret fst snd].
  set (w4 := (furi_delay_ms 10 _).2).
  assert (Hw4 : reader_frame rb.2 w4).
  { subst w4. transitivity (set_target_data
      (fun d => set_key_masks d (FURI_BIT_SET (key_a_mask d) sector)
                                (FURI_BIT_SET (key_b_mask d) sector)) rb.2).2.
    - apply set_target_data_reader_frame.
    - apply emit_reader_frame. }
  exists k, kt. split; [left; reflexivity |]. split.
  - apply (emitted_after _ w (incr_auth_attempts w).2);
      [apply modify_tracker_reader_frame |].
    apply (emitted_before _ _ w1.2).
    + apply emitted_here. rewrite Hauth. destruct w1.1; try discriminate. reflexivity.
    + transitivity w2; [exact Hw2 |]. transitivity rb.2; assumption.
  - intros q Hq.
    apply (emitted_after _ w w2); [transitivity w1.2; assumption |].
    apply (emitted_before _ _ rb.2); [| exact Hw4].
    apply Hreads; [reflexivity | lia].
Qed.

(** X4. A sector is reported as read only when one candidate of the list
    both authenticated against the first block of the sector and, with that
    same key, read every block of the sector without error. *)
Theorem sector_read_success_means_all_blocks_read
    nfc sector first_block blocks_in_sector w :
  let r := read_sector_with_keys nfc sector first_block blocks_in_sector w in
  r.1 = true ->
  exists sec_tr k kt,
    mf_classic_get_sector_trailer_by_sector (mf_classic_data (app w)) sector = Some sec_tr
    /\ In (k, kt) (keys_to_try (mf_classic_data (app w)) sector sec_tr)
    /\ emitted (EvNfc (CallAuth (wrap8 (wrap8 first_block)) k kt) MfClassicErrorNone)
         w r.2
    /\ forall q, 0 <= q < wrap8 blocks_in_sector ->
         emitted (EvNfc (CallReadBlock (wrap8 (wrap8 first_block + q)) k kt)
                    MfClassicErrorNone) w r.2.
Proof.
  intros r. subst r. unfold read_sector_with_keys. rewrite bind_eq.
  cbn [get_app fst snd].
  destruct (mf_classic_get_sector_trailer_by_sector _ _) as [sec_tr |];
    [| discriminate].
  intros Hok. destruct (try_keys_true _ _ _ _ _ _ Hok) as (k & kt & Hin & Ha & Hr).
  exists sec_tr, k, kt. auto.
Qed.

(** ** A card that accepts the first candidate *)

Lemma read_block_retry_first_try_trace nfc k kt
    (read_ok : forall history b,
       reply_error (nfc history (CallReadBlock b k kt)) = MfClassicErrorNone) b w :
  trace (read_block_retry nfc 3 0 b k kt w).2
  = trace w ++ [EvNfc (CallReadBlock (wrap8 b) k kt) MfClassicErrorNone].
Proof.
  cbn [read_block_retry]. change (0 <? 3) with true. change (0 <? 0) with false.
  unfold when. rewrite !bind_eq. cbn [ret fst snd].
  rewrite read_block_fst, read_ok. cbn [is_none ret snd].
  rewrite read_block_trace, read_block_fst, read_ok. reflexivity.
Qed.

Lemma read_blocks_opening_trace nfc k kt
    (auth_ok : forall history b,
       reply_error (nfc history (CallAuth b k kt)) = MfClassicErrorNone)
    (read_ok : forall history b,
       reply_error (nfc history (CallReadBlock b k kt)) = MfClassicErrorNone)
    sector first count : forall p w,
  trace (read_blocks nfc count p sector first k kt w).2
  = trace w ++ sector_calls first k kt p count.
Proof.
  induction count as [| count IH]; intros p w.
  - cbn. now rewrite app_nil_r.
  - unfold sector_calls. cbn [read_blocks indices_from flat_map]. rewrite !bind_eq.
    fold (sector_calls first k kt (p + 1) count).
    destruct (reauth_due p).
    + rewrite !bind_eq, auth_fst, auth_ok. cbn [is_none negb ret fst snd].
      rewrite !bind_eq, read_block_retry_first_try by assumption. cbn [negb].
      rewrite IH, read_block_retry_first_try_trace, auth_trace, auth_fst, auth_ok
        by assumption.
      rewrite <- !app_assoc. reflexivity.
    + cbn [ret fst snd negb].
      rewrite !bind_eq, read_block_retry_first_try by assumption. cbn [negb].
      rewrite IH, read_block_retry_first_try_trace by assumption.
      rewrite <- !app_assoc. reflexivity.
Qed.

Lemma sector_calls_key first k kt count : forall p ev,
  In ev (sector_calls first k kt p count) -> event_key ev = Some (k, kt).
Proof.
  induction count as [| count IH]; intros p ev; [intros [] |].
  unfold sector_calls. cbn [indices_from flat_map].
  fold (sector_calls first k kt (p + 1) count).
  rewrite !in_app_iff. intros [[Hin | Hin] | Hin].
  - destruct (reauth_due p); [| destruct Hin].
    destruct Hin as [<- | []]. reflexivity.
  - destruct Hin as [<- | []]. reflexivity.
  - eapply IH. exact Hin.
Qed.

(** X5. When the card serves every authentication and read made with the
    first candidate of a sector, the reader stops at that candidate: one
    attempt and one success are counted, the sector is reported as read,
    and its calls are the authentication, the blocks in order (with the
    re-authentication before every second block) and the closing 10 ms
    pause.  No call carries another key, so the 0xFF fallback is never
    shown to a card that accepts the first dump key. *)
Theorem first_candidate_opens_sector
    nfc sector first_block blocks_in_sector w sec_tr k kt rest :
  mf_classic_get_sector_trailer_by_sector (mf_classic_data (app w)) sector = Some sec_tr ->
  keys_to_try (mf_classic_data (app w)) sector sec_tr = (k, kt) :: rest ->
  (forall history b, reply_error (nfc history (CallAuth b k kt)) = MfClassicErrorNone) ->
  (forall history b,
     reply_error (nfc history (CallReadBlock b k kt)) = MfClassicErrorNone) ->
  let r := read_sector_with_keys nfc sector first_block blocks_in_sector w in
  r.1 = true
  /\ new_events w r.2
     = EvNfc (CallAuth (wrap8 (wrap8 first_block)) k kt) MfClassicErrorNone
       :: sector_calls (wrap8 first_block) k kt 0 (Z.to_nat (wrap8 blocks_in_sector))
       ++ [EvDelay 10]
  /\ (forall ev, In ev (new_events w r.2) -> is_auth_call ev || is_read_call ev = true ->
        event_key ev = Some (k, kt))
  /\ auth_attempts (verify_tracker r.2) = wrap32 (auth_attempts (verify_tracker w) + 1)
  /\ auth_successes (verify_tracker r.2)
     = wrap32 (auth_successes (verify_tracker w) + 1).
Proof.
  intros Htr Hkeys Hauth Hread r.
  assert (Hrun : r.1 = true
    /\ trace r.2 = trace w
         ++ EvNfc (CallAuth (wrap8 (wrap8 first_block)) k kt) MfClassicErrorNone
         :: sector_calls (wrap8 first_block) k kt 0 (Z.to_nat (wrap8 blocks_in_sector))
         ++ [EvDelay 10]
    /\ auth_attempts (verify_tracker r.2) = wrap32 (auth_attempts (verify_tracker w) + 1)
    /\ auth_successes (verify_tracker r.2)
       = wrap32 (auth_successes (verify_tracker w) + 1)).
  { subst r. unfold read_sector_with_keys. rewrite bind_eq. cbn [get_app fst snd].
    rewrite Htr, Hkeys. cbn [try_keys].
    rewrite !bind_eq, auth_fst, Hauth. cbn [is_none negb].
    rewrite !bind_eq, read_blocks_all_read by assumption.
    rewrite !bind_eq. cbn [ret fst snd].
    split; [reflexivity |]. split.
    - unfold furi_delay_ms, emit, set_target_data, modify_app. cbn [snd trace].
      rewrite read_blocks_opening_trace by assumption.
      cbn [incr_auth_successes modify_tracker snd trace].
      rewrite auth_trace, auth_fst, Hauth. cbn [incr_auth_attempts modify_tracker snd trace].
      rewrite <- !app_assoc. reflexivity.
    - unfold furi_delay_ms, set_target_data.
      rewrite !(kept_tracker (emit _)), !(kept_tracker (modify_app _)) by auto with frame.
      rewrite !(kept_tracker (read_blocks _ _ _ _ _ _ _)) by auto with frame.
      cbn. auto. }
  destruct Hrun as (Hok & Htrace & Ha & Hs).
  split; [exact Hok |]. rewrite (new_events_app _ _ _ Htrace).
  split; [reflexivity |]. split; [| split; assumption].
  intros ev [<- | Hin] Hcall; [reflexivity |].
  apply in_app_iff in Hin. destruct Hin as [Hin | [<- | []]].
  - eapply sector_calls_key. exact Hin.
  - discriminate.
Qed.

(** ** The bulk read *)

Lemma read_sectors_false nfc count : forall sector w,
  (read_sectors nfc count sector false w).1 = false.
Proof.
  induction count as [| count IH]; intros sector w; [reflexivity |].
  cbn [read_sectors]. rewrite !bind_eq.
  destruct (read_sector_with_keys _ _ _ _ _).1; rewrite !bind_eq; apply IH.
Qed.

Lemma read_sectors_accounting nfc count : forall sector ok w,
  in_uint32 (sectors_read (verify_tracker w)) ->
  in_uint32 (sectors_failed (verify_tracker w)) ->
  exists read failed : nat,
    (read + failed = count)%nat
    /\ (read_sectors nfc count sector ok w).1 = ok && (failed =? 0)%nat
    /\ sectors_read (verify_tracker (read_sectors nfc count sector ok w).2)
       = wrap32 (sectors_read (verify_tracker w) + Z.of_nat read)
    /\ sectors_failed (verify_tracker (read_sectors nfc count sector ok w).2)
       = wrap32 (sectors_failed (verify_tracker w) + Z.of_nat failed).
Proof.
  induction count as [| count IH]; intros sector ok w Hr Hf.
  - exists 0%nat, 0%nat. cbn. rewrite andb_true_r, !Z.add_0_r, !wrap32_small by assumption.
    auto.
  - cbn [read_sectors]. rewrite !bind_eq.
    set (w1 := (furi_delay_ms 50 _).2).
    pose proof (read_sector_with_keys_counters nfc sector
                  (mf_classic_get_first_block_num_of_sector sector)
                  (mf_classic_get_blocks_num_in_sector sector) w1)
      as (_ & _ & Hsr & Hsf & _).
    set (rs := read_sector_with_keys nfc sector _ _ w1) in *.
    replace (sectors_read (verify_tracker w1)) with (sectors_read (verify_tracker w))
      in Hsr by reflexivity.
    replace (sectors_failed (verify_tracker w1)) with (sectors_failed (verify_tracker w))
      in Hsf by reflexivity.
    destruct rs.1; rewrite !bind_eq.
    + set (w2 := (furi_delay_ms 50 _).2).
      assert (H2r : sectors_read (verify_tracker w2)
                    = wrap32 (sectors_read (verify_tracker w) + 1))
        by (rewrite <- Hsr; reflexivity).
      assert (H2f : sectors_failed (verify_tracker w2)
                    = sectors_failed (verify_tracker w))
        by (rewrite <- Hsf; reflexivity).
      destruct (IH (sector + 1) ok w2) as (a & b & Hsum & Hres & Ha & Hb).
      * rewrite H2r. apply wrap32_in_uint32.
      * rewrite H2f. exact Hf.
      * exists (S a), b. rewrite Hres, Ha, Hb, H2r, H2f, wrap32_add_succ.
        repeat split. lia.
    + set (w2 := (set_error_details _ _).2).
      assert (H2r : sectors_read (verify_tracker w2)
                    = sectors_read (verify_tracker w))
        by (rewrite <- Hsr; reflexivity).
      assert (H2f : sectors_failed (verify_tracker w2)
                    = wrap32 (sectors_failed (verify_tracker w) + 1))
        by (rewrite <- Hsf; reflexivity).
      destruct (IH (sector + 1) false w2) as (a & b & Hsum & Hres & Ha & Hb).
      * rewrite H2r. exact Hr.
      * rewrite H2f. apply wrap32_in_uint32.
      * exists a, (S b). rewrite Hres, Ha, Hb, H2r, H2f, wrap32_add_succ.
        cbn [Nat.eqb]. rewrite andb_false_r. repeat split. lia.
Qed.

Lemma read_sectors_total nfc count : forall sector ok w,
  total_sectors (verify_tracker (read_sectors nfc count sector ok w).2)
  = total_sectors (verify_tracker w).
Proof.
  induction count as [| count IH]; intros sector ok w; [reflexivity |].
  cbn [read_sectors]. rewrite !bind_eq.
  set (w1 := (furi_delay_ms 50 _).2).
  pose proof (read_sector_with_keys_counters nfc sector
                (mf_classic_get_first_block_num_of_sector sector)
                (mf_classic_get_blocks_num_in_sector sector) w1)
    as (_ & Hts & _).
  set (rs := read_sector_with_keys nfc sector _ _ w1) in *.
  destruct rs.1; rewrite !bind_eq, IH; etransitivity; try exact Hts; reflexivity.
Qed.

Lemma total_sectors_small t :
  wrap32 (mf_classic_get_total_sectors_num t) = mf_classic_get_total_sectors_num t
  /\ 0 < mf_classic_get_total_sectors_num t <= 40.
Proof. destruct t; vm_compute; repeat split; congruence. Qed.

(** X7. With valid reference data the bulk read goes through every sector
    of the card, whether earlier sectors failed or not: the sectors counted
    as read and those counted as failed add up to the number of sectors of
    the card type, the read succeeds exactly when no sector failed, and it
    ends with [current_sector = total_sectors] and [reading_complete] set. *)
Theorem bulk_read_accounting nfc reset w :
  is_valid_nfc_data (app w) = true ->
  in_uint32 (sectors_read (verify_tracker w)) ->
  in_uint32 (sectors_failed (verify_tracker w)) ->
  let r := miband_verify_read_card nfc reset w in
  let total := mf_classic_get_total_sectors_num (type (mf_classic_data (app w))) in
  exists read failed : nat,
    Z.of_nat (read + failed) = total
    /\ (r.1 = true <-> failed = 0%nat)
    /\ sectors_read (verify_tracker r.2)
       = wrap32 (sectors_read (verify_tracker w) + Z.of_nat read)
    /\ sectors_failed (verify_tracker r.2)
       = wrap32 (sectors_failed (verify_tracker w) + Z.of_nat failed)
    /\ total_sectors (verify_tracker r.2) = total
    /\ current_sector (verify_tracker r.2) = total
    /\ reading_complete (verify_tracker r.2) = true.
Proof.
  intros Hvalid Hr Hf r total.
  destruct (total_sectors_small (type (mf_classic_data (app w)))) as [Hwrap Hrange].
  fold total in Hwrap, Hrange.
  subst r. unfold miband_verify_read_card. rewrite bind_eq. cbn [get_app fst snd].
  rewrite Hvalid. cbn [negb]. rewrite !bind_eq. cbn [get_tracker fst snd].
  set (w1 := (set_target_data (fun d => set_type d _) _).2).
  replace (total_sectors (verify_tracker w1)) with (wrap32 total) by reflexivity.
  rewrite Hwrap.
  destruct (read_sectors_accounting nfc (Z.to_nat total) 0 true w1 Hr Hf)
    as (a & b & Hsum & Hres & Ha & Hb).
  exists a, b.
  pose proof (read_sectors_total nfc (Z.to_nat total) 0 true w1) as Htotal.
  destruct (read_sectors nfc (Z.to_nat total) 0 true w1) as [ok w2].
  cbn [fst snd andb] in *.
  replace (total_sectors (verify_tracker w1)) with (wrap32 total) in Htotal
    by reflexivity.
  rewrite Hwrap in Htotal.
  replace (sectors_read (verify_tracker w1)) with (sectors_read (verify_tracker w))
    in Ha by reflexivity.
  replace (sectors_failed (verify_tracker w1)) with (sectors_failed (verify_tracker w))
    in Hb by reflexivity.
  split; [lia |]. split.
  { rewrite Hres. destruct ok; cbn; destruct b; cbn in *; split; congruence. }
  destruct ok; cbn; rewrite ?Hwrap; auto.
Qed.

Lemma read_sector_with_keys_true_flags nfc sector first n w key_type :
  0 <= sector < 64 ->
  (read_sector_with_keys nfc sector first n w).1 = true ->
  mf_classic_is_key_found
    (target_data (app (read_sector_with_keys nfc sector first n w).2)) sector key_type
  = true.
Proof.
  intros Hs Hok.
  destruct (read_sector_with_keys nfc sector first n w) as [ok w'] eqn:Hrun.
  cbn [fst snd] in *. subst ok.
  unfold read_sector_with_keys in Hrun. rewrite bind_eq in Hrun.
  cbn [get_app fst snd] in Hrun.
  destruct (mf_classic_get_sector_trailer_by_sector _ _) in Hrun; [| discriminate].
  destruct (try_keys_true_sets_masks _ _ _ _ _ _ _ Hs Hrun) as [HA HB].
  destruct key_type; assumption.
Qed.

(** The sectors the loop does not visit keep their flags, and the card type
    of the target is not touched. *)
Lemma read_sectors_other_flags nfc count : forall sector ok w,
  0 <= sector ->
  type (target_data (app (read_sectors nfc count sector ok w).2))
  = type (target_data (app w))
  /\ forall m key_type,
       0 <= m < 64 -> ~ (sector <= m < sector + Z.of_nat count) ->
       mf_classic_is_key_found
         (target_data (app (read_sectors nfc count sector ok w).2)) m key_type
       = mf_classic_is_key_found (target_data (app w)) m key_type.
Proof.
  induction count as [| count IH]; intros sector ok w Hs; [split; reflexivity |].
  cbn [read_sectors]. rewrite !bind_eq.
  set (w1 := (furi_delay_ms 50 _).2).
  assert (Hw1 : target_data (app w1) = target_data (app w)) by reflexivity.
  pose proof (read_sector_with_keys_target nfc sector
                (mf_classic_get_first_block_num_of_sector sector)
                (mf_classic_get_blocks_num_in_sector sector) w1) as (Htype & _).
  pose proof (fun m kt => read_sector_other_flags nfc sector
                (mf_classic_get_first_block_num_of_sector sector)
                (mf_classic_get_blocks_num_in_sector sector) w1 m kt Hs) as Hflags.
  set (rs := read_sector_with_keys nfc sector _ _ w1) in *.
  rewrite Hw1 in Htype, Hflags.
  destruct rs.1; rewrite !bind_eq.
  - set (w2 := (furi_delay_ms 50 _).2).
    assert (Hw2 : target_data (app w2) = target_data (app rs.2)) by reflexivity.
    destruct (IH (sector + 1) ok w2) as [IHt IHf]; [lia |].
    rewrite Hw2 in IHt, IHf. split; [congruence |].
    intros m kt Hm Hout. rewrite IHf, Hflags by lia. reflexivity.
  - set (w2 := (set_error_details _ _).2).
    assert (Hw2 : target_data (app w2) = target_data (app rs.2)) by reflexivity.
    destruct (IH (sector + 1) false w2) as [IHt IHf]; [lia |].
    rewrite Hw2 in IHt, IHf. split; [congruence |].
    intros m kt Hm Hout. rewrite IHf, Hflags by lia. reflexivity.
Qed.

Lemma read_sectors_true_flags nfc count : forall sector ok w,
  0 <= sector -> sector + Z.of_nat count <= 64 ->
  (read_sectors nfc count sector ok w).1 = true ->
  forall s key_type, sector <= s < sector + Z.of_nat count ->
    mf_classic_is_key_found
      (target_data (app (read_sectors nfc count sector ok w).2)) s key_type = true.
Proof.
  induction count as [| count IH]; intros sector ok w Hs Hhi Hok s kt Hin; [lia |].
  revert Hok. cbn [read_sectors]. rewrite !bind_eq.
  set (w1 := (furi_delay_ms 50 _).2).
  pose proof (read_sector_with_keys_true_flags nfc sector
                (mf_classic_get_first_block_num_of_sector sector)
                (mf_classic_get_blocks_num_in_sector sector) w1 kt) as Hset.
  set (rs := read_sector_with_keys nfc sector _ _ w1) in *.
  destruct rs.1; rewrite !bind_eq.
  2:{ rewrite read_sectors_false. discriminate. }
  set (w2 := (furi_delay_ms 50 _).2).
  assert (Hw2 : target_data (app w2) = target_data (app rs.2)) by reflexivity.
  intros Hok.
  destruct (Z.eq_dec s sector) as [-> | Hne].
  - destruct (read_sectors_other_flags nfc count (sector + 1) ok w2) as [_ Hkeep];
      [lia |].
    rewrite Hkeep, Hw2 by lia. apply Hset; [lia | reflexivity].
  - apply IH; [lia | lia | exact Hok | lia].
Qed.

(** X8. With valid reference data the bulk read leaves the target image
    with the card type of the dump; and when it succeeds, the image records
    Key A and Key B as known for every sector of the card, the flags set
    for the early sectors surviving the reads of the later ones. *)
Theorem bulk_read_marks_every_sector nfc reset w :
  is_valid_nfc_data (app w) = true ->
  let r := miband_verify_read_card nfc reset w in
  type (target_data (app r.2)) = type (mf_classic_data (app w))
  /\ (r.1 = true ->
      forall s key_type,
        0 <= s < mf_classic_get_total_sectors_num (type (mf_classic_data (app w))) ->
        mf_classic_is_key_found (target_data (app r.2)) s key_type = true).
Proof.
  intros Hvalid r.
  destruct (total_sectors_small (type (mf_classic_data (app w)))) as [Hwrap Hrange].
  subst r. unfold miband_verify_read_card. rewrite bind_eq. cbn [get_app fst snd].
  rewrite Hvalid. cbn [negb]. rewrite !bind_eq. cbn [get_tracker fst snd].
  set (w1 := (set_target_data (fun d => set_type d _) _).2).
  replace (total_sectors (verify_tracker w1))
    with (wrap32 (mf_classic_get_total_sectors_num (type (mf_classic_data (app w)))))
    by reflexivity.
  rewrite Hwrap.
  set (total := mf_classic_get_total_sectors_num (type (mf_classic_data (app w)))) in *.
  assert (Htype1 : type (target_data (app w1)) = type (mf_classic_data (app w)))
    by reflexivity.
  destruct (read_sectors_other_flags nfc (Z.to_nat total) 0 true w1) as [Htype _];
    [lia |].
  pose proof (read_sectors_true_flags nfc (Z.to_nat total) 0 true w1) as Hflags.
  destruct (read_sectors nfc (Z.to_nat total) 0 true w1) as [ok w2].
  cbn [fst snd] in *.
  assert (Hfinal : forall w3 : World,
            target_data (app w3) = target_data (app w2) ->
            type (target_data (app w3)) = type (mf_classic_data (app w))
            /\ (ok = true -> forall s key_type, 0 <= s < total ->
                  mf_classic_is_key_found (target_data (app w3)) s key_type = true)).
  { intros w3 ->. split; [congruence |].
    intros Hok s kt Hs. apply Hflags; [lia | lia | exact Hok | lia]. }
  destruct ok; apply Hfinal; reflexivity.
Qed.

(** ** What the comparison looks at *)

Lemma bytes_eqb_eq a : forall b, bytes_eqb a b = true <-> a = b.
Proof.
  induction a as [| x a IH]; intros [| y b]; cbn; try (split; congruence).
  rewrite andb_true_iff, IH. split.
  - intros [Hxy ->]. apply Byte.byte_dec_bl in Hxy. congruence.
  - intros [= -> ->]. split; [apply Byte.byte_dec_lb |]; reflexivity.
Qed.

Lemma memcmp16_differs_false a b :
  memcmp16_differs a b = false <-> firstn 16 a = firstn 16 b.
Proof. unfold memcmp16_differs. rewrite negb_false_iff. apply bytes_eqb_eq. Qed.

Lemma filter_nil_iff {A} (f : A -> bool) l :
  List.filter f l = [] <-> forall x, In x l -> f x = false.
Proof.
  induction l as [| a l IH]; cbn.
  - split; [intros _ x [] | reflexivity].
  - destruct (f a) eqn:Hfa.
    + split; [discriminate |]. intros H. specialize (H a (or_introl eq_refl)). congruence.
    + rewrite IH. split.
      * intros H x [<- | Hin]; auto.
      * intros H x Hin. apply H. right. exact Hin.
Qed.

Lemma mismatched_nil_iff a total :
  mismatched_blocks a total = [] <->
  forall i, 0 < i < total -> mf_classic_is_sector_trailer i = false ->
    firstn 16 (get_block (mf_classic_data a) i) = firstn 16 (get_block (target_data a) i).
Proof.
  unfold mismatched_blocks, mismatched_from. rewrite filter_nil_iff.
  split.
  - intros H i Hi Htr. apply memcmp16_differs_false.
    specialize (H i). rewrite in_indices_from in H.
    assert (Hex : excluded_block i = false).
    { unfold excluded_block. rewrite Htr. replace (i =? 0) with false; [reflexivity |].
      symmetry. apply Z.eqb_neq. lia. }
    rewrite Hex in H. cbn in H. apply H. lia.
  - intros H i Hin. apply in_indices_from in Hin.
    destruct (excluded_block i) eqn:Hex; [reflexivity |]. cbn.
    unfold excluded_block in Hex. apply orb_false_iff in Hex as [Hz Htr].
    apply Z.eqb_neq in Hz. apply memcmp16_differs_false. apply H; [lia | exact Htr].
Qed.

(** X9. The comparison loop reports a match exactly when dump and card agree
    on the 16 bytes of every block that is neither block 0 nor a sector
    trailer; whatever block 0 and the trailers hold (UID, keys, access
    bits) never makes it report a difference.  Its verdict and its count
    agree: a match is a count of zero. *)
Theorem comparison_matches_iff_data_blocks_equal w total_blocks :
  let r := compare_blocks (Z.to_nat total_blocks) 0 total_blocks true 0 w in
  (r.1.1 = true <->
     forall i, 0 < i < total_blocks -> mf_classic_is_sector_trailer i = false ->
       firstn 16 (get_block (mf_classic_data (app w)) i)
       = firstn 16 (get_block (target_data (app w)) i))
  /\ (r.1.1 = true <-> r.1.2 = 0).
Proof.
  intros r. subst r. rewrite compare_blocks_verdict. cbn [fst snd andb].
  fold (mismatched_blocks (app w) total_blocks).
  rewrite <- mismatched_nil_iff, Z.add_0_l, Z.eqb_eq.
  split; [| reflexivity].
  destruct (mismatched_blocks (app w) total_blocks); cbn [length];
    split; try reflexivity; try discriminate; lia.
Qed.

(** ** A card that refuses every key *)

#[local] Instance no_read_calls_preorder : PreOrder no_read_calls.
Proof.
  split.
  - intros w. exists []. split; [now rewrite app_nil_r | reflexivity].
  - intros w1 w2 w3 (e1 & H1 & F1) (e2 & H2 & F2). exists (e1 ++ e2). split.
    + rewrite H2, H1, app_assoc. reflexivity.
    + rewrite List.filter_app, F1, F2. reflexivity.
Qed.

Ltac prim_no_read :=
  let w := fresh "w" in
  intros w;
  unfold no_read_calls, mf_classic_poller_sync_auth, set_target_data, set_poller,
    scene_manager_set_scene_state, modify_app, modify_tracker, emit;
  cbn [fst snd trace];
  first [ exists []; split; [now rewrite app_nil_r | reflexivity]
        | eexists; split; [reflexivity | reflexivity] ].

Section RefusingCard.
Variable nfc : Driver.
Hypothesis refused : forall history b k kt,
  reply_error (nfc history (CallAuth b k kt)) <> MfClassicErrorNone.

Lemma refused_is_not_none history b k kt :
  negb (is_none (reply_error (nfc history (CallAuth b k kt)))) = true.
Proof.
  pose proof (refused history b k kt) as H.
  destruct (reply_error _); [congruence | reflexivity ..].
Qed.

Lemma try_keys_refused sector first n keys : forall w,
  (try_keys nfc keys sector first n w).1 = false
  /\ app (try_keys nfc keys sector first n w).2 = app w
  /\ no_read_calls w (try_keys nfc keys sector first n w).2.
Proof.
  induction keys as [| [k kt] keys IH]; intros w.
  - repeat split. reflexivity.
  - cbn [try_keys]. rewrite !bind_eq, auth_fst, refused_is_not_none.
    set (w1 := (mf_classic_poller_sync_auth nfc first k kt (incr_auth_attempts w).2).2).
    destruct (IH w1) as (Hres & Happ & Hno).
    split; [exact Hres |]. split; [rewrite Happ; reflexivity |].
    transitivity w1; [| exact Hno].
    subst w1. unfold mf_classic_poller_sync_auth, emit. cbn [fst snd trace].
    eexists. split; reflexivity.
Qed.

Lemma read_sector_with_keys_refused sector first n w :
  (read_sector_with_keys nfc sector first n w).1 = false
  /\ app (read_sector_with_keys nfc sector first n w).2 = app w
  /\ no_read_calls w (read_sector_with_keys nfc sector first n w).2.
Proof.
  unfold read_sector_with_keys. rewrite bind_eq. cbn [get_app fst snd].
  destruct (mf_classic_get_sector_trailer_by_sector _ _).
  - apply try_keys_refused.
  - repeat split. reflexivity.
Qed.

Lemma read_sectors_refused count : forall sector ok w,
  in_uint32 (sectors_failed (verify_tracker w)) ->
  let r := read_sectors nfc count sector ok w in
  r.1 = ok && (Z.of_nat count =? 0)
  /\ app r.2 = app w
  /\ no_read_calls w r.2
  /\ sectors_failed (verify_tracker r.2)
     = wrap32 (sectors_failed (verify_tracker w) + Z.of_nat count)
  /\ sectors_read (verify_tracker r.2) = sectors_read (verify_tracker w)
  /\ blocks_compared (verify_tracker r.2) = blocks_compared (verify_tracker w).
Proof.
  induction count as [| count IH]; intros sector ok w Hf r; subst r.
  - cbn. rewrite andb_true_r, Z.add_0_r, wrap32_small by assumption.
    repeat split. reflexivity.
  - cbn [read_sectors]. rewrite !bind_eq.
    set (w1 := (furi_delay_ms 50 _).2).
    assert (Hw1 : no_read_calls w w1).
    { subst w1. unfold_setters. unfold no_read_calls, emit, modify_tracker.
      cbn [fst snd trace]. rewrite <- app_assoc. eexists. split; reflexivity. }
    destruct (read_sector_with_keys_refused sector
                (mf_classic_get_first_block_num_of_sector sector)
                (mf_classic_get_blocks_num_in_sector sector) w1) as (Hres & Happ & Hno).
    pose proof (read_sector_with_keys_counters nfc sector
                  (mf_classic_get_first_block_num_of_sector sector)
                  (mf_classic_get_blocks_num_in_sector sector) w1)
      as (_ & _ & Hsr & Hsf & Hbc & _).
    set (rs := read_sector_with_keys nfc sector _ _ w1) in *.
    replace (sectors_read (verify_tracker w1)) with (sectors_read (verify_tracker w))
      in Hsr by reflexivity.
    replace (sectors_failed (verify_tracker w1)) with (sectors_failed (verify_tracker w))
      in Hsf by reflexivity.
    replace (blocks_compared (verify_tracker w1))
      with (blocks_compared (verify_tracker w)) in Hbc by reflexivity.
    replace (app w1) with (app w) in Happ by reflexivity.
    rewrite Hres, !bind_eq.
    set (w2 := (set_error_details _ _).2).
    assert (H2f : sectors_failed (verify_tracker w2)
                  = wrap32 (sectors_failed (verify_tracker w) + 1))
      by (rewrite <- Hsf; reflexivity).
    assert (H2r : sectors_read (verify_tracker w2) = sectors_read (verify_tracker w))
      by (rewrite <- Hsr; reflexivity).
    assert (H2c : blocks_compared (verify_tracker w2)
                  = blocks_compared (verify_tracker w))
      by (rewrite <- Hbc; reflexivity).
    assert (H2a : app w2 = app w) by (rewrite <- Happ; reflexivity).
    assert (H2n : no_read_calls rs.2 w2).
    { subst w2. unfold_setters. unfold no_read_calls, modify_tracker.
      cbn [fst snd trace]. exists []. split; [now rewrite app_nil_r | reflexivity]. }
    destruct (IH (sector + 1) false w2) as (IH1 & IH2 & IH3 & IH4 & IH5 & IH6).
    { rewrite H2f. apply wrap32_in_uint32. }
    rewrite IH1, IH2, IH4, IH5, IH6, H2f, H2r, H2c, H2a, wrap32_add_succ.
    rewrite andb_false_l. replace (Z.of_nat (S count) =? 0) with false
      by (symmetry; apply Z.eqb_neq; lia).
    rewrite andb_false_r. repeat split.
    transitivity w1; [exact Hw1 |]. transitivity rs.2; [exact Hno |].
    transitivity w2; assumption.
Qed.

End RefusingCard.

Lemma miband_verify_read_card_refused nfc reset w :
  (forall history b k kt,
     reply_error (nfc history (CallAuth b k kt)) <> MfClassicErrorNone) ->
  is_valid_nfc_data (app w) = true ->
  in_uint32 (sectors_failed (verify_tracker w)) ->
  let r := miband_verify_read_card nfc reset w in
  r.1 = false
  /\ target_data (app r.2)
     = set_type (reset (target_data (app w))) (type (mf_classic_data (app w)))
  /\ no_read_calls w r.2
  /\ sectors_failed (verify_tracker r.2)
     = wrap32 (sectors_failed (verify_tracker w)
               + mf_classic_get_total_sectors_num (type (mf_classic_data (app w))))
  /\ sectors_read (verify_tracker r.2) = sectors_read (verify_tracker w)
  /\ blocks_compared (verify_tracker r.2) = blocks_compared (verify_tracker w).
Proof.
  intros Hrefused Hvalid Hf r.
  destruct (total_sectors_small (type (mf_classic_data (app w)))) as [Hwrap Hrange].
  subst r. unfold miband_verify_read_card. rewrite bind_eq. cbn [get_app fst snd].
  rewrite Hvalid. cbn [negb]. rewrite !bind_eq. cbn [get_tracker fst snd].
  set (w1 := (set_target_data (fun d => set_type d _) _).2).
  assert (Hw1 : no_read_calls w w1).
  { subst w1. unfold_setters. unfold no_read_calls, set_target_data, emit, modify_tracker,
      modify_app. cbn [fst snd trace]. eexists. split; reflexivity. }
  replace (total_sectors (verify_tracker w1))
    with (wrap32 (mf_classic_get_total_sectors_num (type (mf_classic_data (app w)))))
    by reflexivity.
  rewrite Hwrap.
  set (total := mf_classic_get_total_sectors_num (type (mf_classic_data (app w)))) in *.
  destruct (read_sectors_refused nfc Hrefused (Z.to_nat total) 0 true w1 Hf)
    as (Hres & Happ & Hno & Hsf & Hsr & Hbc).
  rewrite Z2Nat.id in Hres, Hsf by lia.
  replace (total =? 0) with false in Hres by (symmetry; apply Z.eqb_neq; lia).
  destruct (read_sectors nfc (Z.to_nat total) 0 true w1) as [ok w2].
  cbn [fst snd andb] in *. subst ok.
  rewrite !bind_eq. cbn [ret fst snd].
  split; [reflexivity |].
  split; [cbn; rewrite Happ; reflexivity |].
  split.
  { transitivity w1; [exact Hw1 |]. transitivity w2; [exact Hno |].
    unfold_setters. unfold no_read_calls, emit, modify_tracker. cbn [fst snd trace].
    rewrite <- app_assoc. eexists. split; reflexivity. }
  cbn. rewrite Hsf, Hsr, Hbc. auto.
Qed.

Lemma show_read_failed_outcome w :
  reported_outcome (trace (show_read_failed w).2) = Some OutcomeReadFailed.
Proof.
  unfold show_read_failed, furi_delay_ms, update_verify_ui, set_error_details.
  rewrite !bind_eq. unfold emit, modify_tracker. cbn [fst snd trace].
  unfold reported_outcome. rewrite !rev_unit. reflexivity.
Qed.

Lemma release_poller_effect w :
  poller (app (release_poller w).2) = false
  /\ target_data (app (release_poller w).2) = target_data (app w)
  /\ mf_classic_data (app (release_poller w).2) = mf_classic_data (app w)
  /\ is_valid_nfc_data (app (release_poller w).2) = is_valid_nfc_data (app w)
  /\ scene_state (app (release_poller w).2) = scene_state (app w)
  /\ verify_tracker (release_poller w).2 = verify_tracker w
  /\ custom_events (release_poller w).2 = custom_events w
  /\ trace (release_poller w).2
     = trace w ++ (if poller (app w) then [EvPollerStop; EvPollerFree] else []).
Proof.
  unfold release_poller. rewrite bind_eq. cbn [get_app fst snd].
  destruct (poller (app w)) eqn:Hp.
  - rewrite !bind_eq. cbn. rewrite <- app_assoc. repeat split.
  - cbn. rewrite app_nil_r. repeat split. exact Hp.
Qed.

(** X11. On a card that refuses every authentication, handling the
    poller-done event with valid reference data never asks for a block:
    every sector of the card is counted as failed and none as read, the
    target image is left as the reset made it (with the card type of the
    dump), the comparison is skipped ([blocks_compared] does not move),
    and the run ends on the read-failure screen. *)
Theorem refused_card_is_never_read nfc reset w :
  is_valid_nfc_data (app w) = true ->
  in_uint32 (sectors_failed (verify_tracker w)) ->
  (forall history b k kt,
     reply_error (nfc history (CallAuth b k kt)) <> MfClassicErrorNone) ->
  let final := (miband_nfc_scene_verify_on_event nfc reset
                  (SceneManagerEventTypeCustom MiBandNfcCustomEventPollerDone) w).2 in
  reported_outcome (trace final) = Some OutcomeReadFailed
  /\ no_read_calls w final
  /\ target_data (app final)
     = set_type (reset (target_data (app w))) (type (mf_classic_data (app w)))
  /\ sectors_failed (verify_tracker final)
     = wrap32 (sectors_failed (verify_tracker w)
               + mf_classic_get_total_sectors_num (type (mf_classic_data (app w))))
  /\ sectors_read (verify_tracker final) = sectors_read (verify_tracker w)
  /\ blocks_compared (verify_tracker final) = blocks_compared (verify_tracker w).
Proof.
  intros Hvalid Hf Hrefused final. subst final.
  cbn [miband_nfc_scene_verify_on_event]. rewrite (bind_eq release_poller).
  rewrite (bind_eq (scene_manager_set_scene_state _)).
  destruct (release_poller_effect w) as (_ & Ht & Hd & Hv & _ & Htr & _ & Htrace).
  set (w0 := (scene_manager_set_scene_state MiBandNfcSceneVerifyStateComparison
                (release_poller w).2).2).
  assert (Hw0 : no_read_calls w w0).
  { exists (if poller (app w) then [EvPollerStop; EvPollerFree] else []).
    split; [exact Htrace | destruct (poller (app w)); reflexivity]. }
  assert (Ht0 : target_data (app w0) = target_data (app w))
    by (rewrite <- Ht; reflexivity).
  assert (Hd0 : mf_classic_data (app w0) = mf_classic_data (app w))
    by (rewrite <- Hd; reflexivity).
  assert (Hv0 : is_valid_nfc_data (app w0) = true)
    by (rewrite <- Hvalid, <- Hv; reflexivity).
  assert (Htr0 : verify_tracker w0 = verify_tracker w)
    by (rewrite <- Htr; reflexivity).
  destruct (miband_verify_read_card_refused nfc reset w0 Hrefused Hv0)
    as (Hres & Htarget & Hno & Hsf & Hsr & Hbc).
  { rewrite Htr0. exact Hf. }
  rewrite Htr0 in Hsf, Hsr, Hbc. rewrite Ht0, Hd0 in Htarget. rewrite Hd0 in Hsf.
  rewrite bind_eq.
  destruct (miband_verify_read_card nfc reset w0) as [ok wr].
  cbn [fst snd] in *. subst ok. cbn [negb]. rewrite bind_eq. cbn [ret snd].
  split; [apply show_read_failed_outcome |].
  split.
  { transitivity w0; [exact Hw0 |]. transitivity wr; [exact Hno |].
    unfold show_read_failed, furi_delay_ms, update_verify_ui, set_error_details.
    rewrite !bind_eq. unfold no_read_calls, emit, modify_tracker. cbn [fst snd trace].
    rewrite <- !app_assoc. eexists. split; reflexivity. }
  cbn. auto.
Qed.

(** ** A card that was written as the dump says *)

Lemma get_block_set_block d i b j :
  0 <= i -> 0 <= j -> (Z.to_nat i < length (block d))%nat ->
  get_block (set_block d i b) j = if j =? i then b else get_block d j.
Proof.
  intros Hi Hj Hlen. unfold get_block, set_block. cbn [block].
  destruct (Z.eqb_spec j i) as [-> | Hne].
  - rewrite list_lookup_insert_eq by exact Hlen. reflexivity.
  - rewrite list_lookup_insert_ne by lia. reflexivity.
Qed.

Lemma wrap8_small x : 0 <= x < 256 -> wrap8 x = x.
Proof. intros H. unfold wrap8. apply Z.mod_small. exact H. Qed.

Section FaithfulCard.
Variables (nfc : Driver) (dump : MfClassicData).
Hypothesis accepts : forall history c, reply_error (nfc history c) = MfClassicErrorNone.
Hypothesis serves : forall history b k kt,
  0 < b -> mf_classic_is_sector_trailer b = false ->
  reply_block (nfc history (CallReadBlock b k kt)) = get_block dump b.

Lemma read_block_retry_served b k kt w :
  target_data (app (read_block_retry nfc 3 0 b k kt w).2)
  = set_block (target_data (app w)) b
      (reply_block (nfc (trace w) (CallReadBlock (wrap8 b) k kt))).
Proof.
  cbn [read_block_retry]. change (0 <? 3) with true. change (0 <? 0) with false.
  unfold when. rewrite !bind_eq. cbn [ret fst snd].
  rewrite read_block_fst, accepts. cbn [is_none ret snd].
  unfold mf_classic_poller_sync_read_block. cbn [snd]. rewrite accepts. reflexivity.
Qed.

Lemma read_blocks_served sector first k kt count : forall p w,
  0 <= first + p -> first + p + Z.of_nat count <= 256 ->
  first + p + Z.of_nat count <= Z.of_nat (length (block (target_data (app w)))) ->
  forall i, first + p <= i < first + p + Z.of_nat count ->
    0 < i -> mf_classic_is_sector_trailer i = false ->
    get_block (target_data (app (read_blocks nfc count p sector first k kt w).2)) i
    = get_block dump i.
Proof.
  induction count as [| count IH]; intros p w Hlo Hhi Hlen i Hi Hpos Htr; [lia |].
  cbn [read_blocks]. rewrite !bind_eq.
  match goal with
  | |- context [(if reauth_due p then ?a else ?b) w] =>
      set (ra := (if reauth_due p then a else b) w)
  end.
  assert (Hra : ra.1 = true /\ app ra.2 = app w).
  { subst ra. destruct (reauth_due p); [| split; reflexivity].
    rewrite !bind_eq, auth_fst, accepts. split; reflexivity. }
  destruct Hra as [Hra1 Hra2]. rewrite Hra1. cbn [negb].
  rewrite !bind_eq.
  rewrite (read_block_retry_first_try nfc k kt (fun h b => accepts h _)).
  cbn [negb].
  pose proof (read_block_retry_served (first + p) k kt ra.2) as Hthis.
  set (rb := read_block_retry nfc 3 0 (first + p) k kt ra.2) in *.
  rewrite Hra2 in Hthis.
  assert (Hlen' : length (block (target_data (app rb.2)))
                  = length (block (target_data (app w)))).
  { rewrite Hthis. unfold set_block. cbn [block]. apply length_insert. }
  destruct (Z.eq_dec i (first + p)) as [-> | Hne].
  - destruct (read_blocks_target nfc sector first k kt count (p + 1) rb.2)
      as (_ & _ & Hout & _); [lia |].
    unfold get_block at 1. rewrite Hout by lia.
    fold (get_block (target_data (app rb.2)) (first + p)).
    rewrite Hthis, get_block_set_block, Z.eqb_refl by lia.
    rewrite wrap8_small by lia. apply serves; assumption.
  - apply IH; [lia | lia | rewrite Hlen'; lia | lia | exact Hpos | exact Htr].
Qed.

Lemma try_keys_served sector first n k kt rest w :
  0 <= first -> 0 <= n -> first + n <= 256 ->
  first + n <= Z.of_nat (length (block (target_data (app w)))) ->
  (try_keys nfc ((k, kt) :: rest) sector first n w).1 = true
  /\ forall i, first <= i < first + n ->
       0 < i -> mf_classic_is_sector_trailer i = false ->
       get_block (target_data (app (try_keys nfc ((k, kt) :: rest) sector first n w).2)) i
       = get_block dump i.
Proof.
  intros Hfirst Hn Hhi Hlen. cbn [try_keys].
  rewrite !bind_eq, auth_fst, accepts. cbn [is_none negb].
  rewrite !bind_eq.
  rewrite (read_blocks_all_read nfc k kt (fun h b => accepts h _) (fun h b => accepts h _)).
  rewrite !bind_eq. cbn [ret fst snd]. split; [reflexivity |].
  intros i Hi Hpos Htr.
  set (w2 := (incr_auth_successes _).2).
  pose proof (read_blocks_served sector first k kt (Z.to_nat n) 0 w2) as Hserved.
  rewrite Z.add_0_r, Z2Nat.id in Hserved by lia.
  specialize (Hserved Hfirst Hhi Hlen i Hi Hpos Htr).
  exact Hserved.
Qed.

End FaithfulCard.

Lemma sector_layout s :
  0 <= s < 40 ->
  mf_classic_get_first_block_num_of_sector s = sector_start s
  /\ wrap8 (sector_start s) = sector_start s
  /\ wrap8 (mf_classic_get_blocks_num_in_sector s) = mf_classic_get_blocks_num_in_sector s
  /\ 0 <= sector_start s
  /\ 0 < mf_classic_get_blocks_num_in_sector s
  /\ sector_start (s + 1) = sector_start s + mf_classic_get_blocks_num_in_sector s
  /\ sector_start (s + 1) <= 256
  /\ mf_classic_get_sector_trailer_num_by_sector s = sector_start (s + 1) - 1.
Proof.
  intros Hs.
  assert (Hstart : 0 <= sector_start s < 256 /\
                   sector_start (s + 1) = sector_start s + mf_classic_get_blocks_num_in_sector s
                   /\ sector_start (s + 1) <= 256).
  { unfold sector_start, mf_classic_get_blocks_num_in_sector.
    destruct (Z.ltb_spec s 32), (Z.ltb_spec (s + 1) 32); lia. }
  destruct Hstart as (Hrange & Hnext & Hmax).
  assert (Hfirst : mf_classic_get_first_block_num_of_sector s = sector_start s).
  { unfold mf_classic_get_first_block_num_of_sector. fold (sector_start s).
    apply wrap8_small. exact Hrange. }
  unfold mf_classic_get_sector_trailer_num_by_sector. rewrite Hfirst, Hnext.
  repeat split; try lia.
  - apply wrap8_small. exact Hrange.
  - unfold mf_classic_get_blocks_num_in_sector. destruct (s <? 32); reflexivity.
  - unfold mf_classic_get_blocks_num_in_sector. destruct (s <? 32); lia.
Qed.

Lemma total_blocks_layout t :
  sector_start (mf_classic_get_total_sectors_num t) = mf_classic_get_total_block_num t.
Proof. destruct t; reflexivity. Qed.

Section FaithfulRun.
Variables (nfc : Driver) (dump : MfClassicData).
Hypothesis accepts : forall history c, reply_error (nfc history c) = MfClassicErrorNone.
Hypothesis serves : forall history b k kt,
  0 < b -> mf_classic_is_sector_trailer b = false ->
  reply_block (nfc history (CallReadBlock b k kt)) = get_block dump b.

Lemma read_sector_faithful s w :
  0 <= s < 40 ->
  mf_classic_data (app w) = dump ->
  sector_start (s + 1) <= Z.of_nat (length (block dump)) ->
  sector_start (s + 1) <= Z.of_nat (length (block (target_data (app w)))) ->
  data_agrees dump (target_data (app w)) (sector_start s) ->
  let r := read_sector_with_keys nfc s (mf_classic_get_first_block_num_of_sector s)
             (mf_classic_get_blocks_num_in_sector s) w in
  r.1 = true
  /\ data_agrees dump (target_data (app r.2)) (sector_start (s + 1))
  /\ length (block (target_data (app r.2))) = length (block (target_data (app w))).
Proof.
  intros Hs Hdump Hlen_dump Hlen_target Hagree r.
  destruct (sector_layout s Hs) as (Hfirst & Hw8 & Hn8 & Hlo & Hn & Hnext & Hmax & Htrail).
  pose proof (read_sector_with_keys_target nfc s (mf_classic_get_first_block_num_of_sector s)
                (mf_classic_get_blocks_num_in_sector s) w) as (_ & Hlen & Hout & _).
  fold r in Hlen, Hout. rewrite Hfirst, Hw8, Hn8, <- Hnext in Hout.
  assert (Hrun : r.1 = true /\
            forall i, sector_start s <= i < sector_start (s + 1) -> 0 < i ->
              mf_classic_is_sector_trailer i = false ->
              get_block (target_data (app r.2)) i = get_block dump i).
  { subst r. unfold read_sector_with_keys. rewrite bind_eq. cbn [get_app fst snd].
    rewrite Hdump. unfold mf_classic_get_sector_trailer_by_sector. rewrite Htrail.
    destruct (lookup_lt_is_Some_2 (block dump) (Z.to_nat (sector_start (s + 1) - 1)))
      as [blk ->]; [lia |].
    cbn [fmap option_fmap option_map].
    assert (Hkeys : exists k kt rest,
              keys_to_try dump s (trailer_of_block blk) = (k, kt) :: rest).
    { rewrite keys_to_try_shape.
      destruct (mf_classic_is_key_found _ _ MfClassicKeyTypeA);
        destruct (mf_classic_is_key_found _ _ MfClassicKeyTypeB);
        cbn [List.app]; eauto. }
    destruct Hkeys as (k & kt & rest & ->).
    rewrite Hfirst, Hw8, Hn8, Hnext.
    apply (try_keys_served nfc dump accepts serves); lia. }
  destruct Hrun as [Hok Hin].
  split; [exact Hok |]. split; [| exact Hlen].
  intros i Hi Htr. destruct (Z.lt_ge_cases i (sector_start s)) as [Hbelow | Hinside].
  - unfold get_block at 1. rewrite Hout by lia. apply Hagree; [lia | exact Htr].
  - apply Hin; [lia | lia | exact Htr].
Qed.

Lemma read_sectors_faithful count : forall sector ok w,
  0 <= sector -> sector + Z.of_nat count <= 40 ->
  mf_classic_data (app w) = dump ->
  sector_start (sector + Z.of_nat count) <= Z.of_nat (length (block dump)) ->
  sector_start (sector + Z.of_nat count)
    <= Z.of_nat (length (block (target_data (app w)))) ->
  data_agrees dump (target_data (app w)) (sector_start sector) ->
  let r := read_sectors nfc count sector ok w in
  r.1 = ok
  /\ data_agrees dump (target_data (app r.2)) (sector_start (sector + Z.of_nat count)).
Proof.
  induction count as [| count IH]; intros sector ok w Hs Hhi Hdump Hld Hlt Hagree r;
    subst r.
  - cbn [read_sectors ret fst snd]. rewrite Z.add_0_r. auto.
  - assert (Hmono : sector_start (sector + 1) <= sector_start (sector + Z.of_nat (S count))).
    { unfold sector_start.
      destruct (Z.ltb_spec (sector + 1) 32),
               (Z.ltb_spec (sector + Z.of_nat (S count)) 32); lia. }
    cbn [read_sectors]. rewrite !bind_eq.
    set (w1 := (furi_delay_ms 50 _).2).
    assert (Hw1 : app w1 = app w) by reflexivity.
    destruct (read_sector_faithful sector w1) as (Hok & Hag & Hlen);
      rewrite ?Hw1; try assumption; try lia.
    pose proof (read_sector_with_keys_reader_frame nfc sector
                  (mf_classic_get_first_block_num_of_sector sector)
                  (mf_classic_get_blocks_num_in_sector sector) w1)
      as (_ & _ & Hdata & _).
    set (rs := read_sector_with_keys nfc sector _ _ w1) in *.
    rewrite Hok, !bind_eq.
    set (w2 := (furi_delay_ms 50 _).2).
    assert (Hw2 : app w2 = app rs.2) by reflexivity.
    replace (sector + Z.of_nat (S count)) with (sector + 1 + Z.of_nat count) in * by lia.
    apply IH; rewrite ?Hw2; try lia.
    + rewrite Hdata, Hw1. exact Hdump.
    + rewrite Hlen, Hw1. exact Hlt.
    + exact Hag.
Qed.

End FaithfulRun.

Lemma miband_verify_read_card_faithful nfc reset w :
  is_valid_nfc_data (app w) = true ->
  (forall history c, reply_error (nfc history c) = MfClassicErrorNone) ->
  (forall history b k kt,
     0 < b -> mf_classic_is_sector_trailer b = false ->
     reply_block (nfc history (CallReadBlock b k kt))
     = get_block (mf_classic_data (app w)) b) ->
  let total := mf_classic_get_total_block_num (type (mf_classic_data (app w))) in
  total <= Z.of_nat (length (block (mf_classic_data (app w)))) ->
  total <= Z.of_nat (length (block (reset (target_data (app w))))) ->
  let r := miband_verify_read_card nfc reset w in
  r.1 = true
  /\ mf_classic_data (app r.2) = mf_classic_data (app w)
  /\ data_agrees (mf_classic_data (app w)) (target_data (app r.2)) total.
Proof.
  intros Hvalid Haccepts Hserves total Hld Hlt r.
  destruct (total_sectors_small (type (mf_classic_data (app w)))) as [Hwrap Hrange].
  pose proof (total_blocks_layout (type (mf_classic_data (app w)))) as Hlayout.
  fold total in Hlayout.
  pose proof (miband_verify_read_card_reader_frame nfc reset w) as (_ & _ & Hdata & _).
  fold r in Hdata.
  subst r. unfold miband_verify_read_card in *. rewrite bind_eq in *.
  cbn [get_app fst snd] in *.
  rewrite Hvalid in *. cbn [negb] in *. rewrite !bind_eq in *. cbn [get_tracker fst snd] in *.
  set (w1 := (set_target_data (fun d => set_type d _) _).2) in *.
  replace (total_sectors (verify_tracker w1))
    with (wrap32 (mf_classic_get_total_sectors_num (type (mf_classic_data (app w)))))
    in * by reflexivity.
  rewrite Hwrap in *.
  set (sectors := mf_classic_get_total_sectors_num (type (mf_classic_data (app w)))) in *.
  destruct (read_sectors_faithful nfc (mf_classic_data (app w)) Haccepts Hserves
              (Z.to_nat sectors) 0 true w1) as [Hok Hagree].
  - lia.
  - lia.
  - reflexivity.
  - rewrite Z.add_0_l, Z2Nat.id, Hlayout by lia. exact Hld.
  - rewrite Z.add_0_l, Z2Nat.id, Hlayout by lia. exact Hlt.
  - intros i Hi. cbn in Hi. lia.
  - rewrite Z.add_0_l, Z2Nat.id, Hlayout in Hagree by lia.
    destruct (read_sectors nfc (Z.to_nat sectors) 0 true w1) as [ok w2].
    cbn [fst snd] in *. subst ok. cbn in *. auto.
Qed.

(** X10. A card that answers every call and serves, for every block that is
    neither block 0 nor a trailer, the bytes the dump holds is verified:
    with valid reference data and images that hold all blocks of the card
    type, handling the poller-done event ends on the success screen, and
    the target image then agrees with the dump on all those blocks. *)
Theorem written_card_is_verified nfc reset w :
  is_valid_nfc_data (app w) = true ->
  (forall history c, reply_error (nfc history c) = MfClassicErrorNone) ->
  (forall history b k kt,
     0 < b -> mf_classic_is_sector_trailer b = false ->
     reply_block (nfc history (CallReadBlock b k kt))
     = get_block (mf_classic_data (app w)) b) ->
  let total := mf_classic_get_total_block_num (type (mf_classic_data (app w))) in
  total <= Z.of_nat (length (block (mf_classic_data (app w)))) ->
  total <= Z.of_nat (length (block (reset (target_data (app w))))) ->
  let final := (miband_nfc_scene_verify_on_event nfc reset
                  (SceneManagerEventTypeCustom MiBandNfcCustomEventPollerDone) w).2 in
  reported_outcome (trace final) = Some OutcomeSuccess
  /\ data_agrees (mf_classic_data (app w)) (target_data (app final)) total.
Proof.
  intros Hvalid Haccepts Hserves total Hld Hlt final. subst final.
  cbn [miband_nfc_scene_verify_on_event]. rewrite (bind_eq release_poller).
  rewrite (bind_eq (scene_manager_set_scene_state _)).
  destruct (release_poller_effect w) as (_ & Ht & Hd & Hv & _).
  set (w0 := (scene_manager_set_scene_state MiBandNfcSceneVerifyStateComparison
                (release_poller w).2).2).
  assert (Ht0 : target_data (app w0) = target_data (app w))
    by (rewrite <- Ht; reflexivity).
  assert (Hd0 : mf_classic_data (app w0) = mf_classic_data (app w))
    by (rewrite <- Hd; reflexivity).
  assert (Hv0 : is_valid_nfc_data (app w0) = true)
    by (rewrite <- Hvalid, <- Hv; reflexivity).
  destruct (miband_verify_read_card_faithful nfc reset w0 Hv0 Haccepts)
    as (Hok & Hdata & Hagree).
  { rewrite Hd0. exact Hserves. }
  { rewrite Hd0. exact Hld. }
  { rewrite Hd0, Ht0. exact Hlt. }
  rewrite Hd0 in Hdata, Hagree. fold total in Hagree.
  rewrite bind_eq.
  destruct (miband_verify_read_card nfc reset w0) as [ok wr].
  cbn [fst snd] in *. subst ok. cbn [negb].
  rewrite !bind_eq. cbn [get_app fst snd].
  set (wc := (furi_delay_ms 500 _).2).
  assert (Happ : app wc = app wr) by reflexivity.
  rewrite Happ, Hdata. fold total.
  pose proof (compare_blocks_verdict (Z.to_nat total) 0 total true 0 wc) as Hv'.
  pose proof (compare_blocks_app_kept (Z.to_nat total) 0 total true 0 wc) as Hkept.
  cbv zeta in Hv'. rewrite Happ in Hv'. fold (mismatched_blocks (app wr) total) in Hv'.
  assert (Hnil : mismatched_blocks (app wr) total = []).
  { apply mismatched_nil_iff. rewrite Hdata. intros i Hi Htr.
    rewrite Hagree by assumption. reflexivity. }
  rewrite Hnil in Hv'. cbn [length Z.of_nat Z.eqb andb Z.add] in Hv'.
  unfold app_kept in Hkept.
  destruct (compare_blocks (Z.to_nat total) 0 total true 0 wc) as [[dm d] wcmp].
  cbn [fst snd] in *. injection Hv' as -> ->.
  rewrite bind_eq. change (0 + Z.of_nat 0) with 0. cbn [ret fst snd andb Z.eqb].
  split; [apply show_success_outcome |].
  replace (target_data (app (show_success wcmp).2)) with (target_data (app wr)).
  - exact Hagree.
  - rewrite <- Happ, <- Hkept. reflexivity.
Qed.

(** ** Entering and leaving the scene *)

Lemma on_exit_effect w0 :
  let w1 := (miband_nfc_scene_verify_on_exit w0).2 in
  app w1 = app (release_poller w0).2
  /\ trace w1 = trace w0
       ++ (if poller (app w0) then [EvPollerStop; EvPollerFree] else [])
       ++ [EvNotify sequence_blink_stop; EvPopupReset]
  /\ verify_tracker w1 = (verify_tracker_free w0).2.(verify_tracker).
Proof.
  unfold miband_nfc_scene_verify_on_exit. rewrite !bind_eq.
  destruct (release_poller_effect w0) as (_ & _ & _ & _ & _ & Htr & _ & Htrace).
  cbn [emit verify_tracker_free modify_tracker fst snd app trace verify_tracker].
  rewrite Htrace, Htr, <- !app_assoc. repeat split.
Qed.

(** X12. Leaving the scene always ends with the poller handle cleared: a
    poller that was running is stopped and freed, exactly once, before the
    blink is stopped and the popup reset.  The tracker's strings are
    released when they were allocated, its counters and the two card
    images are left alone; and leaving a second time stops and frees
    nothing again. *)
Theorem exit_releases_the_poller w :
  let w' := (miband_nfc_scene_verify_on_exit w).2 in
  poller (app w') = false
  /\ new_events w w'
     = (if poller (app w) then [EvPollerStop; EvPollerFree] else [])
       ++ [EvNotify sequence_blink_stop; EvPopupReset]
  /\ (is_Some (current_operation (verify_tracker w)) ->
      strings_released (verify_tracker w'))
  /\ run_counters_kept w w'
  /\ target_data (app w') = target_data (app w)
  /\ mf_classic_data (app w') = mf_classic_data (app w)
  /\ new_events w' (miband_nfc_scene_verify_on_exit w').2
     = [EvNotify sequence_blink_stop; EvPopupReset]
  /\ verify_tracker (miband_nfc_scene_verify_on_exit w').2 = verify_tracker w'.
Proof.
  intros w'.
  pose proof on_exit_effect as Hexit.
  destruct (Hexit w) as (Happ & Htrace & Htracker). fold w' in Happ, Htrace, Htracker.
  destruct (release_poller_effect w) as (Hp & Ht & Hd & _).
  assert (Hp' : poller (app w') = false) by (rewrite Happ; exact Hp).
  split; [exact Hp' |].
  split; [apply new_events_app; exact Htrace |].
  split.
  { intros [op Hop]. rewrite Htracker. cbn. rewrite Hop. repeat split. }
  split.
  { unfold run_counters_kept. rewrite Htracker. cbn.
    destruct (current_operation (verify_tracker w)); repeat split. }
  split; [rewrite Happ; exact Ht |]. split; [rewrite Happ; exact Hd |].
  destruct (Hexit w') as (_ & Htrace2 & Htracker2). rewrite Hp' in Htrace2.
  split; [apply new_events_app; exact Htrace2 |].
  rewrite Htracker2. cbn [verify_tracker_free modify_tracker snd verify_tracker].
  rewrite Htracker. cbn [verify_tracker_free modify_tracker snd verify_tracker].
  destruct (current_operation (verify_tracker w)) eqn:E; cbn; rewrite ?E; reflexivity.
Qed.

Lemma on_enter_valid reset w :
  is_valid_nfc_data (app w) = true ->
  let w' := (miband_nfc_scene_verify_on_enter reset w).2 in
  verify_tracker w'
  = (set_current_operation "Place Mi Band near Flipper" (verify_tracker_init w).2).2
      .(verify_tracker)
  /\ scene_state (app w') = MiBandNfcSceneVerifyStateCardSearch
  /\ poller (app w') = true
  /\ target_data (app w')
     = set_type (reset (target_data (app w))) (type (mf_classic_data (app w)))
  /\ mf_classic_data (app w') = mf_classic_data (app w)
  /\ custom_events w' = custom_events w.
Proof.
  intros Hvalid w'. subst w'. unfold miband_nfc_scene_verify_on_enter.
  rewrite bind_eq. cbn [get_app fst snd]. rewrite Hvalid. cbn [negb].
  rewrite !bind_eq. repeat split.
Qed.

(** X14. No progress is carried from one run to the next: after the scene
    was left and is entered again with valid reference data, the tracker
    is the same starting tracker whatever the earlier run left in it (all
    counters zero, the completion flag down, the three strings freshly
    allocated), the scene is in [CardSearch] with a poller running, and the
    target image is the reset image with the card type of the dump. *)
Theorem reentering_starts_a_fresh_session reset w :
  is_valid_nfc_data (app w) = true ->
  let w' := (miband_nfc_scene_verify_on_enter reset
               (miband_nfc_scene_verify_on_exit w).2).2 in
  verify_tracker w' = started_tracker
  /\ counters_reset (verify_tracker w')
  /\ strings_allocated (verify_tracker w')
  /\ scene_state (app w') = MiBandNfcSceneVerifyStateCardSearch
  /\ poller (app w') = true
  /\ target_data (app w')
     = set_type (reset (target_data (app w))) (type (mf_classic_data (app w))).
Proof.
  intros Hvalid w'.
  set (w1 := (miband_nfc_scene_verify_on_exit w).2) in *.
  assert (Hexit : app w1 = app (release_poller w).2
                  /\ current_operation (verify_tracker w1) = None).
  { subst w1. unfold miband_nfc_scene_verify_on_exit. rewrite !bind_eq.
    destruct (release_poller_effect w) as (_ & _ & _ & _ & _ & Htr & _).
    cbn [emit verify_tracker_free modify_tracker fst snd app verify_tracker].
    rewrite Htr. split; [reflexivity |].
    destruct (current_operation (verify_tracker w)) eqn:E; cbn; rewrite ?E; reflexivity. }
  destruct Hexit as [Happ Hop].
  destruct (release_poller_effect w) as (_ & Ht & Hd & Hv & _).
  destruct (on_enter_valid reset w1) as (Htracker & Hstate & Hpoller & Htarget & _).
  { rewrite Happ, Hv. exact Hvalid. }
  fold w' in Htracker, Hstate, Hpoller, Htarget.
  assert (Hstart : verify_tracker w' = started_tracker).
  { rewrite Htracker. cbn. rewrite Hop. reflexivity. }
  split; [exact Hstart |]. rewrite Hstart.
  split; [repeat split |]. split; [repeat split; cbn; eauto |].
  split; [exact Hstate |]. split; [exact Hpoller |].
  rewrite Htarget, Happ, Ht, Hd. reflexivity.
Qed.

(** X13. From the entry of the scene with valid reference data to its exit,
    the three strings of the tracker stay allocated, whatever events,
    poller reports and dialog results arrive in between and whatever the
    card answers: no handler writes to a string that was released.  They
    are released by the exit. *)
Theorem tracker_strings_live_from_enter_to_exit nfc reset w inputs :
  is_valid_nfc_data (app w) = true ->
  (is_Some (current_operation (verify_tracker w)) ->
   strings_allocated (verify_tracker w)) ->
  let entered := (miband_nfc_scene_verify_on_enter reset w).2 in
  let running := (scene_inputs nfc reset inputs entered).2 in
  strings_allocated (verify_tracker entered)
  /\ strings_allocated (verify_tracker running)
  /\ strings_released (verify_tracker (miband_nfc_scene_verify_on_exit running).2).
Proof.
  intros Hvalid Hcoherent entered running.
  assert (Hentered : strings_allocated (verify_tracker entered)).
  { destruct (on_enter_valid reset w Hvalid) as (Htracker & _).
    fold entered in Htracker. rewrite Htracker. cbn.
    destruct (current_operation (verify_tracker w)) eqn:Hop.
    - destruct Hcoherent as (_ & [l ->] & [e ->]); [eauto |].
      repeat split; cbn; eauto.
    - repeat split; cbn; eauto. }
  assert (Hinputs : preserves strings_stay_allocated (scene_inputs nfc reset inputs)).
  { induction inputs as [| i inputs IH]; cbn [scene_inputs].
    - apply preserves_ret. typeclasses eauto.
    - apply preserves_bind; [typeclasses eauto | | intros; exact IH].
      destruct i as [event | event_type | result]; cbn [scene_input].
      + apply preserves_bind; [typeclasses eauto | apply on_event_strings |].
        intros. apply preserves_ret. typeclasses eauto.
      + apply preserves_bind; [typeclasses eauto | apply callback_strings |].
        intros. apply preserves_ret. typeclasses eauto.
      + destruct result; cbn [verify_dialog_callback];
          frame_with prim_frame. }
  assert (Hrunning : strings_allocated (verify_tracker running))
    by (apply Hinputs; exact Hentered).
  split; [exact Hentered |]. split; [exact Hrunning |].
  destruct (on_exit_effect running) as (_ & _ & Htracker).
  rewrite Htracker. cbn. destruct Hrunning as ([op Hop] & _). rewrite Hop.
  repeat split.
Qed.

(** ** The progress display *)

Lemma string_length_app (a b : string) :
  String.length (a ++ b) = (String.length a + String.length b)%nat.
Proof. induction a as [| c a IH]; cbn; [reflexivity | now rewrite IH]. Qed.

Lemma progress_cells_length count : forall i p,
  String.length (progress_cells count i p) = count.
Proof.
  induction count as [| count IH]; intros i p; [reflexivity |].
  cbn [progress_cells]. rewrite string_length_app, IH.
  unfold progress_cell. destruct (i <? p / 5); [reflexivity |].
  destruct ((i =? p / 5) && (p <? 100)); reflexivity.
Qed.

Lemma progress_cells_full count : forall i p,
  i + Z.of_nat count <= p / 5 -> progress_cells count i p = cells "=" count.
Proof.
  induction count as [| count IH]; intros i p Hfull; [reflexivity |].
  cbn [progress_cells cells]. rewrite IH by lia.
  unfold progress_cell. replace (i <? p / 5) with true; [reflexivity |].
  symmetry. apply Z.ltb_lt. lia.
Qed.

Lemma progress_cells_below_100 :
  forallb (fun p => String.eqb (progress_cells 20 0 p) (bar_text p)) (indices_from 0 100)
  = true.
Proof. vm_compute. reflexivity. Qed.

(** X15. The progress bar always has twenty cells.  For a percentage [p]
    it shows one "=" for every full five percent, followed, as long as [p]
    is below 100, by the head ">" and blanks; from 100 percent on it is
    twenty "=" and no head. *)
Theorem progress_bar_shape p :
  0 <= p ->
  String.length (progress_cells 20 0 p) = 20%nat
  /\ progress_cells 20 0 p = bar_text p
  /\ (100 <= p -> progress_cells 20 0 p = cells "=" 20).
Proof.
  intros Hp. split; [apply progress_cells_length |].
  assert (Hfull : 100 <= p -> progress_cells 20 0 p = cells "=" 20).
  { intros H100. apply progress_cells_full.
    assert (100 / 5 <= p / 5) by (apply Z.div_le_mono; lia).
    change (100 / 5) with 20 in *. lia. }
  split; [| exact Hfull].
  destruct (Z.lt_ge_cases p 100) as [Hlt | Hge].
  - pose proof progress_cells_below_100 as Hall.
    rewrite forallb_forall in Hall. apply String.eqb_eq. apply Hall.
    apply in_indices_from. lia.
  - rewrite Hfull by lia. unfold bar_text.
    assert (100 / 5 <= p / 5) by (apply Z.div_le_mono; lia).
    change (100 / 5) with 20 in *.
    replace (p <? 100) with false by (symmetry; apply Z.ltb_ge; lia).
    rewrite Z.min_l by lia. reflexivity.
Qed.

(** X16. While the tracker is within its range (the current sector not
    beyond the total, the total small enough for the multiplication by 100
    to fit 32 bits), the percentage lies between 0 and 100; it is 100
    exactly when the read is complete or the current sector has reached the
    total, so the head of the bar is drawn for every sector still to
    read. *)
Theorem progress_percent_range t :
  0 < total_sectors t <= 42949672 ->
  0 <= current_sector t <= total_sectors t ->
  0 <= progress_percent t <= 100
  /\ (progress_percent t = 100 <->
      reading_complete t = true \/ current_sector t = total_sectors t)
  /\ (reading_complete t = false ->
      progress_percent t = current_sector t * 100 / total_sectors t).
Proof.
  intros Htotal Hcur. unfold progress_percent.
  destruct (reading_complete t).
  - split; [lia |]. split; [tauto | discriminate].
  - rewrite wrap32_small by (unfold in_uint32; lia).
    assert (Hle : current_sector t * 100 / total_sectors t <= 100).
    { apply Z.div_le_upper_bound; lia. }
    assert (Hge : 0 <= current_sector t * 100 / total_sectors t).
    { apply Z.div_pos; lia. }
    split; [lia |]. split; [| reflexivity].
    split.
    + intros H100. right.
      destruct (Z.lt_ge_cases (current_sector t) (total_sectors t)) as [Hlt | Hge'];
        [| lia].
      assert (current_sector t * 100 / total_sectors t < 100).
      { apply Z.div_lt_upper_bound; lia. }
      lia.
    + intros [Hc | ->]; [discriminate |].
      rewrite Z.mul_comm. apply Z.div_mul. lia.
Qed.

(** ** The small handlers, end to end *)

(** What the handler does on an event other than poller-done, before the
    scene manager acts on a request to leave the scene. *)
Lemma on_event_calls nfc reset event w :
  event <> SceneManagerEventTypeCustom MiBandNfcCustomEventPollerDone ->
  let r := miband_nfc_scene_verify_on_event nfc reset event w in
  trace r.2 = trace w ++ handler_calls event
  /\ target_data (app r.2) = target_data (app w)
  /\ mf_classic_data (app r.2) = mf_classic_data (app w)
  /\ poller (app r.2) = poller (app w)
  /\ run_counters_kept w r.2
  /\ custom_events r.2 = custom_events w
  /\ (is_Some (current_operation (verify_tracker w)) ->
      is_Some (current_operation (verify_tracker r.2)))
  /\ (leaves_after event = false ->
      poller (app r.2) = poller (app w) /\ strings_stay_allocated w r.2)
  /\ (r.1 = false <->
      event = SceneManagerEventTypeTick
      \/ exists code, event = SceneManagerEventTypeCustom (MiBandNfcCustomEventOther code)).
Proof.
  intros Hne r. subst r.
  destruct event as [[| | | | | code] | |]; try congruence;
    cbn [miband_nfc_scene_verify_on_event handler_calls]; rewrite ?bind_eq;
    unfold set_current_operation, set_error_details, update_verify_ui, furi_delay_ms,
      scene_manager_set_scene_state, emit, modify_tracker, modify_app;
    cbn [ret fst snd app verify_tracker custom_events trace target_data
         mf_classic_data poller current_operation];
    (split; [rewrite <- ?app_assoc; try reflexivity; symmetry; apply app_nil_r |]);
    unfold run_counters_kept, strings_stay_allocated, strings_allocated; cbn;
    repeat split; try congruence; eauto;
    try (intros [H | [c H]]; congruence);
    try (intros [x Hx]; rewrite Hx; cbn; eauto);
    try match goal with
        | H : is_Some _ /\ _ /\ _ |- _ =>
            destruct H as ([x Hx] & Hl & He); rewrite ?Hx; cbn; eauto
        end.
Qed.

Lemma handle_event_stays nfc reset event w :
  event <> SceneManagerEventTypeCustom MiBandNfcCustomEventPollerDone ->
  leaves_after event = false ->
  scene_manager_handle_event nfc reset event w
  = miband_nfc_scene_verify_on_event nfc reset event w.
Proof.
  intros Hne Hstay. unfold scene_manager_handle_event.
  destruct (on_event_calls nfc reset event w Hne) as (Htr & _).
  rewrite (new_events_app _ _ _ Htr). fold (leaves_after event). rewrite Hstay.
  reflexivity.
Qed.

Lemma handle_event_leaves nfc reset event w :
  event <> SceneManagerEventTypeCustom MiBandNfcCustomEventPollerDone ->
  leaves_after event = true ->
  scene_manager_handle_event nfc reset event w
  = ((miband_nfc_scene_verify_on_event nfc reset event w).1,
     (miband_nfc_scene_verify_on_exit
        (miband_nfc_scene_verify_on_event nfc reset event w).2).2).
Proof.
  intros Hne Hleave. unfold scene_manager_handle_event.
  destruct (on_event_calls nfc reset event w Hne) as (Htr & _).
  rewrite (new_events_app _ _ _ Htr). fold (leaves_after event). rewrite Hleave.
  reflexivity.
Qed.

(** The handler for an event other than poller-done, together with the
    exit handler the scene manager runs when the scene is left. *)
Lemma handle_event_effect nfc reset event w :
  event <> SceneManagerEventTypeCustom MiBandNfcCustomEventPollerDone ->
  let r := scene_manager_handle_event nfc reset event w in
  trace r.2
  = trace w ++ handler_calls event
      ++ (if leaves_after event then exit_calls (poller (app w)) else [])
  /\ target_data (app r.2) = target_data (app w)
  /\ mf_classic_data (app r.2) = mf_classic_data (app w)
  /\ run_counters_kept w r.2
  /\ custom_events r.2 = custom_events w
  /\ poller (app r.2) = (if leaves_after event then false else poller (app w))
  /\ (leaves_after event = true ->
      is_Some (current_operation (verify_tracker w)) ->
      strings_released (verify_tracker r.2))
  /\ (leaves_after event = false -> strings_stay_allocated w r.2)
  /\ (r.1 = false <->
      event = SceneManagerEventTypeTick
      \/ exists code, event = SceneManagerEventTypeCustom (MiBandNfcCustomEventOther code)).
Proof.
  intros Hne r. subst r.
  destruct (on_event_calls nfc reset event w Hne)
    as (Htr & Ht & Hd & Hp & Hkept & Hq & Hop & Hstay & Hres).
  destruct (leaves_after event) eqn:Hleave.
  - rewrite (handle_event_leaves nfc reset event w Hne Hleave). cbn [fst snd].
    set (w1 := (miband_nfc_scene_verify_on_event nfc reset event w).2) in *.
    destruct (on_exit_effect w1) as (Happ & Htrace & Htracker).
    destruct (release_poller_effect w1) as (Hp1 & Ht1 & Hd1 & _ & _ & _ & Hq1 & _).
    split.
    { rewrite Htrace, Htr, Hp. unfold exit_calls. rewrite <- !app_assoc. reflexivity. }
    split; [rewrite Happ, Ht1; exact Ht |].
    split; [rewrite Happ, Hd1; exact Hd |].
    split.
    { destruct Hkept as (H1 & H2 & H3 & H4 & H5 & H6 & H7).
      unfold run_counters_kept. rewrite Htracker. cbn.
      destruct (current_operation (verify_tracker w1)); cbn; repeat split; assumption. }
    split.
    { unfold miband_nfc_scene_verify_on_exit. rewrite !bind_eq.
      cbn [emit verify_tracker_free modify_tracker fst snd custom_events].
      rewrite Hq1. exact Hq. }
    split; [rewrite Happ; exact Hp1 |].
    split.
    { intros _ Hsome. destruct (Hop Hsome) as [op Hop1].
      rewrite Htracker. cbn. rewrite Hop1. repeat split. }
    split; [discriminate | exact Hres].
  - rewrite (handle_event_stays nfc reset event w Hne Hleave).
    rewrite app_nil_r.
    destruct (Hstay eq_refl) as [_ Hstrings].
    split; [exact Htr |]. split; [exact Ht |]. split; [exact Hd |].
    split; [exact Hkept |]. split; [exact Hq |]. split; [exact Hp |].
    split; [discriminate |]. split; [intros _; exact Hstrings | exact Hres].
Qed.

Lemma deliver_single nfc reset e w :
  scene_manager_deliver nfc reset [e] w
  = (tt, (scene_manager_handle_event nfc reset (SceneManagerEventTypeCustom e) w).2).
Proof.
  cbn [scene_manager_deliver].
  destruct (existsb leaves_scene _); reflexivity.
Qed.

(** X17. A choice made in the "Differences Found" dialog is routed by the
    scene as the button says.  The left button ("Exit") asks for the main
    menu and the right one ("Details") for the diff viewer; either way the
    scene is left, so its exit handler runs: the poller is released if it
    was still there, the tracker's strings are freed, and the counters of
    the run and both card images stay as they were.  The centre button
    leads to nothing at all.  The event queue is empty again afterwards. *)
Theorem dialog_choice_is_routed nfc reset w result :
  custom_events w = [] ->
  let w' := (scene_manager_handle_custom_events nfc reset
               (verify_dialog_callback result w).2).2 in
  new_events w w'
  = match result with
    | DialogExResultLeft =>
        EvSearchAndSwitch MiBandNfcSceneMainMenu :: exit_calls (poller (app w))
    | DialogExResultRight =>
        EvNextScene MiBandNfcSceneDiffViewer :: exit_calls (poller (app w))
    | DialogExResultCenter => []
    end
  /\ custom_events w' = []
  /\ target_data (app w') = target_data (app w)
  /\ mf_classic_data (app w') = mf_classic_data (app w)
  /\ run_counters_kept w w'
  /\ match result with
     | DialogExResultCenter => app w' = app w /\ verify_tracker w' = verify_tracker w
     | _ =>
         poller (app w') = false
         /\ (is_Some (current_operation (verify_tracker w)) ->
             strings_released (verify_tracker w'))
     end.
Proof.
  intros Hq w'. subst w'.
  unfold scene_manager_handle_custom_events, verify_dialog_callback,
    view_dispatcher_send_custom_event.
  destruct result; rewrite bind_eq;
    cbn [take_custom_events ret fst snd custom_events app verify_tracker trace];
    rewrite ?Hq; cbn [List.app]; rewrite ?deliver_single; cbn [fst snd].
  1, 3: match goal with
        | |- context [scene_manager_handle_event _ _ ?e ?w0] =>
            destruct (handle_event_effect nfc reset e w0 ltac:(discriminate))
              as (Htr & Ht & Hd & Hkept & Hq' & Hp & Hrel & _)
        end;
        unfold run_counters_kept in *;
        cbn [handler_calls leaves_after existsb leaves_scene orb List.app
             app verify_tracker trace custom_events] in Htr, Ht, Hd, Hkept, Hq', Hp, Hrel;
        (split; [apply new_events_app; exact Htr |]);
        (split; [exact Hq' |]); (split; [exact Ht |]); (split; [exact Hd |]);
        (split; [exact Hkept |]); (split; [exact Hp |]); exact (Hrel eq_refl).
  split; [apply new_events_app; cbn [trace]; rewrite app_nil_r; reflexivity |].
  unfold run_counters_kept. cbn. repeat split.
Qed.

(** X18. A card-detected report of the poller only moves the scene to
    [Reading] and redraws the popup twice: the callback lets the poller go
    on, no call is made to the card, and the counters, the poller handle
    and both card images stay as they were.  The read itself waits for the
    poller-done event. *)
Theorem card_detected_only_changes_the_state nfc reset w :
  custom_events w = [] ->
  let r := miband_verify_reader_callback reset MfClassicPollerEventTypeCardDetected w in
  let w' := (miband_nfc_app_custom_event_callback nfc reset r.2).2 in
  r.1 = NfcCommandContinue
  /\ scene_state (app w') = MiBandNfcSceneVerifyStateReading
  /\ new_events w w' = [EvUi "Card Found"; EvUi "Card Detected"]
  /\ poller (app w') = poller (app w)
  /\ target_data (app w') = target_data (app w)
  /\ mf_classic_data (app w') = mf_classic_data (app w)
  /\ run_counters_kept w w'
  /\ custom_events w' = [].
Proof.
  intros Hq r w'. subst w' r.
  unfold miband_nfc_app_custom_event_callback, miband_verify_reader_callback,
    view_dispatcher_send_custom_event.
  rewrite !bind_eq.
  cbn [take_custom_events ret fst snd custom_events set_current_operation
       update_verify_ui emit modify_tracker].
  rewrite Hq.
  cbn [List.app deliver_custom_events miband_nfc_scene_verify_on_event].
  rewrite !bind_eq.
  split; [reflexivity |]. split; [reflexivity |].
  split; [apply new_events_app; cbn; rewrite <- app_assoc; reflexivity |].
  unfold run_counters_kept. cbn. repeat split.
Qed.

(** X6. On a card that answers every call with the same error, a sector
    whose trailer the dump holds is given up after each candidate was
    presented exactly once, in the order of the candidate list: the calls
    of the reader are those authentications against the first block of the
    sector and nothing else, the sector is reported as failed and the
    application state is left as it was. *)
Theorem refused_sector_presents_each_candidate_once
    nfc err sector first_block blocks_in_sector w sec_tr :
  mf_classic_get_sector_trailer_by_sector (mf_classic_data (app w)) sector = Some sec_tr ->
  err <> MfClassicErrorNone ->
  (forall history c, reply_error (nfc history c) = err) ->
  let r := read_sector_with_keys nfc sector first_block blocks_in_sector w in
  r.1 = false
  /\ new_events w r.2
     = map (fun kc => EvNfc (CallAuth (wrap8 (wrap8 first_block)) kc.1 kc.2) err)
           (keys_to_try (mf_classic_data (app w)) sector sec_tr)
  /\ app r.2 = app w.
Proof.
  intros Htr Herr Hall r.
  assert (Hrefused : forall history b k kt,
            reply_error (nfc history (CallAuth b k kt)) <> MfClassicErrorNone)
    by (intros; rewrite Hall; exact Herr).
  destruct (read_sector_with_keys_refused nfc Hrefused sector first_block
              blocks_in_sector w) as (Hres & Happ & _).
  fold r in Hres, Happ. split; [exact Hres |]. split; [| exact Happ].
  subst r. unfold read_sector_with_keys. rewrite bind_eq. cbn [get_app fst snd].
  rewrite Htr. apply new_events_app.
  apply (try_keys_refused_in_order nfc err); assumption.
Qed.

(** X19. The poller-done event is the only event on which the scene talks
    to the card.  On every other event the handler makes the calls of its
    branch and, when the branch asks for another scene (the back event, the
    two dialog choices and a failed detection), the exit handler follows:
    no authentication and no read call is made, both card images, the
    counters of the run and the event queue stay as they were, and the
    poller is released exactly when the scene is left.  The handler reports
    the event as consumed exactly for the back event and its five own
    custom events. *)
Theorem only_poller_done_reaches_the_card nfc reset event w :
  event <> SceneManagerEventTypeCustom MiBandNfcCustomEventPollerDone ->
  let r := scene_manager_handle_event nfc reset event w in
  new_events w r.2
  = handler_calls event
      ++ (if leaves_after event then exit_calls (poller (app w)) else [])
  /\ List.filter (fun ev => is_auth_call ev || is_read_call ev) (new_events w r.2) = []
  /\ target_data (app r.2) = target_data (app w)
  /\ mf_classic_data (app r.2) = mf_classic_data (app w)
  /\ run_counters_kept w r.2
  /\ custom_events r.2 = custom_events w
  /\ poller (app r.2) = (if leaves_after event then false else poller (app w))
  /\ (leaves_after event = true ->
      is_Some (current_operation (verify_tracker w)) ->
      strings_released (verify_tracker r.2))
  /\ (r.1 = false <->
      event = SceneManagerEventTypeTick
      \/ exists code, event = SceneManagerEventTypeCustom (MiBandNfcCustomEventOther code)).
Proof.
  intros Hne r.
  destruct (handle_event_effect nfc reset event w Hne)
    as (Htr & Ht & Hd & Hkept & Hq & Hp & Hrel & _ & Hres).
  fold r in Htr, Ht, Hd, Hkept, Hq, Hp, Hrel, Hres.
  assert (Hnew : new_events w r.2
                 = handler_calls event
                     ++ (if leaves_after event then exit_calls (poller (app w)) else []))
    by (apply new_events_app; exact Htr).
  split; [exact Hnew |].
  split.
  { rewrite Hnew.
    destruct event as [[| | | | | code] | |]; try congruence;
      cbn [handler_calls leaves_after existsb leaves_scene orb exit_calls];
      destruct (poller (app w)); reflexivity. }
  repeat (split; [assumption |]). exact Hres.
Qed.

Lemma filter_and_length {A} (f g : A -> bool) l :
  (length (List.filter (fun x => f x && g x) l) <= length (List.filter f l))%nat.
Proof.
  induction l as [| a l IH]; cbn; [lia |].
  destruct (f a), (g a); cbn; lia.
Qed.

(** X20. The number of differing blocks the comparison reports never
    exceeds the number of blocks it really compares, which is 14 for a Mini
    card, 47 for a 1K card and 215 for a 4K card (all blocks but block 0
    and one trailer per sector). *)
Theorem mismatch_count_bounded w total_blocks :
  0 <= (compare_blocks (Z.to_nat total_blocks) 0 total_blocks true 0 w).1.2
    <= Z.of_nat (length (compared_blocks total_blocks))
  /\ length (compared_blocks (mf_classic_get_total_block_num MfClassicTypeMini)) = 14%nat
  /\ length (compared_blocks (mf_classic_get_total_block_num MfClassicType1k)) = 47%nat
  /\ length (compared_blocks (mf_classic_get_total_block_num MfClassicType4k)) = 215%nat.
Proof.
  split; [| vm_compute; auto].
  rewrite compare_blocks_verdict. cbn [fst snd].
  pose proof (filter_and_length (fun i => negb (excluded_block i))
                (block_differs (app w)) (block_indices total_blocks)) as Hle.
  unfold mismatched_from, compared_blocks, block_indices in *. lia.
Qed.

(** ** The properties above on concrete cards *)

Lemma in_uint32_0 : in_uint32 0.
Proof. unfold in_uint32. lia. Qed.

Lemma sector_read_keeps_other_flags_witness :
  mf_classic_is_key_found
    (target_data (app (read_sector_with_keys open_card 0 0 4 verify_world).2))
    5 MfClassicKeyTypeA
  = mf_classic_is_key_found (target_data (app verify_world)) 5 MfClassicKeyTypeA.
Proof.
  apply (sector_read_keeps_other_flags open_card 0 0 4 verify_world 5 MfClassicKeyTypeA);
    lia.
Defined.

Lemma sector_read_auth_accounting_witness :
  let r := read_sector_with_keys sector0_card 0 0 4 sector0_world in
  exists attempts successes : nat,
    (successes <= attempts <= 3)%nat
    /\ (is_Some (mf_classic_get_sector_trailer_by_sector
                   (mf_classic_data (app sector0_world)) 0)
        -> (1 <= attempts)%nat)
    /\ (r.1 = true -> (1 <= successes)%nat)
    /\ auth_attempts (verify_tracker r.2)
       = wrap32 (auth_attempts (verify_tracker sector0_world) + Z.of_nat attempts)
    /\ auth_successes (verify_tracker r.2)
       = wrap32 (auth_successes (verify_tracker sector0_world) + Z.of_nat successes)
    /\ run_counters_kept sector0_world r.2.
Proof.
  apply (sector_read_auth_accounting sector0_card 0 0 4 sector0_world);
    unfold in_uint32; cbn; lia.
Defined.

Lemma sector_read_success_means_all_blocks_read_witness :
  let r := read_sector_with_keys open_card 0 0 4 verify_world in
  exists sec_tr k kt,
    mf_classic_get_sector_trailer_by_sector (mf_classic_data (app verify_world)) 0
    = Some sec_tr
    /\ In (k, kt) (keys_to_try (mf_classic_data (app verify_world)) 0 sec_tr)
    /\ emitted (EvNfc (CallAuth (wrap8 (wrap8 0)) k kt) MfClassicErrorNone)
         verify_world r.2
    /\ forall q, 0 <= q < wrap8 4 ->
         emitted (EvNfc (CallReadBlock (wrap8 (wrap8 0 + q)) k kt) MfClassicErrorNone)
           verify_world r.2.
Proof.
  apply (sector_read_success_means_all_blocks_read open_card 0 0 4 verify_world).
  vm_compute. reflexivity.
Defined.

Lemma first_candidate_opens_sector_witness :
  let r := read_sector_with_keys sector5_card 5 20 4 sector5_world in
  r.1 = true
  /\ new_events sector5_world r.2
     = EvNfc (CallAuth (wrap8 (wrap8 20)) dump_key_b MfClassicKeyTypeB) MfClassicErrorNone
       :: sector_calls (wrap8 20) dump_key_b MfClassicKeyTypeB 0 (Z.to_nat (wrap8 4))
       ++ [EvDelay 10]
  /\ (forall ev, In ev (new_events sector5_world r.2) ->
        is_auth_call ev || is_read_call ev = true ->
        event_key ev = Some (dump_key_b, MfClassicKeyTypeB))
  /\ auth_attempts (verify_tracker r.2)
     = wrap32 (auth_attempts (verify_tracker sector5_world) + 1)
  /\ auth_successes (verify_tracker r.2)
     = wrap32 (auth_successes (verify_tracker sector5_world) + 1).
Proof.
  apply (first_candidate_opens_sector sector5_card 5 20 4 sector5_world
           (trailer_of_block dump_trailer) dump_key_b MfClassicKeyTypeB
           [(magic_key, MfClassicKeyTypeA)]).
  - reflexivity.
  - reflexivity.
  - intros history b. reflexivity.
  - intros history b. reflexivity.
Defined.

Lemma refused_sector_presents_each_candidate_once_witness :
  let r := read_sector_with_keys silent_card 0 0 4 sector0_world in
  r.1 = false
  /\ new_events sector0_world r.2
     = map (fun kc => EvNfc (CallAuth (wrap8 (wrap8 0)) kc.1 kc.2) MfClassicErrorTimeout)
           (keys_to_try (mf_classic_data (app sector0_world)) 0
              (trailer_of_block dump_trailer))
  /\ app r.2 = app sector0_world.
Proof.
  apply (refused_sector_presents_each_candidate_once silent_card MfClassicErrorTimeout
           0 0 4 sector0_world (trailer_of_block dump_trailer)).
  - reflexivity.
  - discriminate.
  - intros history c. reflexivity.
Defined.

Lemma bulk_read_accounting_witness :
  let r := miband_verify_read_card sector0_card reset_to_blank verify_world in
  let total := mf_classic_get_total_sectors_num
                 (type (mf_classic_data (app verify_world))) in
  exists read failed : nat,
    Z.of_nat (read + failed) = total
    /\ (r.1 = true <-> failed = 0%nat)
    /\ sectors_read (verify_tracker r.2)
       = wrap32 (sectors_read (verify_tracker verify_world) + Z.of_nat read)
    /\ sectors_failed (verify_tracker r.2)
       = wrap32 (sectors_failed (verify_tracker verify_world) + Z.of_nat failed)
    /\ total_sectors (verify_tracker r.2) = total
    /\ current_sector (verify_tracker r.2) = total
    /\ reading_complete (verify_tracker r.2) = true.
Proof.
  apply (bulk_read_accounting sector0_card reset_to_blank verify_world).
  - reflexivity.
  - apply in_uint32_0.
  - apply in_uint32_0.
Defined.

Lemma bulk_read_marks_every_sector_witness :
  let r := miband_verify_read_card open_card reset_to_blank verify_world in
  type (target_data (app r.2)) = type (mf_classic_data (app verify_world))
  /\ (r.1 = true ->
      forall s key_type,
        0 <= s < mf_classic_get_total_sectors_num
                   (type (mf_classic_data (app verify_world))) ->
        mf_classic_is_key_found (target_data (app r.2)) s key_type = true).
Proof.
  apply (bulk_read_marks_every_sector open_card reset_to_blank verify_world).
  reflexivity.
Defined.

Lemma written_card_is_verified_witness :
  let total := mf_classic_get_total_block_num (type (mf_classic_data (app entered_world))) in
  let final := (miband_nfc_scene_verify_on_event open_card reset_to_blank
                  (SceneManagerEventTypeCustom MiBandNfcCustomEventPollerDone)
                  entered_world).2 in
  reported_outcome (trace final) = Some OutcomeSuccess
  /\ data_agrees (mf_classic_data (app entered_world)) (target_data (app final)) total.
Proof.
  apply (written_card_is_verified open_card reset_to_blank entered_world).
  - reflexivity.
  - intros history c. destruct c; reflexivity.
  - intros history b k kt _ _. reflexivity.
  - vm_compute. discriminate.
  - vm_compute. discriminate.
Defined.

Lemma refused_card_is_never_read_witness :
  let final := (miband_nfc_scene_verify_on_event silent_card reset_to_blank
                  (SceneManagerEventTypeCustom MiBandNfcCustomEventPollerDone)
                  entered_world).2 in
  reported_outcome (trace final) = Some OutcomeReadFailed
  /\ no_read_calls entered_world final
  /\ target_data (app final)
     = set_type (reset_to_blank (target_data (app entered_world)))
         (type (mf_classic_data (app entered_world)))
  /\ sectors_failed (verify_tracker final)
     = wrap32 (sectors_failed (verify_tracker entered_world)
               + mf_classic_get_total_sectors_num
                   (type (mf_classic_data (app entered_world))))
  /\ sectors_read (verify_tracker final) = sectors_read (verify_tracker entered_world)
  /\ blocks_compared (verify_tracker final)
     = blocks_compared (verify_tracker entered_world).
Proof.
  apply (refused_card_is_never_read silent_card reset_to_blank entered_world).
  - reflexivity.
  - apply in_uint32_0.
  - intros history b k kt. discriminate.
Defined.

Lemma tracker_strings_live_from_enter_to_exit_witness :
  let inputs := [InputPoller MfClassicPollerEventTypeCardDetected;
                 InputEvent (SceneManagerEventTypeCustom MiBandNfcCustomEventCardDetected);
                 InputPoller MfClassicPollerEventTypeSuccess;
                 InputEvent (SceneManagerEventTypeCustom MiBandNfcCustomEventPollerDone)] in
  let entered := (miband_nfc_scene_verify_on_enter reset_to_blank verify_world).2 in
  let running := (scene_inputs stale_card reset_to_blank inputs entered).2 in
  strings_allocated (verify_tracker entered)
  /\ strings_allocated (verify_tracker running)
  /\ strings_released (verify_tracker (miband_nfc_scene_verify_on_exit running).2).
Proof.
  intros inputs.
  apply (tracker_strings_live_from_enter_to_exit stale_card reset_to_blank verify_world
           inputs).
  - reflexivity.
  - intros [op Hop]. discriminate.
Defined.

Lemma reentering_starts_a_fresh_session_witness :
  let w := run_verify stale_card reset_to_blank MfClassicPollerEventTypeSuccess
             verify_world in
  let w' := (miband_nfc_scene_verify_on_enter reset_to_blank
               (miband_nfc_scene_verify_on_exit w).2).2 in
  verify_tracker w' = started_tracker
  /\ counters_reset (verify_tracker w')
  /\ strings_allocated (verify_tracker w')
  /\ scene_state (app w') = MiBandNfcSceneVerifyStateCardSearch
  /\ poller (app w') = true
  /\ target_data (app w')
     = set_type (reset_to_blank (target_data (app w))) (type (mf_classic_data (app w))).
Proof.
  intros w.
  apply (reentering_starts_a_fresh_session reset_to_blank w).
  vm_compute. reflexivity.
Defined.

Lemma progress_bar_shape_witness :
  String.length (progress_cells 20 0 35) = 20%nat
  /\ progress_cells 20 0 35 = bar_text 35
  /\ (100 <= 35 -> progress_cells 20 0 35 = cells "=" 20).
Proof. apply (progress_bar_shape 35). lia. Defined.

Lemma progress_percent_range_witness :
  0 <= progress_percent midway_tracker <= 100
  /\ (progress_percent midway_tracker = 100 <->
      reading_complete midway_tracker = true
      \/ current_sector midway_tracker = total_sectors midway_tracker)
  /\ (reading_complete midway_tracker = false ->
      progress_percent midway_tracker
      = current_sector midway_tracker * 100 / total_sectors midway_tracker).
Proof. apply (progress_percent_range midway_tracker); cbn; lia. Defined.

Lemma dialog_choice_is_routed_witness :
  let w' := (scene_manager_handle_custom_events open_card reset_to_blank
               (verify_dialog_callback DialogExResultRight entered_world).2).2 in
  new_events entered_world w'
  = EvNextScene MiBandNfcSceneDiffViewer :: exit_calls (poller (app entered_world))
  /\ custom_events w' = []
  /\ target_data (app w') = target_data (app entered_world)
  /\ mf_classic_data (app w') = mf_classic_data (app entered_world)
  /\ run_counters_kept entered_world w'
  /\ poller (app w') = false
  /\ (is_Some (current_operation (verify_tracker entered_world)) ->
      strings_released (verify_tracker w')).
Proof.
  apply (dialog_choice_is_routed open_card reset_to_blank entered_world
           DialogExResultRight).
  reflexivity.
Defined.

Lemma card_detected_only_changes_the_state_witness :
  let r := miband_verify_reader_callback reset_to_blank
             MfClassicPollerEventTypeCardDetected entered_world in
  let w' := (miband_nfc_app_custom_event_callback open_card reset_to_blank r.2).2 in
  r.1 = NfcCommandContinue
  /\ scene_state (app w') = MiBandNfcSceneVerifyStateReading
  /\ new_events entered_world w' = [EvUi "Card Found"; EvUi "Card Detected"]
  /\ poller (app w') = poller (app entered_world)
  /\ target_data (app w') = target_data (app entered_world)
  /\ mf_classic_data (app w') = mf_classic_data (app entered_world)
  /\ run_counters_kept entered_world w'
  /\ custom_events w' = [].
Proof.
  apply (card_detected_only_changes_the_state open_card reset_to_blank entered_world).
  reflexivity.
Defined.

Lemma only_poller_done_reaches_the_card_witness :
  let r := scene_manager_handle_event silent_card reset_to_blank
             SceneManagerEventTypeBack entered_world in
  new_events entered_world r.2
  = handler_calls SceneManagerEventTypeBack
      ++ (if leaves_after SceneManagerEventTypeBack
          then exit_calls (poller (app entered_world)) else [])
  /\ List.filter (fun ev => is_auth_call ev || is_read_call ev)
       (new_events entered_world r.2) = []
  /\ target_data (app r.2) = target_data (app entered_world)
  /\ mf_classic_data (app r.2) = mf_classic_data (app entered_world)
  /\ run_counters_kept entered_world r.2
  /\ custom_events r.2 = custom_events entered_world
  /\ poller (app r.2)
     = (if leaves_after SceneManagerEventTypeBack then false
        else poller (app entered_world))
  /\ (leaves_after SceneManagerEventTypeBack = true ->
      is_Some (current_operation (verify_tracker entered_world)) ->
      strings_released (verify_tracker r.2))
  /\ (r.1 = false <->
      SceneManagerEventTypeBack = SceneManagerEventTypeTick
      \/ exists code,
           SceneManagerEventTypeBack
           = SceneManagerEventTypeCustom (MiBandNfcCustomEventOther code)).
Proof.
  apply (only_poller_done_reaches_the_card silent_card reset_to_blank
           SceneManagerEventTypeBack entered_world).
  discriminate.
Defined.
